(** * Presence and call-signalling coordinator of gigga-chat-backend

    A shallow embedding of the three socket coordinators of the repository:

    - [SocketChat]      : class [SocketManager] of [src/controllers/socket.chat.ts];
    - [SocketChatTimed] : class [SocketManager] of the repository's second
                          source of that class (it adds the [callTimeouts] map
                          and a server-side [setTimeout] at [call:initiate]);
    - [CallHandler]     : class [CallHandler] (calls carry a [status] field).

    Every socket handler becomes a function from the coordinator state to the
    new state and the list of transport effects it issues, in program order.
    [socket.emit] is an emission to one socket, [io.to(r).emit] an emission to
    a room, [socket.join] / [socket.leave] are room subscriptions.  A clock
    reading [now] (milliseconds) stands for [new Date()]; the ISO string of a
    call's [timestamp] is kept as that reading.  Console logging is left
    out. *)

From stdpp Require Import gmap strings list fin_maps.
From Stdlib Require Import ZArith Ascii.

Local Open Scope Z_scope.
Local Open Scope string_scope.
Local Open Scope list_scope.

(** ** ECMAScript [Map] with string keys

    [Map] iterates in insertion order ([values()], [forEach]); [set] on a key
    that is present keeps its position.  The call map is iterated by the
    source, so it is an association list in insertion order. *)
Module JSMap.
Abbreviation t V := (list (string * V)) (only parsing).

Section ops.
Context {V : Type}.

Fixpoint get (k : string) (m : t V) : option V :=
  match m with
  | [] => None
  | (k', v) :: r => if decide (k' = k) then Some v else get k r
  end.

Definition has (k : string) (m : t V) : bool :=
  match get k m with Some _ => true | None => false end.

Fixpoint set (k : string) (v : V) (m : t V) : t V :=
  match m with
  | [] => [(k, v)]
  | (k', v') :: r =>
      if decide (k' = k) then (k, v) :: r else (k', v') :: set k v r
  end.

Definition delete (k : string) (m : t V) : t V :=
  filter (λ kv, kv.1 ≠ k) m.

Definition keys (m : t V) : list string := m.*1.
Definition values (m : t V) : list V := m.*2.
End ops.
End JSMap.

(** ** Transport effects, shared by the three coordinators *)
Inductive target : Type :=
| to_socket (socketId : string)   (* socket.emit(...)       *)
| to_room (room : string).        (* io.to(room).emit(...)  *)

Inductive effect (M : Type) : Type :=
| emit (to : target) (m : M)
| socket_join (socketId room : string)
| socket_leave (socketId room : string).
Arguments emit {M} to m.
Arguments socket_join {M} socketId room.
Arguments socket_leave {M} socketId room.

Inductive CallType : Type := video | audio.

(** [x || dflt] on an optional string: [undefined] and the empty string are
    both falsy. *)
Definition or_default (x : option string) (dflt : string) : string :=
  match x with
  | Some EmptyString | None => dflt
  | Some s => s
  end.

(** [[userId1, userId2].sort().join('_')].  [sort] compares UTF-16 code
    units and [String.leb] compares bytes; the two orders agree on ASCII
    ids, such as the database ids that the login route of [index.ts] signs
    into the token. *)
Definition createConversationId (userId1 userId2 : string) : string :=
  if String.leb userId1 userId2
  then userId1 +:+ "_" +:+ userId2
  else userId2 +:+ "_" +:+ userId1.

(** [Math.floor((now - start) / 1000)], with clock readings in
    milliseconds.  The code computes on doubles; the integer quotient is
    what it returns while the two readings are at most 2^53 ms apart. *)
Definition getCallDuration (now startTime : Z) : Z := (now - startTime) `div` 1000.

Module ActiveConversation.
Record t : Type := mk
  { participants : list string; roomId : string; lastActivity : Z }.
End ActiveConversation.

(** [conversation.lastActivity = new Date()] on the object held by the map *)
Definition touch (now : Z) (conversation : ActiveConversation.t) : ActiveConversation.t :=
  ActiveConversation.mk (ActiveConversation.participants conversation)
    (ActiveConversation.roomId conversation) now.

Module UserSocket.
Record t : Type := mk
  { userId : string; socketId : string; activeConversations : list string }.
End UserSocket.

(** Assignment to [userSocket.activeConversations] on the object held by the map *)
Definition set_activeConversations (l : list string) (userSocket : UserSocket.t) : UserSocket.t :=
  UserSocket.mk (UserSocket.userId userSocket) (UserSocket.socketId userSocket) l.

(** * [src/controllers/socket.chat.ts]: class [SocketManager] *)
Module SocketChat.

Module CallData.
Record t : Type := mk
  { callId : string;
    callType : CallType;
    callerId : string;
    callerName : string;
    callerImage : option string;
    recipientId : string;
    timestamp : Z }.
End CallData.

(** The three private maps of the class. *)
Record SocketManager : Type := mkSocketManager
  { activeConversations : gmap string ActiveConversation.t;
    connectedUsers : gmap string UserSocket.t;
    activeCalls : JSMap.t CallData.t }.

Definition initial : SocketManager :=
  {| activeConversations := ∅; connectedUsers := ∅; activeCalls := [] |}.

Definition with_activeConversations (f : gmap string ActiveConversation.t → gmap string ActiveConversation.t)
    (s : SocketManager) : SocketManager :=
  {| activeConversations := f (activeConversations s);
     connectedUsers := connectedUsers s;
     activeCalls := activeCalls s |}.

Definition with_connectedUsers (f : gmap string UserSocket.t → gmap string UserSocket.t)
    (s : SocketManager) : SocketManager :=
  {| activeConversations := activeConversations s;
     connectedUsers := f (connectedUsers s);
     activeCalls := activeCalls s |}.

Definition with_activeCalls (f : JSMap.t CallData.t → JSMap.t CallData.t)
    (s : SocketManager) : SocketManager :=
  {| activeConversations := activeConversations s;
     connectedUsers := connectedUsers s;
     activeCalls := f (activeCalls s) |}.

(** Events the server sends, one constructor per event name, the fields of
    the payload in source order. *)
Inductive message : Type :=
| connected (message userId : string)
| user_joined_conversation (userId conversationId : string) (connectedUsers : list string)
| conversation_joined (conversationId otherUserId : string)
    (connectedUsers : list string) (isOtherUserOnline : bool)
| user_left_conversation (userId conversationId : string) (reason : option string)
| receive_message (senderId message messageType : string) (timestamp : Z)
    (conversationId : string)
| message_sent (success : bool) (message : string) (isReceiverOnline : bool)
    (conversationId : string)
| user_typing (userId : string) (isTyping : bool) (conversationId : string)
| call_failed (callId reason : string)
| call_incoming (callData : CallData.t)
| call_initiated (callId recipientId status : string)
| call_error (callId error : string)
| call_accepted (callId acceptorId acceptorName : string)
| call_rejected (callId reason rejectedBy : string)
| call_ended (callId endedBy : string) (reason : option string) (duration : option Z)
| call_timeout (callId : string)
| webrtc_error (callId error : string)
| webrtc_offer (callId offer senderId : string)
| webrtc_answer (callId answer senderId : string)
| webrtc_ice_candidate (callId candidate senderId : string).

Definition result : Type := SocketManager * list (effect message).

Definition getConnectedUsersInConversation (s : SocketManager)
    (conversationId : string) : list string :=
  match activeConversations s !! conversationId with
  | None => []
  | Some conversation =>
      filter (λ userId, is_Some (connectedUsers s !! userId))
        (ActiveConversation.participants conversation)
  end.

(** Body of [handleConnection] before the handlers are registered. *)
Definition on_connection (userId socketId : string) (s : SocketManager) : result :=
  (with_connectedUsers (insert userId (UserSocket.mk userId socketId [])) s,
   [ socket_join socketId userId;
     emit (to_socket socketId)
       (connected "Successfully connected to socket server" userId) ]).

Definition on_join_conversation (now : Z) (userId socketId otherUserId : string)
    (s : SocketManager) : result :=
  let conversationId := createConversationId userId otherUserId in
  let s1 :=
    match activeConversations s !! conversationId with
    | None =>
        with_activeConversations
          (insert conversationId
             (ActiveConversation.mk [userId; otherUserId] conversationId now)) s
    | Some _ => with_activeConversations (alter (touch now) conversationId) s
    end in
  let s2 :=
    match connectedUsers s1 !! userId with
    | Some userSocket =>
        if bool_decide (conversationId ∈ UserSocket.activeConversations userSocket)
        then s1
        else with_connectedUsers
               (insert userId
                  (set_activeConversations
                     (UserSocket.activeConversations userSocket ++ [conversationId])
                     userSocket)) s1
    | None => s1
    end in
  let connectedInConversation := getConnectedUsersInConversation s2 conversationId in
  (s2,
   [ socket_join socketId conversationId;
     emit (to_room conversationId)
       (user_joined_conversation userId conversationId connectedInConversation);
     emit (to_socket socketId)
       (conversation_joined conversationId otherUserId connectedInConversation
          (bool_decide (otherUserId ∈ connectedInConversation))) ]).

Definition on_leave_conversation (userId socketId otherUserId : string)
    (s : SocketManager) : result :=
  let conversationId := createConversationId userId otherUserId in
  let s1 :=
    match connectedUsers s !! userId with
    | Some userSocket =>
        with_connectedUsers
          (insert userId
             (set_activeConversations
                (filter (λ id, id ≠ conversationId)
                   (UserSocket.activeConversations userSocket))
                userSocket)) s
    | None => s
    end in
  (s1,
   [ socket_leave socketId conversationId;
     emit (to_room conversationId)
       (user_left_conversation userId conversationId None) ]).

(** The body of the [try]; nothing in it throws on a payload of the declared
    type, so the [catch] that emits [message_error] is not entered. *)
Definition on_send_message (now : Z) (userId socketId receiverId msg : string)
    (messageType : option string) (s : SocketManager) : result :=
  let conversationId := createConversationId userId receiverId in
  let s0 :=
    match activeConversations s !! conversationId with
    | None =>
        with_activeConversations
          (insert conversationId
             (ActiveConversation.mk [userId; receiverId] conversationId now)) s
    | Some _ => s
    end in
  let s1 := with_activeConversations (alter (touch now) conversationId) s0 in
  let isReceiverOnline := bool_decide (is_Some (connectedUsers s1 !! receiverId)) in
  (s1,
   [ emit (to_room conversationId)
       (receive_message userId msg (or_default messageType "text") now conversationId);
     emit (to_socket socketId)
       (message_sent true "Message sent successfully" isReceiverOnline conversationId) ]).

Definition on_typing (isTyping : bool) (userId receiverId : string)
    (s : SocketManager) : result :=
  let conversationId := createConversationId userId receiverId in
  (s, [ emit (to_room conversationId) (user_typing userId isTyping conversationId) ]).

Definition is_party (userId : string) (callData : CallData.t) : bool :=
  bool_decide (CallData.callerId callData = userId)
  || bool_decide (CallData.recipientId callData = userId).

Definition otherUserId (userId : string) (callData : CallData.t) : string :=
  if bool_decide (CallData.callerId callData = userId)
  then CallData.recipientId callData
  else CallData.callerId callData.

Definition on_call_initiate (now : Z) (userId socketId : string)
    (callId recipientId : string) (callType : CallType)
    (callerId callerName : string) (callerImage : option string)
    (s : SocketManager) : result :=
  if bool_decide (callerId ≠ userId) then
    (s, [ emit (to_socket socketId) (call_failed callId "Authentication error") ])
  else
    match connectedUsers s !! recipientId with
    | None =>
        (s, [ emit (to_socket socketId) (call_failed callId "Recipient is offline") ])
    | Some recipientSocket =>
        match List.find
                (λ call, bool_decide (CallData.recipientId call = recipientId))
                (JSMap.values (activeCalls s)) with
        | Some existingCall =>
            (s, [ emit (to_socket socketId)
                    (call_failed callId "Recipient is already in a call") ])
        | None =>
            let callData :=
              CallData.mk callId callType callerId callerName callerImage
                recipientId now in
            (with_activeCalls (JSMap.set callId callData) s,
             [ emit (to_room recipientId) (call_incoming callData);
               emit (to_socket socketId) (call_initiated callId recipientId "ringing") ])
        end
    end.

Definition on_call_accept (userId socketId : string) (callId callerId : string)
    (s : SocketManager) : result :=
  match JSMap.get callId (activeCalls s) with
  | None => (s, [ emit (to_socket socketId) (call_error callId "Call not found") ])
  | Some callData =>
      if bool_decide (CallData.recipientId callData ≠ userId) then
        (s, [ emit (to_socket socketId)
                (call_error callId "Not authorized to accept this call") ])
      else
        (s, [ emit (to_room callerId) (call_accepted callId userId "User") ])
  end.

Definition on_call_reject (userId : string) (callId callerId : string)
    (reason : option string) (s : SocketManager) : result :=
  (with_activeCalls (JSMap.delete callId) s,
   [ emit (to_room callerId)
       (call_rejected callId (or_default reason "Call rejected") userId) ]).

Definition on_call_end (now : Z) (userId : string) (callId recipientId : string)
    (s : SocketManager) : result :=
  let callData := JSMap.get callId (activeCalls s) in
  (with_activeCalls (JSMap.delete callId) s,
   [ emit (to_room recipientId)
       (call_ended callId userId None
          (Some match callData with
                | Some c => getCallDuration now (CallData.timestamp c)
                | None => 0
                end)) ]).

(** The [call:timeout] event is sent by a client; this file schedules no
    timer of its own. *)
Definition on_call_timeout (callId recipientId : string) (s : SocketManager) : result :=
  (with_activeCalls (JSMap.delete callId) s,
   [ emit (to_room recipientId) (call_timeout callId) ]).

Definition on_webrtc_offer (userId socketId : string) (callId recipientId offer : string)
    (s : SocketManager) : result :=
  if negb (JSMap.has callId (activeCalls s)) then
    (s, [ emit (to_socket socketId) (webrtc_error callId "Call not found") ])
  else (s, [ emit (to_room recipientId) (webrtc_offer callId offer userId) ]).

Definition on_webrtc_answer (userId socketId : string) (callId recipientId answer : string)
    (s : SocketManager) : result :=
  if negb (JSMap.has callId (activeCalls s)) then
    (s, [ emit (to_socket socketId) (webrtc_error callId "Call not found") ])
  else (s, [ emit (to_room recipientId) (webrtc_answer callId answer userId) ]).

Definition on_webrtc_ice_candidate (userId : string) (callId recipientId candidate : string)
    (s : SocketManager) : result :=
  if negb (JSMap.has callId (activeCalls s)) then (s, [])
  else (s, [ emit (to_room recipientId) (webrtc_ice_candidate callId candidate userId) ]).

(** [this.activeCalls.forEach(...)] of the disconnect handler: the entries
    are visited in insertion order; the callback deletes the entry it is
    visiting. *)
Fixpoint end_calls_of (userId : string) (entries : list (string * CallData.t))
    (s : SocketManager) : result :=
  match entries with
  | [] => (s, [])
  | (callId, callData) :: rest =>
      if is_party userId callData then
        let r := end_calls_of userId rest (with_activeCalls (JSMap.delete callId) s) in
        (r.1,
         emit (to_room (otherUserId userId callData))
           (call_ended callId userId (Some "User disconnected") None) :: r.2)
      else end_calls_of userId rest s
  end.

Definition on_disconnect (userId : string) (s : SocketManager) : result :=
  let activeConversationIds :=
    match connectedUsers s !! userId with
    | Some userSocket => UserSocket.activeConversations userSocket
    | None => []
    end in
  let left :=
    (λ conversationId,
       emit (to_room conversationId)
         (user_left_conversation userId conversationId (Some "disconnect")))
      <$> activeConversationIds in
  let r := end_calls_of userId (activeCalls s) s in
  (with_connectedUsers (delete userId) r.1, left ++ r.2).

(** Events a client socket delivers to the server.  The socket carries the
    authenticated [userId] (fixed at connection time) and its own id. *)
Module Event.
Inductive t : Type :=
| connection
| join_conversation (otherUserId : string)
| leave_conversation (otherUserId : string)
| send_message (receiverId message : string) (messageType : option string)
| typing_start (receiverId : string)
| typing_stop (receiverId : string)
| call_initiate (callId recipientId : string) (callType : CallType)
    (callerId callerName : string) (callerImage : option string)
| call_accept (callId callerId : string)
| call_reject (callId callerId : string) (reason : option string)
| call_end (callId recipientId : string)
| call_timeout (callId recipientId : string)
| webrtc_offer (callId recipientId offer : string)
| webrtc_answer (callId recipientId answer : string)
| webrtc_ice_candidate (callId recipientId candidate : string)
| disconnect.
End Event.

Record arrival : Type := mkArrival
  { now : Z; userId : string; socketId : string; event : Event.t }.

Definition handle (a : arrival) (s : SocketManager) : result :=
  let '(mkArrival now userId socketId e) := a in
  match e with
  | Event.connection => on_connection userId socketId s
  | Event.join_conversation o => on_join_conversation now userId socketId o s
  | Event.leave_conversation o => on_leave_conversation userId socketId o s
  | Event.send_message r m t => on_send_message now userId socketId r m t s
  | Event.typing_start r => on_typing true userId r s
  | Event.typing_stop r => on_typing false userId r s
  | Event.call_initiate c r t cr n i => on_call_initiate now userId socketId c r t cr n i s
  | Event.call_accept c cr => on_call_accept userId socketId c cr s
  | Event.call_reject c cr rs => on_call_reject userId c cr rs s
  | Event.call_end c r => on_call_end now userId c r s
  | Event.call_timeout c r => on_call_timeout c r s
  | Event.webrtc_offer c r o => on_webrtc_offer userId socketId c r o s
  | Event.webrtc_answer c r a => on_webrtc_answer userId socketId c r a s
  | Event.webrtc_ice_candidate c r x => on_webrtc_ice_candidate userId c r x s
  | Event.disconnect => on_disconnect userId s
  end.

(** Handlers run to completion, one arrival after the other. *)
Fixpoint run (evs : list arrival) (s : SocketManager) : result :=
  match evs with
  | [] => (s, [])
  | a :: rest =>
      let r1 := handle a s in
      let r2 := run rest r1.1 in
      (r2.1, r1.2 ++ r2.2)
  end.

Definition reachable (s : SocketManager) : Prop :=
  ∃ evs, (run evs initial).1 = s.

End SocketChat.

(** ** Timers of the Node.js runtime

    [setTimeout(cb, ms)] returns a fresh handle and leaves a pending timer in
    the runtime; [clearTimeout(h)] removes it; the runtime runs the callback of
    a pending timer once, not before it is due, and the timer is then gone.
    The only callback the coordinators schedule is the call timeout, so a
    pending timer is its due time and the [callId] its closure captured. *)
Module Timer.
Record t : Type := mk { due : Z; callId : string }.
End Timer.

Definition CALL_TIMEOUT_MS : Z := 30000.

(** * The second [SocketManager]: with [callTimeouts] *)
Module SocketChatTimed.

Module CallData.
Record t : Type := mk
  { callId : string;
    callType : CallType;
    callerId : string;
    callerName : string;
    callerImage : option string;
    recipientId : string;
    recipientName : string;
    timestamp : Z }.
End CallData.

(** The four private maps of the class, and the runtime's pending timers
    with its handle allocator. *)
Record SocketManager : Type := mkSocketManager
  { activeConversations : gmap string ActiveConversation.t;
    connectedUsers : gmap string UserSocket.t;
    activeCalls : JSMap.t CallData.t;
    callTimeouts : gmap string nat;
    timers : gmap nat Timer.t;
    nextTimer : nat }.

Definition initial : SocketManager :=
  {| activeConversations := ∅; connectedUsers := ∅; activeCalls := [];
     callTimeouts := ∅; timers := ∅; nextTimer := 0 |}.

Definition with_activeConversations (f : gmap string ActiveConversation.t → gmap string ActiveConversation.t)
    (s : SocketManager) : SocketManager :=
  {| activeConversations := f (activeConversations s);
     connectedUsers := connectedUsers s;
     activeCalls := activeCalls s;
     callTimeouts := callTimeouts s;
     timers := timers s;
     nextTimer := nextTimer s |}.

Definition with_connectedUsers (f : gmap string UserSocket.t → gmap string UserSocket.t)
    (s : SocketManager) : SocketManager :=
  {| activeConversations := activeConversations s;
     connectedUsers := f (connectedUsers s);
     activeCalls := activeCalls s;
     callTimeouts := callTimeouts s;
     timers := timers s;
     nextTimer := nextTimer s |}.

Definition with_activeCalls (f : JSMap.t CallData.t → JSMap.t CallData.t)
    (s : SocketManager) : SocketManager :=
  {| activeConversations := activeConversations s;
     connectedUsers := connectedUsers s;
     activeCalls := f (activeCalls s);
     callTimeouts := callTimeouts s;
     timers := timers s;
     nextTimer := nextTimer s |}.

Definition with_callTimeouts (f : gmap string nat → gmap string nat)
    (s : SocketManager) : SocketManager :=
  {| activeConversations := activeConversations s;
     connectedUsers := connectedUsers s;
     activeCalls := activeCalls s;
     callTimeouts := f (callTimeouts s);
     timers := timers s;
     nextTimer := nextTimer s |}.

(** [setTimeout(callback, ms)] at clock reading [now]: the new handle and
    the state with the timer pending. *)
Definition setTimeout (now ms : Z) (callId : string) (s : SocketManager)
    : nat * SocketManager :=
  (nextTimer s,
   {| activeConversations := activeConversations s;
      connectedUsers := connectedUsers s;
      activeCalls := activeCalls s;
      callTimeouts := callTimeouts s;
      timers := <[nextTimer s := Timer.mk (now + ms) callId]> (timers s);
      nextTimer := S (nextTimer s) |}).

Definition clearTimeout (h : nat) (s : SocketManager) : SocketManager :=
  {| activeConversations := activeConversations s;
     connectedUsers := connectedUsers s;
     activeCalls := activeCalls s;
     callTimeouts := callTimeouts s;
     timers := delete h (timers s);
     nextTimer := nextTimer s |}.

Definition clearCallTimeout (callId : string) (s : SocketManager) : SocketManager :=
  match callTimeouts s !! callId with
  | Some timeout => with_callTimeouts (delete callId) (clearTimeout timeout s)
  | None => s
  end.

Inductive message : Type :=
| connected (message userId socketId : string) (timestamp : Z)
| test_event (message : string) (timestamp : Z)
| pong
| user_joined_conversation (userId conversationId : string) (connectedUsers : list string)
| conversation_joined (conversationId otherUserId : string)
    (connectedUsers : list string) (isOtherUserOnline : bool)
| user_left_conversation (userId conversationId : string) (reason : option string)
| receive_message (senderId message messageType : string) (timestamp : Z)
    (conversationId : string)
| message_sent (success : bool) (message : string) (isReceiverOnline : bool)
    (conversationId : string)
| user_typing (userId : string) (isTyping : bool) (conversationId : string)
| call_failed (callId reason : string)
| call_incoming (callData : CallData.t)
| call_initiated (callId recipientId status : string)
| call_error (callId error : string)
| call_accepted (callId acceptorId acceptorName : string)
| call_rejected (callId reason rejectedBy : string)
| call_ended (callId endedBy : string) (reason : option string) (duration : Z)
| call_timeout (callId : string) (reason : option string)
| webrtc_error (callId error : string)
| webrtc_offer (callId offer senderId : string)
| webrtc_answer (callId answer senderId : string)
| webrtc_ice_candidate (callId candidate senderId : string).

Definition result : Type := SocketManager * list (effect message).

Definition getConnectedUsersInConversation (s : SocketManager)
    (conversationId : string) : list string :=
  match activeConversations s !! conversationId with
  | None => []
  | Some conversation =>
      filter (λ userId, is_Some (connectedUsers s !! userId))
        (ActiveConversation.participants conversation)
  end.

Definition on_connection (now : Z) (userId socketId : string) (s : SocketManager) : result :=
  (with_connectedUsers (insert userId (UserSocket.mk userId socketId [])) s,
   [ socket_join socketId userId;
     emit (to_socket socketId)
       (connected "Successfully connected to socket server" userId socketId now);
     emit (to_socket socketId) (test_event "Connection test successful" now) ]).

(** [ping] with an acknowledgement callback answers ['pong'] to the sender. *)
Definition on_ping (socketId : string) (cb_is_function : bool) (s : SocketManager) : result :=
  (s, if cb_is_function then [ emit (to_socket socketId) pong ] else []).

Definition on_join_conversation (now : Z) (userId socketId otherUserId : string)
    (s : SocketManager) : result :=
  let conversationId := createConversationId userId otherUserId in
  let s1 :=
    match activeConversations s !! conversationId with
    | None =>
        with_activeConversations
          (insert conversationId
             (ActiveConversation.mk [userId; otherUserId] conversationId now)) s
    | Some _ => with_activeConversations (alter (touch now) conversationId) s
    end in
  let s2 :=
    match connectedUsers s1 !! userId with
    | Some userSocket =>
        if bool_decide (conversationId ∈ UserSocket.activeConversations userSocket)
        then s1
        else with_connectedUsers
               (insert userId
                  (set_activeConversations
                     (UserSocket.activeConversations userSocket ++ [conversationId])
                     userSocket)) s1
    | None => s1
    end in
  let connectedInConversation := getConnectedUsersInConversation s2 conversationId in
  (s2,
   [ socket_join socketId conversationId;
     emit (to_room conversationId)
       (user_joined_conversation userId conversationId connectedInConversation);
     emit (to_socket socketId)
       (conversation_joined conversationId otherUserId connectedInConversation
          (bool_decide (otherUserId ∈ connectedInConversation))) ]).

Definition on_leave_conversation (userId socketId otherUserId : string)
    (s : SocketManager) : result :=
  let conversationId := createConversationId userId otherUserId in
  let s1 :=
    match connectedUsers s !! userId with
    | Some userSocket =>
        with_connectedUsers
          (insert userId
             (set_activeConversations
                (filter (λ id, id ≠ conversationId)
                   (UserSocket.activeConversations userSocket))
                userSocket)) s
    | None => s
    end in
  (s1,
   [ socket_leave socketId conversationId;
     emit (to_room conversationId)
       (user_left_conversation userId conversationId None) ]).

(** The body of the [try]; nothing in it throws on a payload of the declared
    type, so the [catch] that emits [message_error] is not entered. *)
Definition on_send_message (now : Z) (userId socketId receiverId msg : string)
    (messageType : option string) (s : SocketManager) : result :=
  let conversationId := createConversationId userId receiverId in
  let s0 :=
    match activeConversations s !! conversationId with
    | None =>
        with_activeConversations
          (insert conversationId
             (ActiveConversation.mk [userId; receiverId] conversationId now)) s
    | Some _ => s
    end in
  let s1 := with_activeConversations (alter (touch now) conversationId) s0 in
  let isReceiverOnline := bool_decide (is_Some (connectedUsers s1 !! receiverId)) in
  (s1,
   [ emit (to_room conversationId)
       (receive_message userId msg (or_default messageType "text") now conversationId);
     emit (to_socket socketId)
       (message_sent true "Message sent successfully" isReceiverOnline conversationId) ]).

Definition on_typing (isTyping : bool) (userId receiverId : string)
    (s : SocketManager) : result :=
  let conversationId := createConversationId userId receiverId in
  (s, [ emit (to_room conversationId) (user_typing userId isTyping conversationId) ]).

Definition is_party (userId : string) (callData : CallData.t) : bool :=
  bool_decide (CallData.callerId callData = userId)
  || bool_decide (CallData.recipientId callData = userId).

Definition otherUserId (userId : string) (callData : CallData.t) : string :=
  if bool_decide (CallData.callerId callData = userId)
  then CallData.recipientId callData
  else CallData.callerId callData.

Definition on_call_initiate (now : Z) (userId socketId : string)
    (callId recipientId : string) (callType : CallType)
    (callerId callerName : string) (callerImage : option string)
    (recipientName : string) (s : SocketManager) : result :=
  if bool_decide (callerId ≠ userId) then
    (s, [ emit (to_socket socketId) (call_failed callId "Authentication error") ])
  else
    match connectedUsers s !! recipientId with
    | None =>
        (s, [ emit (to_socket socketId) (call_failed callId "Recipient is offline") ])
    | Some recipientSocket =>
        match List.find
                (λ call, bool_decide (CallData.recipientId call = recipientId))
                (JSMap.values (activeCalls s)) with
        | Some existingCall =>
            (s, [ emit (to_socket socketId)
                    (call_failed callId "Recipient is already in a call") ])
        | None =>
            let callData :=
              CallData.mk callId callType callerId callerName callerImage
                recipientId recipientName now in
            let s1 := with_activeCalls (JSMap.set callId callData) s in
            let '(timeout, s2) := setTimeout now CALL_TIMEOUT_MS callId s1 in
            let s3 := with_callTimeouts (insert callId timeout) s2 in
            (s3,
             [ emit (to_room recipientId) (call_incoming callData);
               emit (to_socket socketId) (call_initiated callId recipientId "ringing") ])
        end
    end.

(** The callback given to [setTimeout] in [call:initiate]. *)
Definition call_timeout_callback (callId : string) (s : SocketManager) : result :=
  match JSMap.get callId (activeCalls s) with
  | Some call =>
      (with_callTimeouts (delete callId) (with_activeCalls (JSMap.delete callId) s),
       [ emit (to_room (CallData.callerId call))
           (call_timeout callId (Some "No answer from recipient"));
         emit (to_room (CallData.recipientId call))
           (call_timeout callId (Some "Call timed out")) ])
  | None => (s, [])
  end.

Definition on_call_accept (userId socketId : string) (callId callerId : string)
    (s : SocketManager) : result :=
  match JSMap.get callId (activeCalls s) with
  | None => (s, [ emit (to_socket socketId) (call_error callId "Call not found") ])
  | Some callData =>
      if bool_decide (CallData.recipientId callData ≠ userId) then
        (s, [ emit (to_socket socketId)
                (call_error callId "Not authorized to accept this call") ])
      else
        (clearCallTimeout callId s,
         [ emit (to_room callerId) (call_accepted callId userId "User") ])
  end.

Definition on_call_reject (userId : string) (callId callerId : string)
    (reason : option string) (s : SocketManager) : result :=
  (clearCallTimeout callId (with_activeCalls (JSMap.delete callId) s),
   [ emit (to_room callerId)
       (call_rejected callId (or_default reason "Call rejected") userId) ]).

Definition on_call_end (now : Z) (userId : string) (callId recipientId : string)
    (s : SocketManager) : result :=
  let callData := JSMap.get callId (activeCalls s) in
  (clearCallTimeout callId (with_activeCalls (JSMap.delete callId) s),
   [ emit (to_room recipientId)
       (call_ended callId userId None
          match callData with
          | Some c => getCallDuration now (CallData.timestamp c)
          | None => 0
          end) ]).

Definition on_call_timeout (callId recipientId : string) (s : SocketManager) : result :=
  (clearCallTimeout callId (with_activeCalls (JSMap.delete callId) s),
   [ emit (to_room recipientId) (call_timeout callId None) ]).

Definition on_webrtc_offer (userId socketId : string) (callId recipientId offer : string)
    (s : SocketManager) : result :=
  if negb (JSMap.has callId (activeCalls s)) then
    (s, [ emit (to_socket socketId) (webrtc_error callId "Call not found") ])
  else (s, [ emit (to_room recipientId) (webrtc_offer callId offer userId) ]).

Definition on_webrtc_answer (userId socketId : string) (callId recipientId answer : string)
    (s : SocketManager) : result :=
  if negb (JSMap.has callId (activeCalls s)) then
    (s, [ emit (to_socket socketId) (webrtc_error callId "Call not found") ])
  else (s, [ emit (to_room recipientId) (webrtc_answer callId answer userId) ]).

Definition on_webrtc_ice_candidate (userId : string) (callId recipientId candidate : string)
    (s : SocketManager) : result :=
  if negb (JSMap.has callId (activeCalls s)) then (s, [])
  else (s, [ emit (to_room recipientId) (webrtc_ice_candidate callId candidate userId) ]).

Fixpoint end_calls_of (now : Z) (userId : string) (entries : list (string * CallData.t))
    (s : SocketManager) : result :=
  match entries with
  | [] => (s, [])
  | (callId, callData) :: rest =>
      if is_party userId callData then
        let r :=
          end_calls_of now userId rest
            (clearCallTimeout callId (with_activeCalls (JSMap.delete callId) s)) in
        (r.1,
         emit (to_room (otherUserId userId callData))
           (call_ended callId userId (Some "User disconnected")
              (getCallDuration now (CallData.timestamp callData))) :: r.2)
      else end_calls_of now userId rest s
  end.

Definition on_disconnect (now : Z) (userId : string) (s : SocketManager) : result :=
  let activeConversationIds :=
    match connectedUsers s !! userId with
    | Some userSocket => UserSocket.activeConversations userSocket
    | None => []
    end in
  let left :=
    (λ conversationId,
       emit (to_room conversationId)
         (user_left_conversation userId conversationId (Some "disconnect")))
      <$> activeConversationIds in
  let r := end_calls_of now userId (activeCalls s) s in
  (with_connectedUsers (delete userId) r.1, left ++ r.2).

(** The runtime runs a pending timer that is due: the timer leaves the
    pending set, then its callback runs.  A handle that is not pending, or
    not yet due, runs nothing. *)
Definition on_timer (now : Z) (h : nat) (s : SocketManager) : result :=
  match timers s !! h with
  | Some t =>
      if bool_decide (Timer.due t ≤ now)%Z
      then call_timeout_callback (Timer.callId t) (clearTimeout h s)
      else (s, [])
  | None => (s, [])
  end.

Module Event.
Inductive t : Type :=
| connection
| ping (cb_is_function : bool)
| join_conversation (otherUserId : string)
| leave_conversation (otherUserId : string)
| send_message (receiverId message : string) (messageType : option string)
| typing_start (receiverId : string)
| typing_stop (receiverId : string)
| call_initiate (callId recipientId : string) (callType : CallType)
    (callerId callerName : string) (callerImage : option string)
    (recipientName : string)
| call_accept (callId callerId : string)
| call_reject (callId callerId : string) (reason : option string)
| call_end (callId recipientId : string)
| call_timeout (callId recipientId : string)
| webrtc_offer (callId recipientId offer : string)
| webrtc_answer (callId recipientId answer : string)
| webrtc_ice_candidate (callId recipientId candidate : string)
| disconnect.
End Event.

(** What the event loop runs next: a socket event, or a due timer. *)
Inductive arrival : Type :=
| from_socket (now : Z) (userId socketId : string) (event : Event.t)
| timer_fired (now : Z) (h : nat).

Definition handle (a : arrival) (s : SocketManager) : result :=
  match a with
  | timer_fired now h => on_timer now h s
  | from_socket now userId socketId e =>
      match e with
      | Event.connection => on_connection now userId socketId s
      | Event.ping cb => on_ping socketId cb s
      | Event.join_conversation o => on_join_conversation now userId socketId o s
      | Event.leave_conversation o => on_leave_conversation userId socketId o s
      | Event.send_message r m t => on_send_message now userId socketId r m t s
      | Event.typing_start r => on_typing true userId r s
      | Event.typing_stop r => on_typing false userId r s
      | Event.call_initiate c r t cr n i rn =>
          on_call_initiate now userId socketId c r t cr n i rn s
      | Event.call_accept c cr => on_call_accept userId socketId c cr s
      | Event.call_reject c cr rs => on_call_reject userId c cr rs s
      | Event.call_end c r => on_call_end now userId c r s
      | Event.call_timeout c r => on_call_timeout c r s
      | Event.webrtc_offer c r o => on_webrtc_offer userId socketId c r o s
      | Event.webrtc_answer c r a => on_webrtc_answer userId socketId c r a s
      | Event.webrtc_ice_candidate c r x => on_webrtc_ice_candidate userId c r x s
      | Event.disconnect => on_disconnect now userId s
      end
  end.

Fixpoint run (evs : list arrival) (s : SocketManager) : result :=
  match evs with
  | [] => (s, [])
  | a :: rest =>
      let r1 := handle a s in
      let r2 := run rest r1.1 in
      (r2.1, r1.2 ++ r2.2)
  end.

Definition reachable (s : SocketManager) : Prop :=
  ∃ evs, (run evs initial).1 = s.

End SocketChatTimed.

(** * Class [CallHandler] *)
Module CallHandler.

Inductive Status : Type := initiated | ringing | accepted | rejected | ended.

Global Instance Status_eq_dec : EqDecision Status.
Proof. solve_decision. Defined.

Module CallData.
Record t : Type := mk
  { callId : string;
    callType : CallType;
    callerId : string;
    callerName : string;
    callerImage : option string;
    recipientId : string;
    timestamp : Z;
    status : Status }.
End CallData.

(** [callData.status = ...] on the object held by the map *)
Definition set_status (st : Status) (c : CallData.t) : CallData.t :=
  CallData.mk (CallData.callId c) (CallData.callType c) (CallData.callerId c)
    (CallData.callerName c) (CallData.callerImage c) (CallData.recipientId c)
    (CallData.timestamp c) st.

(** The two private maps of the class, and the runtime's pending timers
    with its handle allocator. *)
Record State : Type := mkState
  { activeCalls : JSMap.t CallData.t;
    callTimeouts : gmap string nat;
    timers : gmap nat Timer.t;
    nextTimer : nat }.

Definition initial : State :=
  {| activeCalls := []; callTimeouts := ∅; timers := ∅; nextTimer := 0 |}.

Definition with_activeCalls (f : JSMap.t CallData.t → JSMap.t CallData.t)
    (s : State) : State :=
  {| activeCalls := f (activeCalls s);
     callTimeouts := callTimeouts s;
     timers := timers s;
     nextTimer := nextTimer s |}.

Definition with_callTimeouts (f : gmap string nat → gmap string nat)
    (s : State) : State :=
  {| activeCalls := activeCalls s;
     callTimeouts := f (callTimeouts s);
     timers := timers s;
     nextTimer := nextTimer s |}.

Definition setTimeout (now ms : Z) (callId : string) (s : State) : nat * State :=
  (nextTimer s,
   {| activeCalls := activeCalls s;
      callTimeouts := callTimeouts s;
      timers := <[nextTimer s := Timer.mk (now + ms) callId]> (timers s);
      nextTimer := S (nextTimer s) |}).

Definition clearTimeout (h : nat) (s : State) : State :=
  {| activeCalls := activeCalls s;
     callTimeouts := callTimeouts s;
     timers := delete h (timers s);
     nextTimer := nextTimer s |}.

Definition clearCallTimeout (callId : string) (s : State) : State :=
  match callTimeouts s !! callId with
  | Some timeout => with_callTimeouts (delete callId) (clearTimeout timeout s)
  | None => s
  end.

Inductive message : Type :=
| call_failed (callId reason : string)
| incoming_call (callId : string) (callType : CallType) (callerId callerName : string)
    (callerImage : option string) (timestamp : Z)
| call_initiated (callId recipientId status : string)
| call_error (callId error : string)
| call_accepted (callId acceptorId : string)
| call_rejected (callId reason rejectedBy : string)
| call_ended (callId endedBy : string) (reason : option string) (duration : Z)
| call_timeout (callId : string) (reason : option string)
| webrtc_error (callId error : string)
| webrtc_offer (callId offer senderId : string)
| webrtc_answer (callId answer senderId : string)
| webrtc_ice_candidate (callId candidate senderId : string).

Definition result : Type := State * list (effect message).

Definition is_party (userId : string) (callData : CallData.t) : bool :=
  bool_decide (CallData.callerId callData = userId)
  || bool_decide (CallData.recipientId callData = userId).

Definition otherUserId (userId : string) (callData : CallData.t) : string :=
  if bool_decide (CallData.callerId callData = userId)
  then CallData.recipientId callData
  else CallData.callerId callData.

Definition handleCallInitiate (now : Z) (userId socketId : string)
    (callId recipientId : string) (callType : CallType)
    (callerId callerName : string) (callerImage : option string)
    (s : State) : result :=
  if bool_decide (callerId ≠ userId) then
    (s, [ emit (to_socket socketId) (call_failed callId "Authentication error") ])
  else
    match List.find
            (λ call, bool_decide (CallData.recipientId call = recipientId)
                     && bool_decide (CallData.status call = ringing))
            (JSMap.values (activeCalls s)) with
    | Some existingCall =>
        (s, [ emit (to_socket socketId)
                (call_failed callId "Recipient is already in a call") ])
    | None =>
        let callData :=
          CallData.mk callId callType callerId callerName callerImage
            recipientId now ringing in
        let s1 := with_activeCalls (JSMap.set callId callData) s in
        let '(timeout, s2) := setTimeout now CALL_TIMEOUT_MS callId s1 in
        let s3 := with_callTimeouts (insert callId timeout) s2 in
        (s3,
         [ emit (to_room recipientId)
             (incoming_call callId callType callerId callerName callerImage
                (CallData.timestamp callData));
           emit (to_socket socketId) (call_initiated callId recipientId "ringing") ])
    end.

Definition handleCallAccept (userId socketId : string) (callId callerId : string)
    (s : State) : result :=
  match JSMap.get callId (activeCalls s) with
  | None => (s, [ emit (to_socket socketId) (call_error callId "Call not found") ])
  | Some callData =>
      if bool_decide (CallData.recipientId callData ≠ userId) then
        (s, [ emit (to_socket socketId)
                (call_error callId "Not authorized to accept this call") ])
      else
        let s1 := with_activeCalls (JSMap.set callId (set_status accepted callData)) s in
        (clearCallTimeout callId s1,
         [ emit (to_room callerId) (call_accepted callId userId) ])
  end.

Definition handleCallReject (userId : string) (callId callerId : string)
    (reason : option string) (s : State) : result :=
  (clearCallTimeout callId (with_activeCalls (JSMap.delete callId) s),
   [ emit (to_room callerId)
       (call_rejected callId (or_default reason "Call rejected") userId) ]).

Definition handleCallEnd (now : Z) (userId : string) (callId recipientId : string)
    (s : State) : result :=
  let callData := JSMap.get callId (activeCalls s) in
  let duration :=
    match callData with
    | Some c => getCallDuration now (CallData.timestamp c)
    | None => 0
    end in
  (clearCallTimeout callId (with_activeCalls (JSMap.delete callId) s),
   [ emit (to_room recipientId) (call_ended callId userId None duration) ]).

Definition handleWebRTCOffer (userId socketId : string) (callId recipientId offer : string)
    (s : State) : result :=
  if negb (JSMap.has callId (activeCalls s)) then
    (s, [ emit (to_socket socketId) (webrtc_error callId "Call not found") ])
  else (s, [ emit (to_room recipientId) (webrtc_offer callId offer userId) ]).

Definition handleWebRTCAnswer (userId socketId : string) (callId recipientId answer : string)
    (s : State) : result :=
  if negb (JSMap.has callId (activeCalls s)) then
    (s, [ emit (to_socket socketId) (webrtc_error callId "Call not found") ])
  else (s, [ emit (to_room recipientId) (webrtc_answer callId answer userId) ]).

Definition handleWebRTCIceCandidate (userId : string) (callId recipientId candidate : string)
    (s : State) : result :=
  if negb (JSMap.has callId (activeCalls s)) then (s, [])
  else (s, [ emit (to_room recipientId) (webrtc_ice_candidate callId candidate userId) ]).

Definition handleCallTimeout (callId recipientId : string) (s : State) : result :=
  (clearCallTimeout callId (with_activeCalls (JSMap.delete callId) s),
   [ emit (to_room recipientId) (call_timeout callId None) ]).

Definition handleCallTimeoutAutomatically (callId : string) (s : State) : result :=
  match JSMap.get callId (activeCalls s) with
  | Some callData =>
      if bool_decide (CallData.status callData = ringing) then
        (with_callTimeouts (delete callId) (with_activeCalls (JSMap.delete callId) s),
         [ emit (to_room (CallData.callerId callData))
             (call_timeout callId (Some "No answer from recipient"));
           emit (to_room (CallData.recipientId callData))
             (call_timeout callId (Some "Call timed out")) ])
      else (s, [])
  | None => (s, [])
  end.

Fixpoint end_calls_of (now : Z) (userId : string) (entries : list (string * CallData.t))
    (s : State) : result :=
  match entries with
  | [] => (s, [])
  | (callId, callData) :: rest =>
      if is_party userId callData then
        let r :=
          end_calls_of now userId rest
            (clearCallTimeout callId (with_activeCalls (JSMap.delete callId) s)) in
        (r.1,
         emit (to_room (otherUserId userId callData))
           (call_ended callId userId (Some "User disconnected")
              (getCallDuration now (CallData.timestamp callData))) :: r.2)
      else end_calls_of now userId rest s
  end.

Definition handleUserDisconnect (now : Z) (userId : string) (s : State) : result :=
  end_calls_of now userId (activeCalls s) s.

Definition on_timer (now : Z) (h : nat) (s : State) : result :=
  match timers s !! h with
  | Some t =>
      if bool_decide (Timer.due t ≤ now)%Z
      then handleCallTimeoutAutomatically (Timer.callId t) (clearTimeout h s)
      else (s, [])
  | None => (s, [])
  end.

(** Handlers registered by [initializeCallHandlers]. *)
Module Event.
Inductive t : Type :=
| call_initiate (callId recipientId : string) (callType : CallType)
    (callerId callerName : string) (callerImage : option string)
| call_accept (callId callerId : string)
| call_reject (callId callerId : string) (reason : option string)
| call_end (callId recipientId : string)
| webrtc_offer (callId recipientId offer : string)
| webrtc_answer (callId recipientId answer : string)
| webrtc_ice_candidate (callId recipientId candidate : string)
| call_timeout (callId recipientId : string)
| disconnect.
End Event.

Inductive arrival : Type :=
| from_socket (now : Z) (userId socketId : string) (event : Event.t)
| timer_fired (now : Z) (h : nat).

Definition handle (a : arrival) (s : State) : result :=
  match a with
  | timer_fired now h => on_timer now h s
  | from_socket now userId socketId e =>
      match e with
      | Event.call_initiate c r t cr n i =>
          handleCallInitiate now userId socketId c r t cr n i s
      | Event.call_accept c cr => handleCallAccept userId socketId c cr s
      | Event.call_reject c cr rs => handleCallReject userId c cr rs s
      | Event.call_end c r => handleCallEnd now userId c r s
      | Event.webrtc_offer c r o => handleWebRTCOffer userId socketId c r o s
      | Event.webrtc_answer c r a => handleWebRTCAnswer userId socketId c r a s
      | Event.webrtc_ice_candidate c r x => handleWebRTCIceCandidate userId c r x s
      | Event.call_timeout c r => handleCallTimeout c r s
      | Event.disconnect => handleUserDisconnect now userId s
      end
  end.

Fixpoint run (evs : list arrival) (s : State) : result :=
  match evs with
  | [] => (s, [])
  | a :: rest =>
      let r1 := handle a s in
      let r2 := run rest r1.1 in
      (r2.1, r1.2 ++ r2.2)
  end.

Definition reachable (s : State) : Prop :=
  ∃ evs, (run evs initial).1 = s.

End CallHandler.

(** * Vocabulary of the properties

    The predicates, traces and counters the statements below are written
    with. *)

(** The claim as the specification words it: a disconnect arriving on the
    connection with handle [h] removes the registration of its user only if
    the stored handle is [h]. *)
Definition unregister_guarded_by_handle : Prop :=
  ∀ (s : SocketChat.SocketManager) (now : Z) (u h : string) (stored : UserSocket.t),
    SocketChat.reachable s →
    SocketChat.connectedUsers s !! u = Some stored →
    SocketChat.connectedUsers
      (SocketChat.handle (SocketChat.mkArrival now u h SocketChat.Event.disconnect) s).1
      !! u = None →
    UserSocket.socketId stored = h.

(** u1 connects on socket-old, then again on socket-new. *)
Definition reconnect_trace : list SocketChat.arrival :=
  [ SocketChat.mkArrival 0 "u1" "socket-old" SocketChat.Event.connection;
    SocketChat.mkArrival 5 "u1" "socket-new" SocketChat.Event.connection ].

(** The claim as the specification words it: with the callee offline the
    caller is told so and a Call record is created all the same. *)
Definition offline_callee_still_gets_record : Prop :=
  ∀ (s : SocketChat.SocketManager) now u sid c r t n i,
    SocketChat.connectedUsers s !! r = None →
    is_Some (JSMap.get c
               (SocketChat.activeCalls
                  (SocketChat.on_call_initiate now u sid c r t u n i s).1)).

(** The three ways [call:initiate] of [socket.chat.ts] fails. *)
Definition sm_initiate_fails (s : SocketChat.SocketManager)
    (userId callerId recipientId : string) : Prop :=
  callerId ≠ userId
  ∨ SocketChat.connectedUsers s !! recipientId = None
  ∨ ∃ c d, JSMap.get c (SocketChat.activeCalls s) = Some d
           ∧ SocketChat.CallData.recipientId d = recipientId.

(** The same three ways in the version with [callTimeouts]. *)
Definition smt_initiate_fails (s : SocketChatTimed.SocketManager)
    (userId callerId recipientId : string) : Prop :=
  callerId ≠ userId
  ∨ SocketChatTimed.connectedUsers s !! recipientId = None
  ∨ ∃ c d, JSMap.get c (SocketChatTimed.activeCalls s) = Some d
           ∧ SocketChatTimed.CallData.recipientId d = recipientId.

(** [CallHandler] keeps no presence map, and its busy check only counts
    ringing calls. *)
Definition ch_initiate_fails (s : CallHandler.State)
    (userId callerId recipientId : string) : Prop :=
  callerId ≠ userId
  ∨ ∃ c d, JSMap.get c (CallHandler.activeCalls s) = Some d
           ∧ CallHandler.CallData.recipientId d = recipientId
           ∧ CallHandler.CallData.status d = CallHandler.ringing.

(** u1 and u2 are connected and u1 rings u2 with call c1. *)
Definition sm_ringing : SocketChat.SocketManager :=
  (SocketChat.run
     [ SocketChat.mkArrival 0 "u1" "s1" SocketChat.Event.connection;
       SocketChat.mkArrival 1 "u2" "s2" SocketChat.Event.connection;
       SocketChat.mkArrival 2 "u3" "s3" SocketChat.Event.connection;
       SocketChat.mkArrival 3 "u1" "s1"
         (SocketChat.Event.call_initiate "c1" "u2" video "u1" "Ann" None) ]
     SocketChat.initial).1.

(** Every record of [m'] is a record of [m], under the same id. *)
Definition sm_calls_within (m' m : JSMap.t SocketChat.CallData.t) : Prop :=
  ∀ k d, JSMap.get k m' = Some d → JSMap.get k m = Some d.

(** At most one stored call per callee. *)
Definition sm_callee_unique (s : SocketChat.SocketManager) : Prop :=
  ∀ c1 d1 c2 d2,
    JSMap.get c1 (SocketChat.activeCalls s) = Some d1 →
    JSMap.get c2 (SocketChat.activeCalls s) = Some d2 →
    SocketChat.CallData.recipientId d1 = SocketChat.CallData.recipientId d2 →
    c1 = c2.

(** The call map holds one record per id, as an ECMAScript [Map] does. *)
Definition sm_keys_nodup (s : SocketChat.SocketManager) : Prop :=
  NoDup (JSMap.keys (SocketChat.activeCalls s)).

(** A user's list of joined conversations has no duplicates: [push] is
    guarded by [includes]. *)
Definition sm_conversations_nodup (s : SocketChat.SocketManager) : Prop :=
  ∀ u us, SocketChat.connectedUsers s !! u = Some us →
          NoDup (UserSocket.activeConversations us).

(** Conversations a registered user has joined. *)
Definition sm_joined (s : SocketChat.SocketManager) (userId : string) : list string :=
  match SocketChat.connectedUsers s !! userId with
  | Some userSocket => UserSocket.activeConversations userSocket
  | None => []
  end.

(** A [user_left_conversation] about [userId], for conversation [room],
    sent to [room]. *)
Definition is_left_notification (userId room : string)
    (e : effect SocketChat.message) : bool :=
  match e with
  | emit (to_room r) (SocketChat.user_left_conversation u c _) =>
      bool_decide (r = room) && bool_decide (u = userId) && bool_decide (c = room)
  | _ => false
  end.

(** Number of [user_left_conversation] notifications about [userId] sent to
    [room]. *)
Definition left_notifications (userId room : string)
    (effs : list (effect SocketChat.message)) : nat :=
  length (filter (λ e, is_left_notification userId room e) effs).

(** u1 and u2 are connected, u2 has joined two conversations, and u1 rings
    u2 with call c1. *)
Definition sm_in_rooms : SocketChat.SocketManager :=
  (SocketChat.run
     [ SocketChat.mkArrival 0 "u1" "s1" SocketChat.Event.connection;
       SocketChat.mkArrival 1 "u2" "s2" SocketChat.Event.connection;
       SocketChat.mkArrival 2 "u2" "s2" (SocketChat.Event.join_conversation "u1");
       SocketChat.mkArrival 3 "u2" "s2" (SocketChat.Event.join_conversation "u3");
       SocketChat.mkArrival 4 "u2" "s2" (SocketChat.Event.join_conversation "u1");
       SocketChat.mkArrival 5 "u1" "s1"
         (SocketChat.Event.call_initiate "c1" "u2" video "u1" "Ann" None) ]
     SocketChat.initial).1.

(** A record of [CallHandler] that is ringing or accepted. *)
Definition ch_live (d : CallHandler.CallData.t) : Prop :=
  CallHandler.CallData.status d = CallHandler.ringing
  ∨ CallHandler.CallData.status d = CallHandler.accepted.

(** The invariant on [CallHandler], whose records carry a status: no two
    stored calls that are ringing or accepted have the same callee. *)
Definition ch_callee_unique (s : CallHandler.State) : Prop :=
  ∀ c1 d1 c2 d2,
    JSMap.get c1 (CallHandler.activeCalls s) = Some d1 →
    JSMap.get c2 (CallHandler.activeCalls s) = Some d2 →
    CallHandler.CallData.recipientId d1 = CallHandler.CallData.recipientId d2 →
    ch_live d1 → ch_live d2 →
    c1 = c2.

(** u1 rings u2 (call c1), u2 accepts, then u3 rings u2 (call c2). *)
Definition ch_second_call_trace : list CallHandler.arrival :=
  [ CallHandler.from_socket 0 "u1" "s1"
      (CallHandler.Event.call_initiate "c1" "u2" video "u1" "Ann" None);
    CallHandler.from_socket 1000 "u2" "s2" (CallHandler.Event.call_accept "c1" "u1");
    CallHandler.from_socket 2000 "u3" "s3"
      (CallHandler.Event.call_initiate "c2" "u2" audio "u3" "Cy" None) ].

(** The state after the first two arrivals: c1 is accepted. *)
Definition ch_in_call : CallHandler.State :=
  (CallHandler.run (take 2 ch_second_call_trace) CallHandler.initial).1.

(** Arrivals that leave a record stored under [callId] in place: anything
    but a reject, end or client-sent timeout naming it, or a disconnect. *)
Definition sm_keeps (callId : string) (a : SocketChat.arrival) : bool :=
  match SocketChat.event a with
  | SocketChat.Event.call_reject c _ _
  | SocketChat.Event.call_end c _
  | SocketChat.Event.call_timeout c _ => bool_decide (c ≠ callId)
  | SocketChat.Event.disconnect => false
  | _ => true
  end.

(** Registered timer handles were all handed out already. *)
Definition smt_handles_fresh (s : SocketChatTimed.SocketManager) : Prop :=
  ∀ k h, SocketChatTimed.callTimeouts s !! k = Some h →
         (h < SocketChatTimed.nextTimer s)%nat.

(** While [callId] is stored, a timer whose callback names it is pending
    and due by [deadline]; its handle is registered for no other call. *)
Definition smt_timer_pending (callId : string) (deadline : Z)
    (s : SocketChatTimed.SocketManager) : Prop :=
  JSMap.has callId (SocketChatTimed.activeCalls s) = true →
  ∃ h t, SocketChatTimed.timers s !! h = Some t
         ∧ Timer.callId t = callId
         ∧ (Timer.due t ≤ deadline)%Z
         ∧ (h < SocketChatTimed.nextTimer s)%nat
         ∧ ∀ k, SocketChatTimed.callTimeouts s !! k = Some h → k = callId.

(** No pending timer is overdue at clock reading [now]: the runtime has run
    every timer that was due before. *)
Definition smt_punctual (s : SocketChatTimed.SocketManager) (now : Z) : Prop :=
  ∀ h t, SocketChatTimed.timers s !! h = Some t → (now ≤ Timer.due t)%Z.

(** Arrivals under which an unanswered call [callId] stays unanswered and
    its id is not reused: no accept and no further initiate naming it. *)
Definition smt_unanswered (callId : string) (a : SocketChatTimed.arrival) : bool :=
  match a with
  | SocketChatTimed.from_socket _ _ _ (SocketChatTimed.Event.call_accept c _)
  | SocketChatTimed.from_socket _ _ _ (SocketChatTimed.Event.call_initiate c _ _ _ _ _ _) =>
      bool_decide (c ≠ callId)
  | _ => true
  end.

(** [s] contains the character [c]. *)
Fixpoint has_char (c : Ascii.ascii) (s : string) : bool :=
  match s with
  | EmptyString => false
  | String x r => bool_decide (x = c) || has_char c r
  end.

(** An id without the separator that [createConversationId] joins with. *)
Definition no_underscore (s : string) : Prop := has_char "_"%char s = false.

(** A stored room sits under its own name and its participants are the two
    user ids the name was computed from. *)
Definition sm_rooms_wf (s : SocketChat.SocketManager) : Prop :=
  ∀ cid conv,
    SocketChat.activeConversations s !! cid = Some conv →
    ActiveConversation.roomId conv = cid
    ∧ ∃ a b, ActiveConversation.participants conv = [a; b]
             ∧ createConversationId a b = cid.

(** The callee of every stored call is registered. *)
Definition sm_callee_registered (s : SocketChat.SocketManager) : Prop :=
  ∀ c d, JSMap.get c (SocketChat.activeCalls s) = Some d →
         is_Some (SocketChat.connectedUsers s !! SocketChat.CallData.recipientId d).

(** Every record is stored under the id it carries. *)
Definition sm_own_id (s : SocketChat.SocketManager) : Prop :=
  ∀ c d, JSMap.get c (SocketChat.activeCalls s) = Some d →
         SocketChat.CallData.callId d = c.

(** Clock readings between which [getCallDuration] is exact.  The time value
    of an ECMAScript [Date] is an integer of magnitude at most 8.64e15, which
    a double holds exactly; the difference of two of them is exact while its
    magnitude is at most 2^53, and the quotient of such a difference by 1000,
    rounded to a double, has the floor of the exact quotient. *)
Definition exact_span (t0 t1 : Z) : Prop :=
  (Z.abs t0 ≤ 8640000000000000 ∧ Z.abs t1 ≤ 8640000000000000
   ∧ Z.abs (t1 - t0) ≤ 2 ^ 53)%Z.

(** Every registered timeout belongs to a stored call, and its handle is a
    pending timer whose callback names that call. *)
Definition smt_registry_wf (s : SocketChatTimed.SocketManager) : Prop :=
  ∀ c h, SocketChatTimed.callTimeouts s !! c = Some h →
         JSMap.has c (SocketChatTimed.activeCalls s) = true
         ∧ ∃ t, SocketChatTimed.timers s !! h = Some t ∧ Timer.callId t = c.

(** In the version with [callTimeouts]: u1 and u2 are connected and u1
    rings u2 with call c1 at clock reading 2. *)
Definition smt_both_online : SocketChatTimed.SocketManager :=
  (SocketChatTimed.run
     [ SocketChatTimed.from_socket 0 "u1" "s1" SocketChatTimed.Event.connection;
       SocketChatTimed.from_socket 1 "u2" "s2" SocketChatTimed.Event.connection ]
     SocketChatTimed.initial).1.

Definition smt_ringing : SocketChatTimed.SocketManager :=
  (SocketChatTimed.on_call_initiate 2 "u1" "s1" "c1" "u2" video "u1" "Ann" None "Bob"
     smt_both_online).1.

(** No two stored calls of [CallHandler] that are ringing have the same
    callee. *)
Definition ch_ringing_unique (s : CallHandler.State) : Prop :=
  ∀ c1 d1 c2 d2,
    JSMap.get c1 (CallHandler.activeCalls s) = Some d1 →
    JSMap.get c2 (CallHandler.activeCalls s) = Some d2 →
    CallHandler.CallData.recipientId d1 = CallHandler.CallData.recipientId d2 →
    CallHandler.CallData.status d1 = CallHandler.ringing →
    CallHandler.CallData.status d2 = CallHandler.ringing →
    c1 = c2.

(** Every stored record of [CallHandler] is ringing or accepted and sits
    under the id it carries. *)
Definition ch_records_wf (s : CallHandler.State) : Prop :=
  ∀ c d, JSMap.get c (CallHandler.activeCalls s) = Some d →
         ch_live d ∧ CallHandler.CallData.callId d = c.

(** The state of [CallHandler] after [ch_second_call_trace]: c1 is accepted
    and c2 is ringing. *)
Definition ch_two_calls : CallHandler.State :=
  (CallHandler.run ch_second_call_trace CallHandler.initial).1.

(** In the version with [callTimeouts]: u1, u2 and u3 are connected and u1
    rings u2 with call c1 at clock reading 3. *)
Definition smt_three_online : SocketChatTimed.SocketManager :=
  (SocketChatTimed.run
     [ SocketChatTimed.from_socket 0 "u1" "s1" SocketChatTimed.Event.connection;
       SocketChatTimed.from_socket 1 "u2" "s2" SocketChatTimed.Event.connection;
       SocketChatTimed.from_socket 2 "u3" "s3" SocketChatTimed.Event.connection;
       SocketChatTimed.from_socket 3 "u1" "s1"
         (SocketChatTimed.Event.call_initiate "c1" "u2" video "u1" "Ann" None "Bob") ]
     SocketChatTimed.initial).1.

(** Registered timer handles of [CallHandler] were all handed out already. *)
Definition ch_handles_fresh (s : CallHandler.State) : Prop :=
  ∀ k h, CallHandler.callTimeouts s !! k = Some h → (h < CallHandler.nextTimer s)%nat.

(** While [callId] is stored in [CallHandler], its record is ringing and a
    timer whose callback names it is pending and due by [deadline]; the
    handle of that timer is registered for no other call. *)
Definition ch_timer_pending (callId : string) (deadline : Z) (s : CallHandler.State) : Prop :=
  ∀ d, JSMap.get callId (CallHandler.activeCalls s) = Some d →
       CallHandler.CallData.status d = CallHandler.ringing
       ∧ ∃ h t, CallHandler.timers s !! h = Some t
                ∧ Timer.callId t = callId
                ∧ (Timer.due t ≤ deadline)%Z
                ∧ (h < CallHandler.nextTimer s)%nat
                ∧ ∀ k, CallHandler.callTimeouts s !! k = Some h → k = callId.

(** No pending timer of [CallHandler] is overdue at clock reading [now]. *)
Definition ch_punctual (s : CallHandler.State) (now : Z) : Prop :=
  ∀ h t, CallHandler.timers s !! h = Some t → (now ≤ Timer.due t)%Z.

(** Arrivals of [CallHandler] under which an unanswered call [callId] stays
    unanswered and its id is not reused. *)
Definition ch_unanswered (callId : string) (a : CallHandler.arrival) : bool :=
  match a with
  | CallHandler.from_socket _ _ _ (CallHandler.Event.call_accept c _)
  | CallHandler.from_socket _ _ _ (CallHandler.Event.call_initiate c _ _ _ _ _) =>
      bool_decide (c ≠ callId)
  | _ => true
  end.

(** The arrivals of [call:reject] and [call:end] from one socket. *)
Definition reject_arrival (now : Z) (userId socketId callId peer : string)
    (reason : option string) : SocketChat.arrival :=
  SocketChat.mkArrival now userId socketId (SocketChat.Event.call_reject callId peer reason).

Definition end_arrival (now : Z) (userId socketId callId peer : string) :
    SocketChat.arrival :=
  SocketChat.mkArrival now userId socketId (SocketChat.Event.call_end callId peer).

(** The claim as the specification words it: a reject or an end that names
    a call id under which nothing is stored is a no-op, the state is left as
    it was and nothing is done. *)
Definition unknown_call_action_is_noop : Prop :=
  ∀ (s : SocketChat.SocketManager) now userId socketId callId peer reason,
    JSMap.get callId (SocketChat.activeCalls s) = None →
    SocketChat.handle (reject_arrival now userId socketId callId peer reason) s = (s, [])
    ∧ SocketChat.handle (end_arrival now userId socketId callId peer) s = (s, []).

(** The claim as the specification words it: repeating such a reject or end
    has the same effect as performing it once. *)
Definition unknown_call_action_is_idempotent : Prop :=
  ∀ (s : SocketChat.SocketManager) now userId socketId callId peer reason,
    JSMap.get callId (SocketChat.activeCalls s) = None →
    let rej := reject_arrival now userId socketId callId peer reason in
    let fin := end_arrival now userId socketId callId peer in
    SocketChat.run [rej; rej] s = SocketChat.run [rej] s
    ∧ SocketChat.run [fin; fin] s = SocketChat.run [fin] s.

(** What the specification calls the rooms a user had joined: the
    conversations the sockets of [userId] were put in by [join_conversation]
    and not taken out of by [leave_conversation] since.  A disconnect of the
    user ends them; a further connection does not. *)
Definition joined_step (userId : string) (rooms : list string)
    (a : SocketChat.arrival) : list string :=
  if bool_decide (SocketChat.userId a = userId) then
    match SocketChat.event a with
    | SocketChat.Event.join_conversation o =>
        let c := createConversationId userId o in
        if bool_decide (c ∈ rooms) then rooms else rooms ++ [c]
    | SocketChat.Event.leave_conversation o =>
        filter (λ id, id ≠ createConversationId userId o) rooms
    | SocketChat.Event.disconnect => []
    | _ => rooms
    end
  else rooms.

Definition rooms_joined (userId : string) (evs : list SocketChat.arrival) : list string :=
  foldl (joined_step userId) [] evs.

(** The claim as the specification words it: a disconnect of a user sends
    exactly one left-notification to every room the user had joined. *)
Definition left_once_per_joined_room : Prop :=
  ∀ (evs : list SocketChat.arrival) (userId room : string),
    room ∈ rooms_joined userId evs →
    left_notifications userId room
      (SocketChat.on_disconnect userId (SocketChat.run evs SocketChat.initial).1).2
    = 1%nat.

(** A disconnect of [userId] is among the arrivals [evs]. *)
Definition disconnected_before (userId : string) (evs : list SocketChat.arrival) : Prop :=
  ∃ a, a ∈ evs ∧ SocketChat.userId a = userId
       ∧ SocketChat.event a = SocketChat.Event.disconnect.

(** The claim as the specification words it: a second disconnect for a
    user who is already removed changes no state and sends no room
    notification. *)
Definition removed_user_disconnect_is_noop : Prop :=
  ∀ (evs : list SocketChat.arrival) (userId : string),
    let s := (SocketChat.run evs SocketChat.initial).1 in
    disconnected_before userId evs →
    SocketChat.connectedUsers s !! userId = None →
    (SocketChat.on_disconnect userId s).1 = s
    ∧ ∀ room, left_notifications userId room (SocketChat.on_disconnect userId s).2
              = 0%nat.

(** u1 connects on s1, joins the conversation with u2, and connects again
    on s1b while s1 is still open. *)
Definition rejoin_trace : list SocketChat.arrival :=
  [ SocketChat.mkArrival 0 "u1" "s1" SocketChat.Event.connection;
    SocketChat.mkArrival 1 "u1" "s1" (SocketChat.Event.join_conversation "u2");
    SocketChat.mkArrival 2 "u1" "s1b" SocketChat.Event.connection ].

(** u1 is connected on s1 and s1b and u2 on s2; s1 disconnects, which
    removes u1, and then u1 rings u2 from s1b. *)
Definition stale_call_trace : list SocketChat.arrival :=
  [ SocketChat.mkArrival 0 "u1" "s1" SocketChat.Event.connection;
    SocketChat.mkArrival 1 "u2" "s2" SocketChat.Event.connection;
    SocketChat.mkArrival 2 "u1" "s1b" SocketChat.Event.connection;
    SocketChat.mkArrival 3 "u1" "s1" SocketChat.Event.disconnect;
    SocketChat.mkArrival 4 "u1" "s1b"
      (SocketChat.Event.call_initiate "c1" "u2" video "u1" "Ann" None) ].

(** The conversation list of the registration of [userId], followed along
    the arrivals: a connection of the user starts an empty list, a
    disconnect of the user ends the registration, and in between a join adds
    the conversation at the end unless it is listed and a leave removes it.
    Without a registration joins and leaves record nothing. *)
Definition registration_step (userId : string) (reg : option (list string))
    (a : SocketChat.arrival) : option (list string) :=
  if bool_decide (SocketChat.userId a = userId) then
    match SocketChat.event a with
    | SocketChat.Event.connection => Some []
    | SocketChat.Event.join_conversation o =>
        let c := createConversationId userId o in
        (λ rooms, if bool_decide (c ∈ rooms) then rooms else rooms ++ [c]) <$> reg
    | SocketChat.Event.leave_conversation o =>
        filter (λ id, id ≠ createConversationId userId o) <$> reg
    | SocketChat.Event.disconnect => None
    | _ => reg
    end
  else reg.

(** The rooms [userId] joined since the latest connection of that user and
    has not left since; none when the user is not registered. *)
Definition rooms_since_connection (userId : string) (evs : list SocketChat.arrival) :
    list string :=
  default [] (foldl (registration_step userId) None evs).

(** * Facts about [JSMap] *)
Section JSMap_facts.
Context {V : Type}.
Implicit Types (k : string) (v : V) (m : JSMap.t V).

Lemma jsmap_get_set_eq k v m : JSMap.get k (JSMap.set k v m) = Some v.
Proof.
  induction m as [|[k' v'] r IH]; simpl.
  - by rewrite decide_True.
  - destruct (decide (k' = k)) as [->|Hne]; simpl.
    + by rewrite decide_True.
    + by rewrite decide_False.
Qed.

Lemma jsmap_get_set_ne k k' v m :
  k ≠ k' → JSMap.get k' (JSMap.set k v m) = JSMap.get k' m.
Proof.
  intros Hne. induction m as [|[k0 v0] r IH]; simpl.
  - by rewrite decide_False.
  - destruct (decide (k0 = k)) as [->|Hk0]; simpl.
    + by rewrite !decide_False.
    + destruct (decide (k0 = k')); [done | apply IH].
Qed.

Lemma jsmap_get_Some_elem k v m : JSMap.get k m = Some v → (k, v) ∈ m.
Proof.
  induction m as [|[k' v'] r IH]; simpl; [done|].
  destruct (decide (k' = k)) as [->|Hne].
  - intros [= ->]. left.
  - intros H. right. by apply IH.
Qed.

Lemma jsmap_get_None_keys k m : JSMap.get k m = None ↔ k ∉ JSMap.keys m.
Proof.
  unfold JSMap.keys. induction m as [|[k' v'] r IH]; simpl.
  - split; [intros _; apply not_elem_of_nil | done].
  - rewrite not_elem_of_cons. destruct (decide (k' = k)) as [->|Hne].
    + split; [done | by intros [? _]].
    + rewrite IH. split; [by intros ? | by intros [_ ?]].
Qed.

Lemma jsmap_elem_keys k v m : (k, v) ∈ m → k ∈ JSMap.keys m.
Proof. intros H. unfold JSMap.keys. apply list_elem_of_fmap. by exists (k, v). Qed.

Lemma jsmap_elem_values k v m : (k, v) ∈ m → v ∈ JSMap.values m.
Proof. intros H. unfold JSMap.values. apply list_elem_of_fmap. by exists (k, v). Qed.

Lemma jsmap_elem_delete k k' v m :
  (k', v) ∈ JSMap.delete k m ↔ k' ≠ k ∧ (k', v) ∈ m.
Proof. unfold JSMap.delete. by rewrite list_elem_of_filter. Qed.

Lemma jsmap_get_delete_eq k m : JSMap.get k (JSMap.delete k m) = None.
Proof.
  apply jsmap_get_None_keys. unfold JSMap.keys. intros Hin.
  apply list_elem_of_fmap in Hin as [[k' v] [Hk Hin]]. simpl in Hk. subst k'.
  apply jsmap_elem_delete in Hin as [? _]. done.
Qed.

Lemma jsmap_get_delete_ne k k' m :
  k ≠ k' → JSMap.get k' (JSMap.delete k m) = JSMap.get k' m.
Proof.
  intros Hne. unfold JSMap.delete. induction m as [|[k0 v0] r IH]; [done|].
  rewrite filter_cons. simpl. destruct (decide (k0 ≠ k)) as [Hk0|Hk0]; simpl.
  - by rewrite IH.
  - apply dec_stable in Hk0. subst k0. by rewrite decide_False.
Qed.

Lemma jsmap_delete_absent k m : JSMap.get k m = None → JSMap.delete k m = m.
Proof.
  intros H. unfold JSMap.delete. induction m as [|[k0 v0] r IH]; [done|].
  simpl in H. destruct (decide (k0 = k)); [done|].
  rewrite filter_cons_True by done. by rewrite IH.
Qed.

Lemma jsmap_delete_delete k m :
  JSMap.delete k (JSMap.delete k m) = JSMap.delete k m.
Proof. apply jsmap_delete_absent, jsmap_get_delete_eq. Qed.

Lemma jsmap_has_get k m : JSMap.has k m = true ↔ is_Some (JSMap.get k m).
Proof.
  unfold JSMap.has. destruct (JSMap.get k m); split; done || by intros [? ?].
Qed.

Lemma jsmap_has_false k m : JSMap.has k m = false ↔ JSMap.get k m = None.
Proof. unfold JSMap.has. by destruct (JSMap.get k m). Qed.

Lemma jsmap_keys_filter_nodup (P : string * V → Prop) `{!∀ x, Decision (P x)} m :
  NoDup (JSMap.keys m) → NoDup (JSMap.keys (filter P m)).
Proof.
  unfold JSMap.keys. induction m as [|[k0 v0] r IH]; [done|].
  rewrite fmap_cons, NoDup_cons. simpl. intros [Hk0 Hr].
  rewrite filter_cons. case_decide; [|by apply IH].
  rewrite fmap_cons, NoDup_cons. simpl. split; [|by apply IH].
  intros Hin. apply Hk0. apply list_elem_of_fmap in Hin as [[k v] [-> Hin]].
  apply list_elem_of_filter in Hin as [_ Hin]. simpl.
  apply list_elem_of_fmap. by exists (k, v).
Qed.

Lemma jsmap_keys_set k v m k' :
  k' ∈ JSMap.keys (JSMap.set k v m) → k' = k ∨ k' ∈ JSMap.keys m.
Proof.
  unfold JSMap.keys. induction m as [|[k0 v0] r IH]; simpl.
  - intros ->%list_elem_of_singleton. by left.
  - destruct (decide (k0 = k)) as [->|Hne]; simpl; rewrite !elem_of_cons.
    + intros [->|?]; [by left | right; by right].
    + intros [->|Hin]; [right; by left|].
      destruct (IH Hin) as [->|?]; [by left | right; by right].
Qed.

Lemma jsmap_keys_set_nodup k v m :
  NoDup (JSMap.keys m) → NoDup (JSMap.keys (JSMap.set k v m)).
Proof.
  induction m as [|[k0 v0] r IH].
  - intros _. apply NoDup_singleton.
  - unfold JSMap.keys in *. rewrite fmap_cons, NoDup_cons. simpl. intros [Hk0 Hr].
    destruct (decide (k0 = k)) as [->|Hne]; rewrite fmap_cons, NoDup_cons; simpl.
    + done.
    + split; [|by apply IH]. intros Hin.
      destruct (jsmap_keys_set k v r k0 Hin) as [->|?]; done.
Qed.

Lemma jsmap_get_elem_nodup k v m :
  NoDup (JSMap.keys m) → (k, v) ∈ m → JSMap.get k m = Some v.
Proof.
  unfold JSMap.keys. induction m as [|[k0 v0] r IH]; simpl.
  - intros _ Hin. by apply elem_of_nil in Hin.
  - rewrite NoDup_cons. simpl. intros [Hk0 Hr]. rewrite elem_of_cons.
    intros [[= -> ->]|Hin].
    + by rewrite decide_True.
    + rewrite decide_False; [by apply IH|].
      intros ->. apply Hk0. apply list_elem_of_fmap. by exists (k, v).
Qed.

End JSMap_facts.

(** * Searching the call map by callee *)

Lemma find_is_Some {A : Type} (f : A → bool) (l : list A) (x : A) :
  x ∈ l → f x = true → is_Some (List.find f l).
Proof.
  induction l as [|y l IH]; intros Hin Hfx.
  - by apply elem_of_nil in Hin.
  - simpl. destruct (f y) eqn:Hfy; [by eexists|].
    apply elem_of_cons in Hin as [->|Hin]; [congruence | by apply IH].
Qed.

Lemma find_None_elem {A : Type} (f : A → bool) (l : list A) (x : A) :
  List.find f l = None → x ∈ l → f x = false.
Proof.
  intros Hfind Hin. apply (find_none f l Hfind). by apply list_elem_of_In.
Qed.

(** * Presence: what a disconnect does to the registration (claim C2) *)

(** C2, counterexample: user u1 connects on socket-old, reconnects on
    socket-new (which overwrites the registration), then the disconnect of
    socket-old arrives: the registration made by socket-new is removed. *)
Lemma stale_disconnect_evicts_fresh_registration : ¬ unregister_guarded_by_handle.
Proof.
  intros H.
  specialize (H (SocketChat.run reconnect_trace SocketChat.initial).1 9
                "u1" "socket-old" (UserSocket.mk "u1" "socket-new" [])).
  assert (Hneq : "socket-new" ≠ "socket-old") by discriminate.
  apply Hneq, H.
  - by exists reconnect_trace.
  - by vm_compute.
  - by vm_compute.
Qed.

(** C2, as the code has it: the disconnect handler of both versions of
    [SocketManager] deletes the registration of its user whatever the stored
    handle is; the handle of the disconnecting socket is not consulted. *)
Theorem disconnect_unregisters_unconditionally :
  (∀ (s : SocketChat.SocketManager) now u h,
     SocketChat.connectedUsers
       (SocketChat.handle (SocketChat.mkArrival now u h SocketChat.Event.disconnect) s).1
       !! u = None)
  ∧
  (∀ (s : SocketChatTimed.SocketManager) now u h,
     SocketChatTimed.connectedUsers
       (SocketChatTimed.handle
          (SocketChatTimed.from_socket now u h SocketChatTimed.Event.disconnect) s).1
       !! u = None).
Proof.
  split; intros; simpl; apply lookup_delete_eq.
Qed.

(** * Initiating a call towards an offline callee (claim C5) *)

(** C5, counterexample: u1 is connected, u2 is not; u1 calls u2. *)
Lemma offline_callee_gets_no_record : ¬ offline_callee_still_gets_record.
Proof.
  intros H.
  specialize (H (SocketChat.on_connection "u1" "s1" SocketChat.initial).1
                10 "u1" "s1" "c1" "u2" video "Ann" None).
  destruct H as [d Hd]; [by vm_compute | by vm_compute in Hd].
Qed.

(** C5, as the code has it: in both versions of [SocketManager] an initiate
    by the authenticated caller towards a callee that is not registered
    reports "Recipient is offline" to the calling socket and returns before
    anything is stored: the state is the one before the event. *)
Theorem offline_callee_blocks_call_creation :
  (∀ (s : SocketChat.SocketManager) now u sid c r t n i,
     SocketChat.connectedUsers s !! r = None →
     SocketChat.on_call_initiate now u sid c r t u n i s
     = (s, [ emit (to_socket sid) (SocketChat.call_failed c "Recipient is offline") ]))
  ∧
  (∀ (s : SocketChatTimed.SocketManager) now u sid c r t n i rn,
     SocketChatTimed.connectedUsers s !! r = None →
     SocketChatTimed.on_call_initiate now u sid c r t u n i rn s
     = (s, [ emit (to_socket sid)
               (SocketChatTimed.call_failed c "Recipient is offline") ])).
Proof.
  split; intros * Hoff.
  - unfold SocketChat.on_call_initiate.
    rewrite bool_decide_false by (by intros ?). by rewrite Hoff.
  - unfold SocketChatTimed.on_call_initiate.
    rewrite bool_decide_false by (by intros ?). by rewrite Hoff.
Qed.

Lemma offline_callee_blocks_call_creation_witness :
  SocketChat.on_call_initiate 10 "u1" "s1" "c1" "u2" video "u1" "Ann" None
    (SocketChat.on_connection "u1" "s1" SocketChat.initial).1
  = ((SocketChat.on_connection "u1" "s1" SocketChat.initial).1,
     [ emit (to_socket "s1") (SocketChat.call_failed "c1" "Recipient is offline") ])
  ∧
  SocketChatTimed.on_call_initiate 10 "u1" "s1" "c1" "u2" video "u1" "Ann" None "Bob"
    (SocketChatTimed.on_connection 0 "u1" "s1" SocketChatTimed.initial).1
  = ((SocketChatTimed.on_connection 0 "u1" "s1" SocketChatTimed.initial).1,
     [ emit (to_socket "s1") (SocketChatTimed.call_failed "c1" "Recipient is offline") ]).
Proof.
  split.
  - apply (proj1 offline_callee_blocks_call_creation). vm_compute. reflexivity.
  - apply (proj2 offline_callee_blocks_call_creation). vm_compute. reflexivity.
Defined.

(** * A failed initiate leaves no trace (claim C6) *)

Lemma sm_busy_found (s : SocketChat.SocketManager) c d :
  JSMap.get c (SocketChat.activeCalls s) = Some d →
  is_Some (List.find
             (λ call, bool_decide (SocketChat.CallData.recipientId call
                                   = SocketChat.CallData.recipientId d))
             (JSMap.values (SocketChat.activeCalls s))).
Proof.
  intros Hget. apply find_is_Some with d.
  - eapply jsmap_elem_values, jsmap_get_Some_elem, Hget.
  - by apply bool_decide_eq_true.
Qed.

Lemma smt_busy_found (s : SocketChatTimed.SocketManager) c d :
  JSMap.get c (SocketChatTimed.activeCalls s) = Some d →
  is_Some (List.find
             (λ call, bool_decide (SocketChatTimed.CallData.recipientId call
                                   = SocketChatTimed.CallData.recipientId d))
             (JSMap.values (SocketChatTimed.activeCalls s))).
Proof.
  intros Hget. apply find_is_Some with d.
  - eapply jsmap_elem_values, jsmap_get_Some_elem, Hget.
  - by apply bool_decide_eq_true.
Qed.

Lemma sm_failed_initiate now userId socketId c r t callerId n i s :
  sm_initiate_fails s userId callerId r →
  ∃ reason,
    SocketChat.on_call_initiate now userId socketId c r t callerId n i s
    = (s, [ emit (to_socket socketId) (SocketChat.call_failed c reason) ]).
Proof.
  intros Hfail. unfold SocketChat.on_call_initiate.
  case_bool_decide; [by eexists|].
  destruct (SocketChat.connectedUsers s !! r) eqn:Hon; [|by eexists].
  destruct Hfail as [?|[?|(c' & d & Hget & <-)]]; [contradiction | congruence |].
  destruct (sm_busy_found s c' d Hget) as [x ->]. by eexists.
Qed.

Lemma smt_failed_initiate now userId socketId c r t callerId n i rn s :
  smt_initiate_fails s userId callerId r →
  ∃ reason,
    SocketChatTimed.on_call_initiate now userId socketId c r t callerId n i rn s
    = (s, [ emit (to_socket socketId) (SocketChatTimed.call_failed c reason) ]).
Proof.
  intros Hfail. unfold SocketChatTimed.on_call_initiate.
  case_bool_decide; [by eexists|].
  destruct (SocketChatTimed.connectedUsers s !! r) eqn:Hon; [|by eexists].
  destruct Hfail as [?|[?|(c' & d & Hget & <-)]]; [contradiction | congruence |].
  destruct (smt_busy_found s c' d Hget) as [x ->]. by eexists.
Qed.

Lemma ch_failed_initiate now userId socketId c r t callerId n i s :
  ch_initiate_fails s userId callerId r →
  ∃ reason,
    CallHandler.handleCallInitiate now userId socketId c r t callerId n i s
    = (s, [ emit (to_socket socketId) (CallHandler.call_failed c reason) ]).
Proof.
  intros Hfail. unfold CallHandler.handleCallInitiate.
  case_bool_decide; [by eexists|].
  destruct Hfail as [?|(c' & d & Hget & Hr & Hst)]; [contradiction|].
  edestruct (find_is_Some
               (λ call, bool_decide (CallHandler.CallData.recipientId call = r)
                        && bool_decide (CallHandler.CallData.status call
                                        = CallHandler.ringing))
               (JSMap.values (CallHandler.activeCalls s)) d) as [x ->].
  - eapply jsmap_elem_values, jsmap_get_Some_elem, Hget.
  - by rewrite !bool_decide_eq_true_2.
  - by eexists.
Qed.

(** C6: an initiate that fails (caller mismatch, callee offline, callee
    busy) returns the coordinator state it was given, the call map, the
    timer map and the pending timers included, and its only effect is one
    [call:failed] sent to the initiating socket; nothing is sent to a room,
    so the callee receives nothing.  Stated for [socket.chat.ts], for its
    version with timers and for [CallHandler]. *)
Theorem failed_initiate_leaves_no_trace :
  (∀ now userId socketId c r t callerId n i (s : SocketChat.SocketManager),
     sm_initiate_fails s userId callerId r →
     ∃ reason,
       SocketChat.on_call_initiate now userId socketId c r t callerId n i s
       = (s, [ emit (to_socket socketId) (SocketChat.call_failed c reason) ]))
  ∧
  (∀ now userId socketId c r t callerId n i rn (s : SocketChatTimed.SocketManager),
     smt_initiate_fails s userId callerId r →
     ∃ reason,
       SocketChatTimed.on_call_initiate now userId socketId c r t callerId n i rn s
       = (s, [ emit (to_socket socketId) (SocketChatTimed.call_failed c reason) ]))
  ∧
  (∀ now userId socketId c r t callerId n i (s : CallHandler.State),
     ch_initiate_fails s userId callerId r →
     ∃ reason,
       CallHandler.handleCallInitiate now userId socketId c r t callerId n i s
       = (s, [ emit (to_socket socketId) (CallHandler.call_failed c reason) ])).
Proof.
  split; [|split]; intros.
  - by apply sm_failed_initiate.
  - by apply smt_failed_initiate.
  - by apply ch_failed_initiate.
Qed.

Lemma failed_initiate_leaves_no_trace_witness :
  ∃ reason,
    SocketChat.on_call_initiate 9 "u3" "s3" "c2" "u2" audio "u3" "Cy" None sm_ringing
    = (sm_ringing, [ emit (to_socket "s3") (SocketChat.call_failed "c2" reason) ]).
Proof.
  apply (proj1 failed_initiate_leaves_no_trace).
  right; right. eexists "c1", _. split; vm_compute; reflexivity.
Defined.

(** * Relaying for an unknown call (claim C8) *)

(** C8: when [callId] is not in the call map, [webrtc:offer] and
    [webrtc:answer] send one [webrtc:error] to the sending socket,
    [webrtc:ice-candidate] sends nothing at all, and in the three cases the
    state is unchanged and nothing goes to the recipient. *)
Theorem relay_for_unknown_call userId socketId callId recipientId payload
    (s : SocketChat.SocketManager) :
  JSMap.has callId (SocketChat.activeCalls s) = false →
  SocketChat.on_webrtc_offer userId socketId callId recipientId payload s
  = (s, [ emit (to_socket socketId) (SocketChat.webrtc_error callId "Call not found") ])
  ∧ SocketChat.on_webrtc_answer userId socketId callId recipientId payload s
    = (s, [ emit (to_socket socketId) (SocketChat.webrtc_error callId "Call not found") ])
  ∧ SocketChat.on_webrtc_ice_candidate userId callId recipientId payload s = (s, []).
Proof.
  intros Hhas.
  unfold SocketChat.on_webrtc_offer, SocketChat.on_webrtc_answer,
    SocketChat.on_webrtc_ice_candidate.
  by rewrite Hhas.
Qed.

Lemma relay_for_unknown_call_witness :
  SocketChat.on_webrtc_offer "u1" "s1" "c7" "u2" "sdp" sm_ringing
  = (sm_ringing, [ emit (to_socket "s1") (SocketChat.webrtc_error "c7" "Call not found") ])
  ∧ SocketChat.on_webrtc_answer "u1" "s1" "c7" "u2" "sdp" sm_ringing
    = (sm_ringing, [ emit (to_socket "s1") (SocketChat.webrtc_error "c7" "Call not found") ])
  ∧ SocketChat.on_webrtc_ice_candidate "u1" "c7" "u2" "sdp" sm_ringing = (sm_ringing, []).
Proof.
  apply (relay_for_unknown_call "u1" "s1" "c7" "u2" "sdp" sm_ringing).
  vm_compute. reflexivity.
Defined.

(** * Rejecting or ending a call that does not exist (claim C9) *)

Lemma sm_reject_unknown userId callId peer reason (s : SocketChat.SocketManager) :
  JSMap.get callId (SocketChat.activeCalls s) = None →
  SocketChat.on_call_reject userId callId peer reason s
  = (s, [ emit (to_room peer)
            (SocketChat.call_rejected callId (or_default reason "Call rejected") userId) ]).
Proof.
  intros Hnone. unfold SocketChat.on_call_reject. f_equal.
  destruct s as [cv cu ac]. unfold SocketChat.with_activeCalls. simpl in *.
  by rewrite jsmap_delete_absent.
Qed.

Lemma sm_end_unknown now userId callId peer (s : SocketChat.SocketManager) :
  JSMap.get callId (SocketChat.activeCalls s) = None →
  SocketChat.on_call_end now userId callId peer s
  = (s, [ emit (to_room peer) (SocketChat.call_ended callId userId None (Some 0)) ]).
Proof.
  intros Hnone. unfold SocketChat.on_call_end. rewrite Hnone. f_equal.
  destruct s as [cv cu ac]. unfold SocketChat.with_activeCalls. simpl in *.
  by rewrite jsmap_delete_absent.
Qed.

(** A reject of an unknown call still sends [call:rejected], and sends it
    again when repeated: the handler is neither silent nor, counting what it
    sends, idempotent.  The same holds for [call:end]. *)
Lemma unknown_call_action_still_notifies :
  ¬ unknown_call_action_is_noop ∧ ¬ unknown_call_action_is_idempotent.
Proof.
  split; intros H;
    destruct (H sm_ringing 50 "u2" "s2" "c9" "u1" None) as [Hrej _];
    try (by vm_compute); vm_compute in Hrej; discriminate Hrej.
Qed.

(** C9: when no call is stored under [callId], [call:reject] and [call:end]
    of [socket.chat.ts] raise no error and return the state unchanged, and
    each run sends exactly one notification to the room named in the
    payload: [call:rejected] with the given or the default reason, or
    [call:ended] with duration 0.  So [n] repetitions leave the state as it
    was and send [n] notifications. *)
Theorem terminal_action_on_unknown_call now userId socketId callId peer reason
    (s : SocketChat.SocketManager) :
  JSMap.get callId (SocketChat.activeCalls s) = None →
  let rejected :=
    emit (to_room peer)
      (SocketChat.call_rejected callId (or_default reason "Call rejected") userId) in
  let ended :=
    emit (to_room peer) (SocketChat.call_ended callId userId None (Some 0)) in
  SocketChat.on_call_reject userId callId peer reason s = (s, [ rejected ])
  ∧ SocketChat.on_call_end now userId callId peer s = (s, [ ended ])
  ∧ ∀ n : nat,
      SocketChat.run (replicate n (reject_arrival now userId socketId callId peer reason)) s
      = (s, replicate n rejected)
      ∧ SocketChat.run (replicate n (end_arrival now userId socketId callId peer)) s
        = (s, replicate n ended).
Proof.
  intros Hnone rejected ended.
  pose proof (sm_reject_unknown userId callId peer reason s Hnone) as Hrej.
  pose proof (sm_end_unknown now userId callId peer s Hnone) as Hend.
  split; [exact Hrej|]. split; [exact Hend|].
  induction n as [|n [IHr IHe]]; [done|].
  split.
  - change (SocketChat.run (replicate (S n) ?a) s)
      with (let r1 := SocketChat.on_call_reject userId callId peer reason s in
            ((SocketChat.run (replicate n a) r1.1).1,
             r1.2 ++ (SocketChat.run (replicate n a) r1.1).2)).
    rewrite Hrej. simpl. by rewrite IHr.
  - change (SocketChat.run (replicate (S n) ?a) s)
      with (let r1 := SocketChat.on_call_end now userId callId peer s in
            ((SocketChat.run (replicate n a) r1.1).1,
             r1.2 ++ (SocketChat.run (replicate n a) r1.1).2)).
    rewrite Hend. simpl. by rewrite IHe.
Qed.

Lemma terminal_action_on_unknown_call_witness :
  SocketChat.on_call_reject "u2" "c9" "u1" None sm_ringing
  = (sm_ringing, [ emit (to_room "u1") (SocketChat.call_rejected "c9" "Call rejected" "u2") ])
  ∧ SocketChat.on_call_end 50 "u2" "c9" "u1" sm_ringing
    = (sm_ringing, [ emit (to_room "u1") (SocketChat.call_ended "c9" "u2" None (Some 0)) ]).
Proof.
  destruct (terminal_action_on_unknown_call 50 "u2" "s2" "c9" "u1" None sm_ringing)
    as (H1 & H2 & _); [vm_compute; reflexivity|].
  exact (conj H1 H2).
Defined.

(** * Who may reject or end a call (claim C10) *)

(** C10: [call:reject] and [call:end] delete whatever is stored under
    [callId] and send their notification to the room named in the payload,
    for every sender [userId] and every [peer]: neither the sender nor the
    addressee is compared with the caller and callee of the stored record.
    Other records are untouched.  Stated for [socket.chat.ts] and for
    [CallHandler]. *)
Theorem reject_and_end_ignore_membership :
  (∀ now userId callId peer reason (s : SocketChat.SocketManager),
     let rej := SocketChat.on_call_reject userId callId peer reason s in
     let fin := SocketChat.on_call_end now userId callId peer s in
     JSMap.get callId (SocketChat.activeCalls rej.1) = None
     ∧ JSMap.get callId (SocketChat.activeCalls fin.1) = None
     ∧ (∀ c, c ≠ callId →
          JSMap.get c (SocketChat.activeCalls rej.1) = JSMap.get c (SocketChat.activeCalls s)
          ∧ JSMap.get c (SocketChat.activeCalls fin.1) = JSMap.get c (SocketChat.activeCalls s))
     ∧ rej.2 = [ emit (to_room peer)
                   (SocketChat.call_rejected callId (or_default reason "Call rejected") userId) ]
     ∧ ∃ duration,
         fin.2 = [ emit (to_room peer)
                     (SocketChat.call_ended callId userId None (Some duration)) ])
  ∧
  (∀ now userId callId peer reason (s : CallHandler.State),
     let rej := CallHandler.handleCallReject userId callId peer reason s in
     let fin := CallHandler.handleCallEnd now userId callId peer s in
     JSMap.get callId (CallHandler.activeCalls rej.1) = None
     ∧ JSMap.get callId (CallHandler.activeCalls fin.1) = None
     ∧ (∀ c, c ≠ callId →
          JSMap.get c (CallHandler.activeCalls rej.1) = JSMap.get c (CallHandler.activeCalls s)
          ∧ JSMap.get c (CallHandler.activeCalls fin.1) = JSMap.get c (CallHandler.activeCalls s))
     ∧ rej.2 = [ emit (to_room peer)
                   (CallHandler.call_rejected callId (or_default reason "Call rejected") userId) ]
     ∧ ∃ duration,
         fin.2 = [ emit (to_room peer) (CallHandler.call_ended callId userId None duration) ]).
Proof.
  split; intros; subst rej fin.
  - unfold SocketChat.on_call_reject, SocketChat.on_call_end. simpl.
    rewrite jsmap_get_delete_eq. repeat split; try done.
    + by apply jsmap_get_delete_ne.
    + by apply jsmap_get_delete_ne.
    + by eexists.
  - assert (Hac : ∀ k s0, CallHandler.activeCalls (CallHandler.clearCallTimeout k s0)
                          = CallHandler.activeCalls s0).
    { intros k s0. unfold CallHandler.clearCallTimeout.
      by destruct (CallHandler.callTimeouts s0 !! k). }
    unfold CallHandler.handleCallReject, CallHandler.handleCallEnd. simpl.
    rewrite !Hac. simpl. rewrite jsmap_get_delete_eq. repeat split; try done.
    + by apply jsmap_get_delete_ne.
    + by apply jsmap_get_delete_ne.
    + by eexists.
Qed.

(** An outsider ends a ringing call: u3 is neither caller nor callee of c1,
    yet its [call:end] removes c1 and the notification goes to the room u3
    names. *)
Example outsider_ends_call :
  SocketChat.is_party "u3"
    <$> JSMap.get "c1" (SocketChat.activeCalls sm_ringing) = Some false
  ∧ JSMap.get "c1"
      (SocketChat.activeCalls (SocketChat.on_call_end 4000 "u3" "c1" "u9" sm_ringing).1)
    = None
  ∧ (SocketChat.on_call_end 4000 "u3" "c1" "u9" sm_ringing).2
    = [ emit (to_room "u9") (SocketChat.call_ended "c1" "u3" None (Some 3)) ].
Proof. by vm_compute. Qed.

(** * Only the callee accepts (claim C3) *)

Lemma ch_activeCalls_clearCallTimeout k (s : CallHandler.State) :
  CallHandler.activeCalls (CallHandler.clearCallTimeout k s) = CallHandler.activeCalls s.
Proof.
  unfold CallHandler.clearCallTimeout. by destruct (CallHandler.callTimeouts s !! k).
Qed.

Lemma sm_accept_guard userId socketId callId callerId (s : SocketChat.SocketManager) :
  let r := SocketChat.on_call_accept userId socketId callId callerId s in
  r.1 = s
  ∧ (∀ to c a n, emit to (SocketChat.call_accepted c a n) ∈ r.2 →
       to = to_room callerId ∧ c = callId ∧ a = userId
       ∧ ∃ d, JSMap.get callId (SocketChat.activeCalls s) = Some d
              ∧ SocketChat.CallData.recipientId d = userId)
  ∧ ((∀ d, JSMap.get callId (SocketChat.activeCalls s) = Some d →
           SocketChat.CallData.recipientId d ≠ userId) →
     ∃ err, r.2 = [ emit (to_socket socketId) (SocketChat.call_error callId err) ]).
Proof.
  unfold SocketChat.on_call_accept.
  destruct (JSMap.get callId (SocketChat.activeCalls s)) as [d|] eqn:Hget; simpl.
  - case_bool_decide as Hr; simpl.
    + split; [done|]. split; [|by eexists].
      intros to c a n Hin. apply list_elem_of_singleton in Hin. discriminate.
    + split; [done|]. split.
      * intros to c a n Hin. apply list_elem_of_singleton in Hin.
        injection Hin as -> -> -> _. naive_solver.
      * intros Hno. by destruct (Hno d).
  - split; [done|]. split; [|by eexists].
    intros to c a n Hin. apply list_elem_of_singleton in Hin. discriminate.
Qed.

Lemma ch_accept_guard userId socketId callId callerId (s : CallHandler.State) :
  let r := CallHandler.handleCallAccept userId socketId callId callerId s in
  (∀ c d', JSMap.get c (CallHandler.activeCalls r.1) = Some d' →
       JSMap.get c (CallHandler.activeCalls s) = Some d'
       ∨ (c = callId
          ∧ ∃ d, JSMap.get callId (CallHandler.activeCalls s) = Some d
                 ∧ CallHandler.CallData.recipientId d = userId
                 ∧ d' = CallHandler.set_status CallHandler.accepted d))
  ∧ (∀ to c a, emit to (CallHandler.call_accepted c a) ∈ r.2 →
       to = to_room callerId ∧ c = callId ∧ a = userId
       ∧ ∃ d, JSMap.get callId (CallHandler.activeCalls s) = Some d
              ∧ CallHandler.CallData.recipientId d = userId)
  ∧ ((∀ d, JSMap.get callId (CallHandler.activeCalls s) = Some d →
           CallHandler.CallData.recipientId d ≠ userId) →
     r.1 = s
     ∧ ∃ err, r.2 = [ emit (to_socket socketId) (CallHandler.call_error callId err) ]).
Proof.
  unfold CallHandler.handleCallAccept.
  destruct (JSMap.get callId (CallHandler.activeCalls s)) as [d|] eqn:Hget; simpl.
  - case_bool_decide as Hr; simpl.
    + split; [by left|]. split; [|by eauto].
      intros to c a Hin. apply list_elem_of_singleton in Hin. discriminate.
    + split; [|split].
      * intros c d'. rewrite ch_activeCalls_clearCallTimeout. simpl.
        destruct (decide (callId = c)) as [<-|Hne].
        -- rewrite jsmap_get_set_eq. intros [= <-]. right. naive_solver.
        -- rewrite jsmap_get_set_ne by done. by left.
      * intros to c a Hin. apply list_elem_of_singleton in Hin.
        injection Hin as -> -> ->. naive_solver.
      * intros Hno. by destruct (Hno d).
  - split; [by left|]. split; [|by eauto].
    intros to c a Hin. apply list_elem_of_singleton in Hin. discriminate.
Qed.

(** C3: [call:accept] sends [call:accepted] (and, in [CallHandler], sets the
    record's status to accepted) only when a call is stored under [callId]
    and the accepting user is its stored recipient.  For any other acceptor,
    and for an unknown call, one [call:error] goes to the accepting socket
    and the state, the call record included, is unchanged.  In
    [socket.chat.ts] a call record carries no status, so accepting never
    changes the state. *)
Theorem accept_only_by_callee :
  (∀ userId socketId callId callerId (s : SocketChat.SocketManager),
     let r := SocketChat.on_call_accept userId socketId callId callerId s in
     r.1 = s
     ∧ (∀ to c a n, emit to (SocketChat.call_accepted c a n) ∈ r.2 →
          to = to_room callerId ∧ c = callId ∧ a = userId
          ∧ ∃ d, JSMap.get callId (SocketChat.activeCalls s) = Some d
                 ∧ SocketChat.CallData.recipientId d = userId)
     ∧ ((∀ d, JSMap.get callId (SocketChat.activeCalls s) = Some d →
              SocketChat.CallData.recipientId d ≠ userId) →
        ∃ err, r.2 = [ emit (to_socket socketId) (SocketChat.call_error callId err) ]))
  ∧
  (∀ userId socketId callId callerId (s : CallHandler.State),
     let r := CallHandler.handleCallAccept userId socketId callId callerId s in
     (∀ c d', JSMap.get c (CallHandler.activeCalls r.1) = Some d' →
          JSMap.get c (CallHandler.activeCalls s) = Some d'
          ∨ (c = callId
             ∧ ∃ d, JSMap.get callId (CallHandler.activeCalls s) = Some d
                    ∧ CallHandler.CallData.recipientId d = userId
                    ∧ d' = CallHandler.set_status CallHandler.accepted d))
     ∧ (∀ to c a, emit to (CallHandler.call_accepted c a) ∈ r.2 →
          to = to_room callerId ∧ c = callId ∧ a = userId
          ∧ ∃ d, JSMap.get callId (CallHandler.activeCalls s) = Some d
                 ∧ CallHandler.CallData.recipientId d = userId)
     ∧ ((∀ d, JSMap.get callId (CallHandler.activeCalls s) = Some d →
              CallHandler.CallData.recipientId d ≠ userId) →
        r.1 = s
        ∧ ∃ err, r.2 = [ emit (to_socket socketId) (CallHandler.call_error callId err) ])).
Proof.
  split; intros.
  - apply sm_accept_guard.
  - apply ch_accept_guard.
Qed.

(** u3, who is not the callee of c1, tries to accept it. *)
Lemma accept_only_by_callee_witness :
  ∃ err,
    (SocketChat.on_call_accept "u3" "s3" "c1" "u1" sm_ringing).2
    = [ emit (to_socket "s3") (SocketChat.call_error "c1" err) ].
Proof.
  destruct (proj1 accept_only_by_callee "u3" "s3" "c1" "u1" sm_ringing)
    as (_ & _ & H).
  apply H. intros d Hd. vm_compute in Hd. injection Hd as <-. discriminate.
Defined.

(** * Reachable states and invariants of [socket.chat.ts] *)

Lemma sm_run_invariant (P : SocketChat.SocketManager → Prop) :
  (∀ a s, P s → P (SocketChat.handle a s).1) →
  ∀ evs s, P s → P (SocketChat.run evs s).1.
Proof.
  intros Hstep evs. induction evs as [|a rest IH]; intros s Hs; simpl; [done|].
  apply IH, Hstep, Hs.
Qed.

Lemma sm_reachable_invariant (P : SocketChat.SocketManager → Prop) :
  P SocketChat.initial →
  (∀ a s, P s → P (SocketChat.handle a s).1) →
  ∀ s, SocketChat.reachable s → P s.
Proof.
  intros Hinit Hstep s [evs <-]. by apply sm_run_invariant.
Qed.

Lemma filter_all {A : Type} (P : A → Prop) `{!∀ x, Decision (P x)} (l : list A) :
  (∀ x, x ∈ l → P x) → filter P l = l.
Proof.
  induction l as [|x l IH]; intros Hall; [done|].
  rewrite filter_cons_True by (apply Hall; left).
  rewrite IH; [done|]. intros y Hy. apply Hall. by right.
Qed.

(** What [end_calls_of] leaves in the call map, and what it sends. *)
Lemma sm_end_calls_of_calls userId entries (s : SocketChat.SocketManager) :
  SocketChat.activeCalls (SocketChat.end_calls_of userId entries s).1
  = filter (λ kv, kv.1 ∉ (filter (λ e, SocketChat.is_party userId e.2) entries).*1)
      (SocketChat.activeCalls s).
Proof.
  revert s. induction entries as [|[c d] rest IH]; intros s; simpl.
  - symmetry. apply filter_all. intros ? _. apply not_elem_of_nil.
  - rewrite filter_cons. simpl. destruct (SocketChat.is_party userId d) eqn:Hp; simpl.
    + rewrite IH. simpl. unfold JSMap.delete. rewrite list_filter_filter.
      apply list_filter_iff. intros [k v]. simpl. rewrite not_elem_of_cons. tauto.
    + apply IH.
Qed.

Lemma sm_end_calls_of_effects userId entries (s : SocketChat.SocketManager) :
  (SocketChat.end_calls_of userId entries s).2
  = (λ e, emit (to_room (SocketChat.otherUserId userId e.2))
            (SocketChat.call_ended e.1 userId (Some "User disconnected") None))
      <$> filter (λ e, SocketChat.is_party userId e.2) entries.
Proof.
  revert s. induction entries as [|[c d] rest IH]; intros s; simpl; [done|].
  rewrite filter_cons. simpl. destruct (SocketChat.is_party userId d) eqn:Hp; simpl.
  - by rewrite IH.
  - apply IH.
Qed.

Lemma sm_end_calls_of_others userId entries (s : SocketChat.SocketManager) :
  SocketChat.activeConversations (SocketChat.end_calls_of userId entries s).1
  = SocketChat.activeConversations s
  ∧ SocketChat.connectedUsers (SocketChat.end_calls_of userId entries s).1
    = SocketChat.connectedUsers s.
Proof.
  revert s. induction entries as [|[c d] rest IH]; intros s; simpl; [done|].
  destruct (SocketChat.is_party userId d); simpl; [|apply IH].
  destruct (IH (SocketChat.with_activeCalls (JSMap.delete c) s)) as [-> ->]. done.
Qed.

Lemma sm_end_calls_of_nop userId entries (s : SocketChat.SocketManager) :
  (∀ e, e ∈ entries → SocketChat.is_party userId e.2 = false) →
  SocketChat.end_calls_of userId entries s = (s, []).
Proof.
  revert s. induction entries as [|[c d] rest IH]; intros s Hno; simpl; [done|].
  pose proof (Hno (c, d) ltac:(left)) as Hd. simpl in Hd. rewrite Hd.
  apply IH. intros e He. apply Hno. by right.
Qed.

Lemma jsmap_get_filter_keys {V : Type} (Q : string → Prop) `{!∀ k, Decision (Q k)}
    (k : string) (m : JSMap.t V) :
  JSMap.get k (filter (λ kv, Q kv.1) m) = if decide (Q k) then JSMap.get k m else None.
Proof.
  induction m as [|[k0 v0] r IH]; simpl.
  - by destruct (decide (Q k)).
  - rewrite filter_cons. simpl. destruct (decide (k0 = k)) as [->|Hne].
    + destruct (decide (Q k)) as [Hq|Hq]; simpl; [by rewrite decide_True|done].
    + destruct (decide (Q k0)) as [Hq|Hq]; simpl; [|apply IH].
      rewrite decide_False by done. apply IH.
Qed.

Lemma sm_calls_within_delete c (m : JSMap.t SocketChat.CallData.t) :
  sm_calls_within (JSMap.delete c m) m.
Proof.
  intros k d. destruct (decide (c = k)) as [->|Hne].
  - by rewrite jsmap_get_delete_eq.
  - by rewrite jsmap_get_delete_ne.
Qed.

Lemma sm_calls_within_disconnect userId (s : SocketChat.SocketManager) :
  sm_calls_within
    (SocketChat.activeCalls (SocketChat.end_calls_of userId (SocketChat.activeCalls s) s).1)
    (SocketChat.activeCalls s).
Proof.
  intros k d Hget. rewrite sm_end_calls_of_calls in Hget.
  pose proof (jsmap_get_filter_keys
                (λ k, k ∉ (filter (λ e, SocketChat.is_party userId e.2)
                             (SocketChat.activeCalls s)).*1)
                k (SocketChat.activeCalls s)) as E.
  simpl in E. destruct (decide _) in E; congruence.
Qed.

(** The call map after an arrival: either every record that is there was
    there before, unchanged, or the arrival was an initiate that passed the
    busy check and stored its record. *)
Lemma sm_handle_calls a (s : SocketChat.SocketManager) :
  sm_calls_within (SocketChat.activeCalls (SocketChat.handle a s).1)
    (SocketChat.activeCalls s)
  ∨ ∃ c d,
      List.find (λ call, bool_decide (SocketChat.CallData.recipientId call
                                      = SocketChat.CallData.recipientId d))
        (JSMap.values (SocketChat.activeCalls s)) = None
      ∧ SocketChat.activeCalls (SocketChat.handle a s).1
        = JSMap.set c d (SocketChat.activeCalls s).
Proof.
  destruct a as [now u sid e]. destruct e; simpl;
    try (left; intros k d; done).
  - left. unfold SocketChat.on_join_conversation. repeat case_match; by intros k d.
  - left. unfold SocketChat.on_leave_conversation. repeat case_match; by intros k d.
  - left. unfold SocketChat.on_send_message. repeat case_match; by intros k d.
  - unfold SocketChat.on_call_initiate.
    case_bool_decide; [by left; intros k d|].
    destruct (SocketChat.connectedUsers s !! recipientId); [|by left; intros k d].
    destruct (List.find _ _) eqn:Hfind; [by left; intros k d|].
    right. eexists callId, _. simpl. split; [|done]. exact Hfind.
  - left. unfold SocketChat.on_call_accept. repeat case_match; by intros k d.
  - left. apply sm_calls_within_delete.
  - left. apply sm_calls_within_delete.
  - left. apply sm_calls_within_delete.
  - left. unfold SocketChat.on_webrtc_offer. repeat case_match; by intros k d.
  - left. unfold SocketChat.on_webrtc_answer. repeat case_match; by intros k d.
  - left. unfold SocketChat.on_webrtc_ice_candidate. repeat case_match; by intros k d.
  - left. apply sm_calls_within_disconnect.
Qed.

Lemma sm_callee_unique_step a s :
  sm_callee_unique s → sm_callee_unique (SocketChat.handle a s).1.
Proof.
  intros Hinv. destruct (sm_handle_calls a s) as [Hsub|(c & d & Hfind & Heq)].
  - intros c1 d1 c2 d2 H1 H2. apply Hinv; by apply Hsub.
  - assert (Hfree : ∀ k x, JSMap.get k (SocketChat.activeCalls s) = Some x →
                           SocketChat.CallData.recipientId x
                           ≠ SocketChat.CallData.recipientId d).
    { intros k x Hk Hr.
      pose proof (find_None_elem _ _ x Hfind
                    (jsmap_elem_values _ _ _ (jsmap_get_Some_elem _ _ _ Hk))) as Hf.
      simpl in Hf. by apply bool_decide_eq_false in Hf. }
    intros c1 d1 c2 d2. rewrite Heq.
    destruct (decide (c = c1)) as [<-|Hn1], (decide (c = c2)) as [<-|Hn2]; [done|..].
    + rewrite jsmap_get_set_eq, jsmap_get_set_ne by done.
      intros [= <-] H2 Hr. by destruct (Hfree _ _ H2).
    + rewrite jsmap_get_set_eq, jsmap_get_set_ne by done.
      intros H1 [= <-] Hr. by destruct (Hfree _ _ H1).
    + rewrite !jsmap_get_set_ne by done. apply Hinv.
Qed.

Lemma sm_reachable_callee_unique s : SocketChat.reachable s → sm_callee_unique s.
Proof.
  apply sm_reachable_invariant; [|apply sm_callee_unique_step].
  intros c1 d1 c2 d2 H1. done.
Qed.

(** With a matching caller and an online callee, an initiate towards a
    callee that already has a stored call is refused as busy. *)
Lemma sm_busy_initiate now userId socketId c r t n i (s : SocketChat.SocketManager) k d :
  is_Some (SocketChat.connectedUsers s !! r) →
  JSMap.get k (SocketChat.activeCalls s) = Some d →
  SocketChat.CallData.recipientId d = r →
  SocketChat.on_call_initiate now userId socketId c r t userId n i s
  = (s, [ emit (to_socket socketId)
            (SocketChat.call_failed c "Recipient is already in a call") ]).
Proof.
  intros [us Hon] Hget <-. unfold SocketChat.on_call_initiate.
  rewrite bool_decide_false by (by intros ?). rewrite Hon.
  by destruct (sm_busy_found s k d Hget) as [x ->].
Qed.

Lemma sm_conversations_nodup_step a s :
  sm_conversations_nodup s → sm_conversations_nodup (SocketChat.handle a s).1.
Proof.
  intros Hinv. destruct a as [now u sid e]. destruct e; simpl; try done.
  - intros u' us. simpl. rewrite lookup_insert. case_decide.
    + intros [= <-]. simpl. apply NoDup_nil_2.
    + apply Hinv.
  - unfold SocketChat.on_join_conversation. simpl.
    set (cid := createConversationId u otherUserId).
    assert (Hu : ∀ s1, SocketChat.connectedUsers s1 = SocketChat.connectedUsers s →
                 sm_conversations_nodup
                   match SocketChat.connectedUsers s1 !! u with
                   | Some userSocket =>
                       if bool_decide (cid ∈ UserSocket.activeConversations userSocket)
                       then s1
                       else SocketChat.with_connectedUsers
                              (insert u
                                 (set_activeConversations
                                    (UserSocket.activeConversations userSocket ++ [cid])
                                    userSocket)) s1
                   | None => s1
                   end).
    { intros s1 Hs1. rewrite Hs1.
      destruct (SocketChat.connectedUsers s !! u) as [us0|] eqn:Hu0.
      - case_bool_decide as Hin.
        + intros u' us. rewrite Hs1. apply Hinv.
        + intros u' us. simpl. rewrite Hs1, lookup_insert. case_decide.
          * intros [= <-]. simpl. apply NoDup_app. split; [by eapply Hinv|].
            split; [|apply NoDup_singleton].
            intros x Hx ->%list_elem_of_singleton. done.
          * apply Hinv.
      - intros u' us. rewrite Hs1. apply Hinv. }
    destruct (SocketChat.activeConversations s !! cid); by apply Hu.
  - unfold SocketChat.on_leave_conversation. simpl.
    destruct (SocketChat.connectedUsers s !! u) as [us0|] eqn:Hu0; [|done].
    intros u' us. simpl. rewrite lookup_insert. case_decide.
    + intros [= <-]. simpl. apply NoDup_filter. by eapply Hinv.
    + apply Hinv.
  - unfold SocketChat.on_send_message. simpl.
    destruct (SocketChat.activeConversations s !! _); apply Hinv.
  - unfold SocketChat.on_call_initiate. repeat case_match; apply Hinv.
  - unfold SocketChat.on_call_accept. repeat case_match; apply Hinv.
  - unfold SocketChat.on_webrtc_offer. case_match; apply Hinv.
  - unfold SocketChat.on_webrtc_answer. case_match; apply Hinv.
  - unfold SocketChat.on_webrtc_ice_candidate. case_match; apply Hinv.
  - intros u' us. simpl.
    rewrite (proj2 (sm_end_calls_of_others u (SocketChat.activeCalls s) s)).
    intros [_ H]%lookup_delete_Some. by eapply Hinv.
Qed.

Lemma sm_reachable_conversations_nodup s :
  SocketChat.reachable s → sm_conversations_nodup s.
Proof.
  apply sm_reachable_invariant; [|apply sm_conversations_nodup_step].
  intros u us. simpl. by rewrite lookup_empty.
Qed.

(** * What the disconnect loops leave and send *)

Lemma left_notifications_app userId room effs1 effs2 :
  left_notifications userId room (effs1 ++ effs2)
  = (left_notifications userId room effs1 + left_notifications userId room effs2)%nat.
Proof. unfold left_notifications. by rewrite filter_app, length_app. Qed.

Lemma left_notifications_rooms userId room (rooms : list string) :
  NoDup rooms →
  left_notifications userId room
    ((λ conversationId,
        emit (to_room conversationId)
          (SocketChat.user_left_conversation userId conversationId (Some "disconnect")))
       <$> rooms)
  = if bool_decide (room ∈ rooms) then 1%nat else 0%nat.
Proof.
  unfold left_notifications. induction 1 as [|x l Hx Hnd IH]; [done|].
  rewrite fmap_cons, filter_cons. simpl.
  rewrite (bool_decide_eq_true_2 (userId = userId)) by done.
  destruct (decide (x = room)) as [->|Hne].
  - rewrite !bool_decide_eq_true_2 by (done || left). simpl.
    rewrite IH. by rewrite bool_decide_eq_false_2.
  - rewrite (bool_decide_eq_false_2 (x = room)) by done. simpl. rewrite IH.
    rewrite (bool_decide_ext (room ∈ x :: l) (room ∈ l)); [done|].
    rewrite elem_of_cons. split; [by intros [->|?] | by right].
Qed.

Lemma left_notifications_calls userId room u entries (s : SocketChat.SocketManager) :
  left_notifications userId room (SocketChat.end_calls_of u entries s).2 = 0%nat.
Proof.
  rewrite sm_end_calls_of_effects. unfold left_notifications.
  induction (filter _ entries) as [|e l IH]; [done|].
  rewrite fmap_cons, filter_cons. simpl. apply IH.
Qed.

Lemma sm_end_calls_of_rest userId (s : SocketChat.SocketManager) e :
  e ∈ SocketChat.activeCalls (SocketChat.end_calls_of userId (SocketChat.activeCalls s) s).1 →
  SocketChat.is_party userId e.2 = false.
Proof.
  rewrite sm_end_calls_of_calls. intros [Hk He]%list_elem_of_filter.
  destruct (SocketChat.is_party userId e.2) eqn:Hp; [|done].
  destruct Hk. apply list_elem_of_fmap. exists e. split; [done|].
  apply list_elem_of_filter. split; [by rewrite Hp | done].
Qed.

Lemma ch_end_calls_of_calls now userId entries (s : CallHandler.State) :
  CallHandler.activeCalls (CallHandler.end_calls_of now userId entries s).1
  = filter (λ kv, kv.1 ∉ (filter (λ e, CallHandler.is_party userId e.2) entries).*1)
      (CallHandler.activeCalls s).
Proof.
  revert s. induction entries as [|[c d] rest IH]; intros s; simpl.
  - symmetry. apply filter_all. intros ? _. apply not_elem_of_nil.
  - rewrite filter_cons. simpl. destruct (CallHandler.is_party userId d) eqn:Hp; simpl.
    + rewrite IH, ch_activeCalls_clearCallTimeout. simpl.
      unfold JSMap.delete. rewrite list_filter_filter.
      apply list_filter_iff. intros [k v]. simpl. rewrite not_elem_of_cons. tauto.
    + apply IH.
Qed.

Lemma ch_end_calls_of_effects now userId entries (s : CallHandler.State) :
  (CallHandler.end_calls_of now userId entries s).2
  = (λ e, emit (to_room (CallHandler.otherUserId userId e.2))
            (CallHandler.call_ended e.1 userId (Some "User disconnected")
               (getCallDuration now (CallHandler.CallData.timestamp e.2))))
      <$> filter (λ e, CallHandler.is_party userId e.2) entries.
Proof.
  revert s. induction entries as [|[c d] rest IH]; intros s; simpl; [done|].
  rewrite filter_cons. simpl. destruct (CallHandler.is_party userId d) eqn:Hp; simpl.
  - by rewrite IH.
  - apply IH.
Qed.

Lemma ch_end_calls_of_nop now userId entries (s : CallHandler.State) :
  (∀ e, e ∈ entries → CallHandler.is_party userId e.2 = false) →
  CallHandler.end_calls_of now userId entries s = (s, []).
Proof.
  revert s. induction entries as [|[c d] rest IH]; intros s Hno; simpl; [done|].
  pose proof (Hno (c, d) ltac:(left)) as Hd. simpl in Hd. rewrite Hd.
  apply IH. intros e He. apply Hno. by right.
Qed.

Lemma ch_end_calls_of_rest now userId (s : CallHandler.State) e :
  e ∈ CallHandler.activeCalls
        (CallHandler.end_calls_of now userId (CallHandler.activeCalls s) s).1 →
  CallHandler.is_party userId e.2 = false.
Proof.
  rewrite ch_end_calls_of_calls. intros [Hk He]%list_elem_of_filter.
  destruct (CallHandler.is_party userId e.2) eqn:Hp; [|done].
  destruct Hk. apply list_elem_of_fmap. exists e. split; [done|].
  apply list_elem_of_filter. split; [by rewrite Hp | done].
Qed.

(** * One call per callee (claim C1) *)

(** C1 on [CallHandler]: the busy check of [handleCallInitiate] only looks
    for a ringing call of the callee.  Once u2 has accepted c1, an initiate
    of u3 towards u2 is not refused: c2 is stored and rung while c1 is
    accepted, and the reachable state has two live calls with callee u2. *)
Theorem callhandler_rings_callee_in_accepted_call :
  CallHandler.handleCallInitiate 2000 "u3" "s3" "c2" "u2" audio "u3" "Cy" None ch_in_call
  = ((CallHandler.run ch_second_call_trace CallHandler.initial).1,
     [ emit (to_room "u2") (CallHandler.incoming_call "c2" audio "u3" "Cy" None 2000);
       emit (to_socket "s3") (CallHandler.call_initiated "c2" "u2" "ringing") ])
  ∧ CallHandler.reachable (CallHandler.run ch_second_call_trace CallHandler.initial).1
  ∧ ¬ ch_callee_unique (CallHandler.run ch_second_call_trace CallHandler.initial).1.
Proof.
  split; [by vm_compute|]. split; [by eexists|].
  intros H.
  specialize (H "c1" (CallHandler.CallData.mk "c1" video "u1" "Ann" None "u2" 0
                        CallHandler.accepted)
                "c2" (CallHandler.CallData.mk "c2" audio "u3" "Cy" None "u2" 2000
                        CallHandler.ringing)).
  assert (Hneq : "c1" ≠ "c2") by discriminate.
  apply Hneq, H; try by vm_compute.
  - by right.
  - by left.
Qed.

(** * Ringing calls and the passing of time (claim C4) *)

Lemma jsmap_has_set {V : Type} k k' (v : V) (m : JSMap.t V) :
  JSMap.has k m = true → JSMap.has k (JSMap.set k' v m) = true.
Proof.
  unfold JSMap.has. destruct (decide (k' = k)) as [->|Hne].
  - by rewrite jsmap_get_set_eq.
  - by rewrite jsmap_get_set_ne.
Qed.

Lemma sm_keeps_step callId a (s : SocketChat.SocketManager) :
  sm_keeps callId a = true →
  JSMap.has callId (SocketChat.activeCalls s) = true →
  JSMap.has callId (SocketChat.activeCalls (SocketChat.handle a s).1) = true.
Proof.
  destruct a as [now u sid e]. unfold sm_keeps. simpl.
  destruct e; simpl; intros Hk Hhas; try done.
  - unfold SocketChat.on_join_conversation. by repeat case_match.
  - unfold SocketChat.on_leave_conversation. by repeat case_match.
  - unfold SocketChat.on_send_message. by repeat case_match.
  - unfold SocketChat.on_call_initiate. repeat case_match; try done.
    simpl. by apply jsmap_has_set.
  - unfold SocketChat.on_call_accept. by repeat case_match.
  - apply bool_decide_eq_true in Hk. unfold JSMap.has.
    by rewrite jsmap_get_delete_ne.
  - apply bool_decide_eq_true in Hk. unfold JSMap.has.
    by rewrite jsmap_get_delete_ne.
  - apply bool_decide_eq_true in Hk. unfold JSMap.has.
    by rewrite jsmap_get_delete_ne.
  - unfold SocketChat.on_webrtc_offer. by case_match.
  - unfold SocketChat.on_webrtc_answer. by case_match.
  - unfold SocketChat.on_webrtc_ice_candidate. by case_match.
Qed.

(** C4 on [socket.chat.ts]: this file schedules no timer, and every arrival
    its event loop knows is a client event.  A stored call therefore stays
    stored through any sequence of arrivals, at any clock readings, that
    contains no reject, end or client-sent [call:timeout] naming it and no
    disconnect: no deadline removes it. *)
Theorem socket_chat_call_never_expires callId evs (s : SocketChat.SocketManager) :
  JSMap.has callId (SocketChat.activeCalls s) = true →
  Forall (λ a, sm_keeps callId a = true) evs →
  JSMap.has callId (SocketChat.activeCalls (SocketChat.run evs s).1) = true.
Proof.
  intros Hhas Hevs. revert s Hhas.
  induction Hevs as [|a rest Ha _ IH]; intros s Hhas; simpl; [done|].
  by apply IH, sm_keeps_step.
Qed.

(** u1 rings u2 at clock reading 3; ten minutes later, with only unrelated
    traffic in between, the record is still there. *)
Lemma socket_chat_call_never_expires_witness :
  JSMap.has "c1"
    (SocketChat.activeCalls
       (SocketChat.run
          [ SocketChat.mkArrival 30003 "u3" "s3" (SocketChat.Event.typing_start "u1");
            SocketChat.mkArrival 600003 "u3" "s3" (SocketChat.Event.typing_stop "u1") ]
          sm_ringing).1) = true.
Proof.
  apply socket_chat_call_never_expires.
  - vm_compute. reflexivity.
  - repeat constructor.
Defined.

(** ** The server-side timer of the version with [callTimeouts]

    The sibling version of the file does schedule a timer at initiate; these
    lemmas record what it does. *)

Lemma smt_initiate_arms_timer now userId socketId c r t n i rn
    (s : SocketChatTimed.SocketManager) :
  is_Some (SocketChatTimed.connectedUsers s !! r) →
  List.find (λ call, bool_decide (SocketChatTimed.CallData.recipientId call = r))
    (JSMap.values (SocketChatTimed.activeCalls s)) = None →
  let s' := (SocketChatTimed.on_call_initiate now userId socketId c r t userId n i rn s).1 in
  JSMap.has c (SocketChatTimed.activeCalls s') = true
  ∧ SocketChatTimed.callTimeouts s' !! c = Some (SocketChatTimed.nextTimer s)
  ∧ SocketChatTimed.timers s' !! SocketChatTimed.nextTimer s
    = Some (Timer.mk (now + CALL_TIMEOUT_MS) c).
Proof.
  intros [us Hon] Hfree. unfold SocketChatTimed.on_call_initiate.
  rewrite bool_decide_false by (by intros ?). rewrite Hon, Hfree. simpl.
  unfold JSMap.has. rewrite jsmap_get_set_eq. by rewrite !lookup_insert_eq.
Qed.

Lemma smt_timer_expires_call now h t d (s : SocketChatTimed.SocketManager) :
  SocketChatTimed.timers s !! h = Some t →
  (Timer.due t ≤ now)%Z →
  JSMap.get (Timer.callId t) (SocketChatTimed.activeCalls s) = Some d →
  let r := SocketChatTimed.on_timer now h s in
  JSMap.get (Timer.callId t) (SocketChatTimed.activeCalls r.1) = None
  ∧ SocketChatTimed.callTimeouts r.1 !! Timer.callId t = None
  ∧ SocketChatTimed.timers r.1 !! h = None
  ∧ r.2 = [ emit (to_room (SocketChatTimed.CallData.callerId d))
              (SocketChatTimed.call_timeout (Timer.callId t)
                 (Some "No answer from recipient"));
            emit (to_room (SocketChatTimed.CallData.recipientId d))
              (SocketChatTimed.call_timeout (Timer.callId t) (Some "Call timed out")) ].
Proof.
  intros Ht Hdue Hget. unfold SocketChatTimed.on_timer. rewrite Ht.
  rewrite bool_decide_eq_true_2 by done.
  unfold SocketChatTimed.call_timeout_callback. simpl. rewrite Hget. simpl.
  by rewrite jsmap_get_delete_eq, !lookup_delete_eq.
Qed.

(** A timer runs once: after it ran, its handle is no longer pending. *)
Lemma smt_timer_runs_once now now' h t (s : SocketChatTimed.SocketManager) :
  SocketChatTimed.timers s !! h = Some t →
  (Timer.due t ≤ now)%Z →
  SocketChatTimed.on_timer now' h (SocketChatTimed.on_timer now h s).1
  = ((SocketChatTimed.on_timer now h s).1, []).
Proof.
  intros Ht Hdue.
  assert (Hgone : SocketChatTimed.timers (SocketChatTimed.on_timer now h s).1 !! h = None).
  { unfold SocketChatTimed.on_timer. rewrite Ht.
    rewrite bool_decide_eq_true_2 by done.
    unfold SocketChatTimed.call_timeout_callback. simpl.
    destruct (JSMap.get _ _); simpl; apply lookup_delete_eq. }
  unfold SocketChatTimed.on_timer at 1. by rewrite Hgone.
Qed.

(** A timer that runs after its call's record was removed does nothing to
    the call map and notifies nobody. *)
Lemma smt_timer_after_removal now h t (s : SocketChatTimed.SocketManager) :
  SocketChatTimed.timers s !! h = Some t →
  JSMap.get (Timer.callId t) (SocketChatTimed.activeCalls s) = None →
  let r := SocketChatTimed.on_timer now h s in
  SocketChatTimed.activeCalls r.1 = SocketChatTimed.activeCalls s ∧ r.2 = [].
Proof.
  intros Ht Hget. unfold SocketChatTimed.on_timer. rewrite Ht.
  case_bool_decide; [|done].
  unfold SocketChatTimed.call_timeout_callback. simpl. by rewrite Hget.
Qed.

(** u1 rings u2 at clock reading 2 and nobody answers: the timer set at
    initiate runs at 30002, notifies both, and the record is gone; the
    handle cannot run again. *)
Example smt_unanswered_call_times_out :
  let trace :=
    [ SocketChatTimed.from_socket 0 "u1" "s1" SocketChatTimed.Event.connection;
      SocketChatTimed.from_socket 1 "u2" "s2" SocketChatTimed.Event.connection;
      SocketChatTimed.from_socket 2 "u1" "s1"
        (SocketChatTimed.Event.call_initiate "c1" "u2" video "u1" "Ann" None "Bob") ] in
  let s := (SocketChatTimed.run trace SocketChatTimed.initial).1 in
  let r := SocketChatTimed.handle (SocketChatTimed.timer_fired 30002 0) s in
  SocketChatTimed.timers s !! 0%nat = Some (Timer.mk 30002 "c1")
  ∧ JSMap.has "c1" (SocketChatTimed.activeCalls s) = true
  ∧ SocketChatTimed.activeCalls r.1 = []
  ∧ r.2 = [ emit (to_room "u1")
              (SocketChatTimed.call_timeout "c1" (Some "No answer from recipient"));
            emit (to_room "u2")
              (SocketChatTimed.call_timeout "c1" (Some "Call timed out")) ]
  ∧ SocketChatTimed.handle (SocketChatTimed.timer_fired 30003 0) r.1 = (r.1, []).
Proof. by vm_compute. Qed.

(** ** The deadline in the version with [callTimeouts] *)

Lemma smt_run_invariant (P : SocketChatTimed.SocketManager → Prop) :
  (∀ a s, P s → P (SocketChatTimed.handle a s).1) →
  ∀ evs s, P s → P (SocketChatTimed.run evs s).1.
Proof.
  intros Hstep evs. induction evs as [|a rest IH]; intros s Hs; simpl; [done|].
  apply IH, Hstep, Hs.
Qed.

Lemma smt_clearCallTimeout_fields k (s : SocketChatTimed.SocketManager) :
  let s' := SocketChatTimed.clearCallTimeout k s in
  SocketChatTimed.activeCalls s' = SocketChatTimed.activeCalls s
  ∧ SocketChatTimed.connectedUsers s' = SocketChatTimed.connectedUsers s
  ∧ SocketChatTimed.nextTimer s' = SocketChatTimed.nextTimer s
  ∧ SocketChatTimed.callTimeouts s' = delete k (SocketChatTimed.callTimeouts s)
  ∧ SocketChatTimed.timers s'
    = match SocketChatTimed.callTimeouts s !! k with
      | Some h => delete h (SocketChatTimed.timers s)
      | None => SocketChatTimed.timers s
      end.
Proof.
  unfold SocketChatTimed.clearCallTimeout.
  destruct (SocketChatTimed.callTimeouts s !! k) eqn:Hk; simpl; repeat split; try done.
  symmetry. by apply delete_id.
Qed.

Lemma smt_handles_fresh_clear k (s : SocketChatTimed.SocketManager) :
  smt_handles_fresh s → smt_handles_fresh (SocketChatTimed.clearCallTimeout k s).
Proof.
  intros Hf k' h. destruct (smt_clearCallTimeout_fields k s) as (_ & _ & -> & -> & _).
  intros [_ H]%lookup_delete_Some. by eapply Hf.
Qed.

Lemma smt_handles_fresh_ext (s s' : SocketChatTimed.SocketManager) :
  SocketChatTimed.callTimeouts s' = SocketChatTimed.callTimeouts s →
  SocketChatTimed.nextTimer s' = SocketChatTimed.nextTimer s →
  smt_handles_fresh s → smt_handles_fresh s'.
Proof. unfold smt_handles_fresh. by intros -> ->. Qed.

Lemma smt_handles_fresh_end_calls now userId entries (s : SocketChatTimed.SocketManager) :
  smt_handles_fresh s →
  smt_handles_fresh (SocketChatTimed.end_calls_of now userId entries s).1.
Proof.
  revert s. induction entries as [|[c d] rest IH]; intros s Hf; simpl; [done|].
  destruct (SocketChatTimed.is_party userId d); simpl; [|by apply IH].
  apply IH, smt_handles_fresh_clear. by eapply smt_handles_fresh_ext.
Qed.

Ltac smt_handlers :=
  unfold SocketChatTimed.on_ping, SocketChatTimed.on_join_conversation,
    SocketChatTimed.on_leave_conversation, SocketChatTimed.on_send_message,
    SocketChatTimed.on_call_initiate, SocketChatTimed.on_call_accept,
    SocketChatTimed.on_webrtc_offer, SocketChatTimed.on_webrtc_answer,
    SocketChatTimed.on_webrtc_ice_candidate;
  repeat case_match; simpl.

Lemma smt_handles_fresh_step a (s : SocketChatTimed.SocketManager) :
  smt_handles_fresh s → smt_handles_fresh (SocketChatTimed.handle a s).1.
Proof.
  intros Hf. destruct a as [now u sid e|now h]; simpl.
  - destruct e; simpl; smt_handlers; try done;
      try (apply smt_handles_fresh_clear; by eapply smt_handles_fresh_ext).
    + match goal with H : SocketChatTimed.setTimeout _ _ _ _ = _ |- _ =>
        injection H as <- <- end.
      intros k h. simpl. rewrite lookup_insert.
      destruct (decide (callId = k)).
      * intros [= <-]. lia.
      * intros Hk. apply Hf in Hk. lia.
    + eapply smt_handles_fresh_ext; [| |by apply (smt_handles_fresh_end_calls now u)]; done.
  - unfold SocketChatTimed.on_timer. repeat case_match; try done.
    unfold SocketChatTimed.call_timeout_callback. simpl.
    case_match; simpl; [|done].
    intros k h'. simpl. intros [_ Hk]%lookup_delete_Some. by eapply Hf.
Qed.

Lemma smt_reachable_handles_fresh s :
  SocketChatTimed.reachable s → smt_handles_fresh s.
Proof.
  intros [evs <-]. apply smt_run_invariant; [apply smt_handles_fresh_step|].
  intros k h. simpl. by rewrite lookup_empty.
Qed.

Lemma smt_pending_clear c D k (s : SocketChatTimed.SocketManager) :
  k ≠ c → smt_timer_pending c D s →
  smt_timer_pending c D (SocketChatTimed.clearCallTimeout k s).
Proof.
  intros Hne Hp.
  destruct (smt_clearCallTimeout_fields k s) as (Hac & _ & Hnt & Hct & Htm).
  unfold smt_timer_pending. rewrite Hac, Hnt, Hct, Htm. intros Hhas.
  destruct (Hp Hhas) as (h & t & Ht & Hc & Hd & Hlt & Hreg).
  exists h, t. repeat split; try done.
  - destruct (SocketChatTimed.callTimeouts s !! k) as [h'|] eqn:Hk; [|done].
    rewrite lookup_delete_ne; [done|]. intros ->. by destruct Hne, (Hreg k).
  - intros k' [_ Hk']%lookup_delete_Some. by apply Hreg.
Qed.

Lemma smt_pending_remove c D k (s : SocketChatTimed.SocketManager) :
  smt_timer_pending c D s →
  smt_timer_pending c D
    (SocketChatTimed.clearCallTimeout k
       (SocketChatTimed.with_activeCalls (JSMap.delete k) s)).
Proof.
  intros Hp. destruct (decide (k = c)) as [->|Hne].
  - intros Hhas.
    destruct (smt_clearCallTimeout_fields c
                (SocketChatTimed.with_activeCalls (JSMap.delete c) s)) as (Hac & _).
    rewrite Hac in Hhas. simpl in Hhas. unfold JSMap.has in Hhas.
    by rewrite jsmap_get_delete_eq in Hhas.
  - apply smt_pending_clear; [done|]. unfold smt_timer_pending. simpl.
    unfold JSMap.has. by rewrite jsmap_get_delete_ne.
Qed.

Lemma smt_pending_end_calls c D now userId entries (s : SocketChatTimed.SocketManager) :
  smt_timer_pending c D s →
  smt_timer_pending c D (SocketChatTimed.end_calls_of now userId entries s).1.
Proof.
  revert s. induction entries as [|[k d] rest IH]; intros s Hp; simpl; [done|].
  destruct (SocketChatTimed.is_party userId d); simpl; [|by apply IH].
  by apply IH, smt_pending_remove.
Qed.

Lemma smt_pending_timer c D now h (s : SocketChatTimed.SocketManager) :
  smt_timer_pending c D s →
  smt_timer_pending c D (SocketChatTimed.on_timer now h s).1.
Proof.
  intros Hp. unfold SocketChatTimed.on_timer.
  destruct (SocketChatTimed.timers s !! h) as [t|] eqn:Ht; [|done].
  case_bool_decide; [|done].
  unfold SocketChatTimed.call_timeout_callback. simpl.
  destruct (JSMap.get (Timer.callId t) (SocketChatTimed.activeCalls s)) as [d|] eqn:Hget;
    simpl.
  - destruct (decide (Timer.callId t = c)) as [<-|Hc].
    + intros Hhas. simpl in Hhas. unfold JSMap.has in Hhas.
      by rewrite jsmap_get_delete_eq in Hhas.
    + unfold smt_timer_pending. simpl. unfold JSMap.has.
      rewrite jsmap_get_delete_ne by done. intros Hhas.
      destruct (Hp Hhas) as (h0 & t0 & Ht0 & Hc0 & Hd & Hlt & Hreg).
      exists h0, t0. repeat split; try done.
      * rewrite lookup_delete_ne; [done|]. intros ->. congruence.
      * intros k [_ Hk]%lookup_delete_Some. by apply Hreg.
  - unfold smt_timer_pending. simpl. intros Hhas.
    destruct (Hp Hhas) as (h0 & t0 & Ht0 & Hc0 & Hd & Hlt & Hreg).
    exists h0, t0. repeat split; try done.
    rewrite lookup_delete_ne; [done|]. intros ->.
    unfold JSMap.has in Hhas. assert (t0 = t) as -> by congruence.
    by rewrite <- Hc0, Hget in Hhas.
Qed.

Lemma smt_timer_pending_step c D a (s : SocketChatTimed.SocketManager) :
  smt_unanswered c a = true →
  smt_timer_pending c D s →
  smt_timer_pending c D (SocketChatTimed.handle a s).1.
Proof.
  intros Hun Hp. destruct a as [now u sid e|now h]; simpl;
    [|by apply smt_pending_timer].
  destruct e; simpl in *; smt_handlers; try done;
    try (by apply smt_pending_remove).
  - match goal with H : SocketChatTimed.setTimeout _ _ _ _ = _ |- _ =>
      injection H as <- <- end.
    apply bool_decide_eq_true in Hun.
    unfold smt_timer_pending. simpl. unfold JSMap.has.
    rewrite jsmap_get_set_ne by done. intros Hhas.
    destruct (Hp Hhas) as (h0 & t0 & Ht0 & Hc0 & Hd & Hlt & Hreg).
    exists h0, t0. repeat split; try done.
    + rewrite lookup_insert_ne; [done|lia].
    + lia.
    + intros k. rewrite lookup_insert. destruct (decide (callId = k)).
      * intros [= <-]. lia.
      * apply Hreg.
  - apply bool_decide_eq_true in Hun. by apply smt_pending_clear.
  - by apply (smt_pending_end_calls c D now u).
Qed.

(** The version with [callTimeouts] keeps the deadline: in a reachable
    state u rings r, who is online and has no call, with call [c] at clock
    reading [now]; whatever arrives next, as long as nobody accepts [c] and
    no further initiate reuses the id, at any clock reading past
    [now + 30000] at which no pending timer is overdue the record of [c] is
    gone. *)
Lemma smt_ringing_call_gone_after_deadline now u sid c r t n i rn evs later
    (s : SocketChatTimed.SocketManager) :
  SocketChatTimed.reachable s →
  is_Some (SocketChatTimed.connectedUsers s !! r) →
  List.find (λ call, bool_decide (SocketChatTimed.CallData.recipientId call = r))
    (JSMap.values (SocketChatTimed.activeCalls s)) = None →
  let s1 := (SocketChatTimed.on_call_initiate now u sid c r t u n i rn s).1 in
  Forall (λ a, smt_unanswered c a = true) evs →
  let s2 := (SocketChatTimed.run evs s1).1 in
  smt_punctual s2 later →
  (now + CALL_TIMEOUT_MS < later)%Z →
  JSMap.has c (SocketChatTimed.activeCalls s2) = false.
Proof.
  intros Hreach [us Hon] Hfree s1 Hevs s2 Hpunct Hlate.
  assert (Hp1 : smt_timer_pending c (now + CALL_TIMEOUT_MS) s1).
  { subst s1. unfold SocketChatTimed.on_call_initiate.
    rewrite bool_decide_false by (by intros ?). rewrite Hon, Hfree. simpl.
    intros _. exists (SocketChatTimed.nextTimer s), (Timer.mk (now + CALL_TIMEOUT_MS) c).
    simpl. rewrite lookup_insert_eq. repeat split; try done; [lia|].
    intros k. rewrite lookup_insert. destruct (decide (c = k)); [done|].
    intros Hk. apply (smt_reachable_handles_fresh s Hreach) in Hk. lia. }
  assert (Hp2 : smt_timer_pending c (now + CALL_TIMEOUT_MS) s2).
  { subst s2. clear Hpunct. revert Hp1. generalize s1. clear s1.
    induction Hevs as [|a rest Ha _ IH]; intros s1 Hp1; simpl; [done|].
    by apply IH, smt_timer_pending_step. }
  destruct (JSMap.has c (SocketChatTimed.activeCalls s2)) eqn:Hhas; [|done].
  destruct (Hp2 Hhas) as (h & tm & Ht & _ & Hdue & _).
  apply Hpunct in Ht. lia.
Qed.

(** The unanswered call of [smt_unanswered_call_times_out], seen through the
    lemma: once the timer has run at 30002, the record is gone at 40000. *)
Example smt_deadline_instance :
  let s :=
    (SocketChatTimed.run
       [ SocketChatTimed.from_socket 0 "u1" "s1" SocketChatTimed.Event.connection;
         SocketChatTimed.from_socket 1 "u2" "s2" SocketChatTimed.Event.connection ]
       SocketChatTimed.initial).1 in
  let s1 :=
    (SocketChatTimed.on_call_initiate 2 "u1" "s1" "c1" "u2" video "u1" "Ann" None "Bob" s).1 in
  JSMap.has "c1"
    (SocketChatTimed.activeCalls
       (SocketChatTimed.run [ SocketChatTimed.timer_fired 30002 0 ] s1).1) = false.
Proof.
  intros s s1.
  apply (smt_ringing_call_gone_after_deadline 2 "u1" "s1" "c1" "u2" video "Ann" None "Bob"
           [ SocketChatTimed.timer_fired 30002 0 ] 40000 s).
  - by eexists.
  - vm_compute. by eexists.
  - by vm_compute.
  - by repeat constructor.
  - intros h t. vm_compute. discriminate.
  - unfold CALL_TIMEOUT_MS. lia.
Qed.

(** ** The call map of [socket.chat.ts] is a well-formed [Map] *)

Lemma sm_keys_nodup_step a (s : SocketChat.SocketManager) :
  sm_keys_nodup s → sm_keys_nodup (SocketChat.handle a s).1.
Proof.
  unfold sm_keys_nodup. intros Hinv. destruct a as [now u sid e].
  destruct e; simpl; try done.
  - unfold SocketChat.on_join_conversation. by repeat case_match.
  - unfold SocketChat.on_leave_conversation. by repeat case_match.
  - unfold SocketChat.on_send_message. by repeat case_match.
  - unfold SocketChat.on_call_initiate. repeat case_match; try done.
    simpl. by apply jsmap_keys_set_nodup.
  - unfold SocketChat.on_call_accept. by repeat case_match.
  - by apply jsmap_keys_filter_nodup.
  - by apply jsmap_keys_filter_nodup.
  - by apply jsmap_keys_filter_nodup.
  - unfold SocketChat.on_webrtc_offer. by case_match.
  - unfold SocketChat.on_webrtc_answer. by case_match.
  - unfold SocketChat.on_webrtc_ice_candidate. by case_match.
  - rewrite sm_end_calls_of_calls. by apply jsmap_keys_filter_nodup.
Qed.

Lemma sm_reachable_keys_nodup s : SocketChat.reachable s → sm_keys_nodup s.
Proof.
  apply sm_reachable_invariant; [|apply sm_keys_nodup_step]. apply NoDup_nil_2.
Qed.

(** A disconnect removes nothing but the calls of the departing user. *)
Lemma sm_disconnect_keeps_other_calls (s : SocketChat.SocketManager) userId c d :
  SocketChat.reachable s →
  JSMap.get c (SocketChat.activeCalls s) = Some d →
  SocketChat.is_party userId d = false →
  JSMap.get c (SocketChat.activeCalls (SocketChat.on_disconnect userId s).1) = Some d.
Proof.
  intros Hreach Hget Hp. unfold SocketChat.on_disconnect. simpl.
  rewrite sm_end_calls_of_calls.
  pose proof (jsmap_get_filter_keys
                (λ k, k ∉ (filter (λ e, SocketChat.is_party userId e.2)
                             (SocketChat.activeCalls s)).*1)
                c (SocketChat.activeCalls s)) as E.
  simpl in E. rewrite E. rewrite decide_True; [done|].
  intros Hin. apply list_elem_of_fmap in Hin as [[c' d'] [Hc [Hp' Hin]%list_elem_of_filter]].
  simpl in *. subst c'.
  apply (jsmap_get_elem_nodup _ _ _ (sm_reachable_keys_nodup s Hreach)) in Hin.
  assert (d' = d) as -> by congruence. by rewrite Hp in Hp'.
Qed.


(** * Conversation keys *)

(** X1: the conversation key does not depend on the order of the two user
    ids: both parties of a conversation compute the same room name. *)
Theorem createConversationId_comm userId1 userId2 :
  createConversationId userId1 userId2 = createConversationId userId2 userId1.
Proof.
  unfold createConversationId.
  destruct (String.leb userId1 userId2) eqn:H12, (String.leb userId2 userId1) eqn:H21;
    try done.
  - by rewrite (String.leb_antisym _ _ H12 H21).
  - destruct (String.leb_total userId1 userId2); congruence.
Qed.

Lemma append_separator_inj a b c d :
  no_underscore a → no_underscore c →
  a +:+ "_" +:+ b = c +:+ "_" +:+ d → a = c ∧ b = d.
Proof.
  unfold no_underscore. revert c. induction a as [|x a IH]; intros [|y c]; simpl.
  - intros _ _ [= Heq]. by subst.
  - intros _ Hc [= Hy _]. subst y. by rewrite bool_decide_eq_true_2 in Hc.
  - intros Ha _ [= Hx _]. subst x. by rewrite bool_decide_eq_true_2 in Ha.
  - intros [_ Ha]%orb_false_iff [_ Hc]%orb_false_iff [= Hxy Heq]. subst y.
    destruct (IH c Ha Hc Heq) as [Hac Hbd]. by subst.
Qed.

(** X2: on user ids that contain no underscore the conversation key
    determines the unordered pair of users: two different pairs never share a
    room name. *)
Theorem createConversationId_inj a b c d :
  no_underscore a → no_underscore b → no_underscore c → no_underscore d →
  createConversationId a b = createConversationId c d →
  (a = c ∧ b = d) ∨ (a = d ∧ b = c).
Proof.
  intros Ha Hb Hc Hd. unfold createConversationId.
  destruct (String.leb a b), (String.leb c d); intros Heq;
    apply append_separator_inj in Heq as [-> ->]; auto.
Qed.

Lemma createConversationId_inj_witness :
  ("u1" = "u2" ∧ "u2" = "u1") ∨ ("u1" = "u1" ∧ "u2" = "u2").
Proof.
  apply (createConversationId_inj "u1" "u2" "u2" "u1"); reflexivity.
Defined.

(** With an underscore in an id the key is ambiguous: the pair a, b_c and
    the pair a_b, c share the room a_b_c. *)
Example createConversationId_collision :
  createConversationId "a" "b_c" = createConversationId "a_b" "c".
Proof. reflexivity. Qed.

(** * The rooms of [socket.chat.ts] *)

(** What an arrival does to the room stored under [k]: nothing, or it
    refreshes its [lastActivity], or it creates it for the pair of the
    sender and the user named in the payload. *)
Lemma sm_handle_rooms a (s : SocketChat.SocketManager) k :
  SocketChat.activeConversations (SocketChat.handle a s).1 !! k
  = SocketChat.activeConversations s !! k
  ∨ (∃ conv now,
       SocketChat.activeConversations s !! k = Some conv
       ∧ SocketChat.activeConversations (SocketChat.handle a s).1 !! k
         = Some (touch now conv))
  ∨ (∃ u o now,
       SocketChat.activeConversations s !! k = None
       ∧ k = createConversationId u o
       ∧ SocketChat.activeConversations (SocketChat.handle a s).1 !! k
         = Some (ActiveConversation.mk [u; o] k now)).
Proof.
  destruct a as [now u sid e]. destruct e; simpl; try (by left).
  - unfold SocketChat.on_join_conversation. simpl.
    set (cid := createConversationId u otherUserId).
    destruct (SocketChat.activeConversations s !! cid) as [conv|] eqn:Hc.
    + assert (SocketChat.activeConversations
                match SocketChat.connectedUsers
                        (SocketChat.with_activeConversations (alter (touch now) cid) s)
                      !! u with
                | Some userSocket =>
                    if bool_decide (cid ∈ UserSocket.activeConversations userSocket)
                    then SocketChat.with_activeConversations (alter (touch now) cid) s
                    else SocketChat.with_connectedUsers
                           (insert u
                              (set_activeConversations
                                 (UserSocket.activeConversations userSocket ++ [cid])
                                 userSocket))
                           (SocketChat.with_activeConversations
                              (alter (touch now) cid) s)
                | None => SocketChat.with_activeConversations (alter (touch now) cid) s
                end
              = alter (touch now) cid (SocketChat.activeConversations s)) as ->
        by (by repeat case_match).
      destruct (decide (cid = k)) as [<-|Hne].
      * right; left. exists conv, now. by rewrite lookup_alter_eq, Hc.
      * left. by rewrite lookup_alter_ne.
    + assert (SocketChat.activeConversations
                match SocketChat.connectedUsers
                        (SocketChat.with_activeConversations
                           (insert cid (ActiveConversation.mk [u; otherUserId] cid now)) s)
                      !! u with
                | Some userSocket =>
                    if bool_decide (cid ∈ UserSocket.activeConversations userSocket)
                    then SocketChat.with_activeConversations
                           (insert cid (ActiveConversation.mk [u; otherUserId] cid now)) s
                    else SocketChat.with_connectedUsers
                           (insert u
                              (set_activeConversations
                                 (UserSocket.activeConversations userSocket ++ [cid])
                                 userSocket))
                           (SocketChat.with_activeConversations
                              (insert cid
                                 (ActiveConversation.mk [u; otherUserId] cid now)) s)
                | None =>
                    SocketChat.with_activeConversations
                      (insert cid (ActiveConversation.mk [u; otherUserId] cid now)) s
                end
              = <[cid := ActiveConversation.mk [u; otherUserId] cid now]>
                  (SocketChat.activeConversations s)) as ->
        by (by repeat case_match).
      destruct (decide (cid = k)) as [<-|Hne].
      * right; right. exists u, otherUserId, now. by rewrite lookup_insert_eq.
      * left. by rewrite lookup_insert_ne.
  - left. unfold SocketChat.on_leave_conversation. by repeat case_match.
  - unfold SocketChat.on_send_message. simpl.
    set (cid := createConversationId u receiverId).
    destruct (SocketChat.activeConversations s !! cid) as [conv|] eqn:Hc; simpl.
    + destruct (decide (cid = k)) as [<-|Hne].
      * right; left. exists conv, now. by rewrite lookup_alter_eq, Hc.
      * left. by rewrite lookup_alter_ne.
    + destruct (decide (cid = k)) as [<-|Hne].
      * right; right. exists u, receiverId, now.
        by rewrite lookup_alter_eq, lookup_insert_eq.
      * left. by rewrite lookup_alter_ne, lookup_insert_ne.
  - left. unfold SocketChat.on_call_initiate. by repeat case_match.
  - left. unfold SocketChat.on_call_accept. by repeat case_match.
  - left. unfold SocketChat.on_webrtc_offer. by case_match.
  - left. unfold SocketChat.on_webrtc_answer. by case_match.
  - left. unfold SocketChat.on_webrtc_ice_candidate. by case_match.
  - left. by rewrite (proj1 (sm_end_calls_of_others u (SocketChat.activeCalls s) s)).
Qed.

Lemma sm_rooms_wf_step a s : sm_rooms_wf s → sm_rooms_wf (SocketChat.handle a s).1.
Proof.
  intros Hinv k conv'.
  destruct (sm_handle_rooms a s k)
    as [->|[(conv & now & Hk & ->)|(u & o & now & Hk & -> & ->)]].
  - apply Hinv.
  - intros [= <-]. by apply Hinv in Hk.
  - intros [= <-]. simpl. eauto.
Qed.

(** X3: in every reachable state of [socket.chat.ts], a room record is
    stored under its own [roomId] and its participants are exactly two user
    ids whose conversation key is that name. *)
Theorem rooms_are_named_after_their_pair (s : SocketChat.SocketManager) cid conv :
  SocketChat.reachable s →
  SocketChat.activeConversations s !! cid = Some conv →
  ActiveConversation.roomId conv = cid
  ∧ ∃ a b, ActiveConversation.participants conv = [a; b]
           ∧ createConversationId a b = cid.
Proof.
  intros Hreach. revert cid conv. change (sm_rooms_wf s). revert s Hreach.
  apply sm_reachable_invariant; [|apply sm_rooms_wf_step].
  intros cid conv. simpl. by rewrite lookup_empty.
Qed.

Lemma rooms_are_named_after_their_pair_witness :
  ActiveConversation.roomId (ActiveConversation.mk ["u2"; "u1"] "u1_u2" 4) = "u1_u2"
  ∧ ∃ a b, ActiveConversation.participants
             (ActiveConversation.mk ["u2"; "u1"] "u1_u2" 4) = [a; b]
           ∧ createConversationId a b = "u1_u2".
Proof.
  apply (rooms_are_named_after_their_pair sm_in_rooms).
  - by eexists.
  - by vm_compute.
Defined.

(** X4: a room is never removed and its participants and name never change:
    whatever arrives, a room that is stored stays stored with the same
    [participants] and [roomId]; only [lastActivity] moves. *)
Theorem rooms_are_permanent evs (s : SocketChat.SocketManager) cid conv :
  SocketChat.activeConversations s !! cid = Some conv →
  ∃ conv',
    SocketChat.activeConversations (SocketChat.run evs s).1 !! cid = Some conv'
    ∧ ActiveConversation.participants conv' = ActiveConversation.participants conv
    ∧ ActiveConversation.roomId conv' = ActiveConversation.roomId conv.
Proof.
  revert s conv. induction evs as [|a rest IH]; intros s conv Hk; simpl; [by eauto|].
  destruct (sm_handle_rooms a s cid) as [Heq|[(c0 & now & Hk0 & Hafter)|(u & o & now & Hk0 & _)]].
  - rewrite <- Heq in Hk. apply (IH _ _ Hk).
  - assert (c0 = conv) as -> by congruence.
    destruct (IH _ _ Hafter) as (conv' & ? & ? & ?). by exists conv'.
  - congruence.
Qed.

Lemma rooms_are_permanent_witness :
  ∃ conv',
    SocketChat.activeConversations
      (SocketChat.run
         [ SocketChat.mkArrival 6 "u2" "s2" (SocketChat.Event.leave_conversation "u1");
           SocketChat.mkArrival 7 "u2" "s2" SocketChat.Event.disconnect;
           SocketChat.mkArrival 8 "u1" "s1" SocketChat.Event.disconnect ]
         sm_in_rooms).1 !! "u1_u2" = Some conv'
    ∧ ActiveConversation.participants conv' = ["u2"; "u1"]
    ∧ ActiveConversation.roomId conv' = "u1_u2".
Proof.
  apply (rooms_are_permanent _ sm_in_rooms "u1_u2"
           (ActiveConversation.mk ["u2"; "u1"] "u1_u2" 4)).
  by vm_compute.
Defined.

(** * The call map of [socket.chat.ts] in reachable states *)

(** A record found after an arrival was there before, or the arrival was an
    initiate that stored it: under its own id, for a registered callee. *)
Lemma sm_handle_new_call a (s : SocketChat.SocketManager) k d :
  JSMap.get k (SocketChat.activeCalls (SocketChat.handle a s).1) = Some d →
  JSMap.get k (SocketChat.activeCalls s) = Some d
  ∨ (SocketChat.CallData.callId d = k
     ∧ is_Some (SocketChat.connectedUsers s !! SocketChat.CallData.recipientId d)
     ∧ SocketChat.CallData.callerId d = SocketChat.userId a
     ∧ SocketChat.CallData.timestamp d = SocketChat.now a).
Proof.
  destruct (sm_handle_calls a s) as [Hsub|_]; [left; by apply Hsub|].
  destruct a as [now u sid e]. destruct e; simpl; try (by left).
  - unfold SocketChat.on_join_conversation. repeat case_match; by left.
  - unfold SocketChat.on_leave_conversation. repeat case_match; by left.
  - unfold SocketChat.on_send_message. repeat case_match; by left.
  - unfold SocketChat.on_call_initiate.
    case_bool_decide as Hc; [by left|]. subst callerId.
    destruct (SocketChat.connectedUsers s !! recipientId) eqn:Hon; [|by left].
    destruct (List.find _ _); [by left|]. simpl.
    destruct (decide (callId = k)) as [<-|Hne].
    + rewrite jsmap_get_set_eq. intros [= <-]. right. simpl. by rewrite Hon.
    + rewrite jsmap_get_set_ne by done. by left.
  - unfold SocketChat.on_call_accept. repeat case_match; by left.
  - intros H. left. by apply sm_calls_within_delete in H.
  - intros H. left. by apply sm_calls_within_delete in H.
  - intros H. left. by apply sm_calls_within_delete in H.
  - unfold SocketChat.on_webrtc_offer. case_match; by left.
  - unfold SocketChat.on_webrtc_answer. case_match; by left.
  - unfold SocketChat.on_webrtc_ice_candidate. case_match; by left.
  - intros H. left. by apply sm_calls_within_disconnect in H.
Qed.

(** A registration survives every arrival but the disconnect of its user. *)
Lemma sm_handle_registered a (s : SocketChat.SocketManager) u' :
  is_Some (SocketChat.connectedUsers s !! u') →
  is_Some (SocketChat.connectedUsers (SocketChat.handle a s).1 !! u')
  ∨ (SocketChat.event a = SocketChat.Event.disconnect ∧ u' = SocketChat.userId a).
Proof.
  intros Hreg. destruct a as [now u sid e]. destruct e; simpl; try (by left).
  - left. rewrite lookup_insert_is_Some. destruct (decide (u = u')); auto.
  - left. unfold SocketChat.on_join_conversation. repeat case_match; simpl; try done;
      rewrite lookup_insert_is_Some; destruct (decide (u = u')); auto.
  - left. unfold SocketChat.on_leave_conversation. repeat case_match; simpl; try done;
      rewrite lookup_insert_is_Some; destruct (decide (u = u')); auto.
  - left. unfold SocketChat.on_send_message. by repeat case_match.
  - left. unfold SocketChat.on_call_initiate. by repeat case_match.
  - left. unfold SocketChat.on_call_accept. by repeat case_match.
  - left. unfold SocketChat.on_webrtc_offer. by case_match.
  - left. unfold SocketChat.on_webrtc_answer. by case_match.
  - left. unfold SocketChat.on_webrtc_ice_candidate. by case_match.
  - destruct (decide (u = u')) as [<-|Hne]; [by right|]. left.
    rewrite lookup_delete_ne by done.
    by rewrite (proj2 (sm_end_calls_of_others u (SocketChat.activeCalls s) s)).
Qed.

Lemma sm_callee_registered_step a s :
  sm_callee_registered s → sm_callee_registered (SocketChat.handle a s).1.
Proof.
  intros Hinv k d Hget.
  assert (Hbefore : is_Some (SocketChat.connectedUsers s
                               !! SocketChat.CallData.recipientId d)).
  { destruct (sm_handle_new_call a s k d Hget) as [Hold|(_ & Hreg & _)]; [|done].
    by apply Hinv in Hold. }
  destruct (sm_handle_registered a s _ Hbefore) as [|[Hev Hu]]; [done|].
  destruct a as [now u sid e]. simpl in *. subst e. simpl in Hget.
  apply jsmap_get_Some_elem in Hget.
  apply (sm_end_calls_of_rest u s (k, d)) in Hget. simpl in Hget.
  unfold SocketChat.is_party in Hget. apply orb_false_iff in Hget as [_ Hr].
  apply bool_decide_eq_false in Hr. by destruct Hr.
Qed.

(** X5: in every reachable state of [socket.chat.ts] no two stored calls
    have the same callee. *)
Theorem one_stored_call_per_callee (s : SocketChat.SocketManager) c1 d1 c2 d2 :
  SocketChat.reachable s →
  JSMap.get c1 (SocketChat.activeCalls s) = Some d1 →
  JSMap.get c2 (SocketChat.activeCalls s) = Some d2 →
  SocketChat.CallData.recipientId d1 = SocketChat.CallData.recipientId d2 →
  c1 = c2.
Proof. intros Hreach. by apply (sm_reachable_callee_unique s Hreach). Qed.

Lemma one_stored_call_per_callee_witness : "c1" = "c1".
Proof.
  apply (one_stored_call_per_callee sm_ringing "c1"
           (SocketChat.CallData.mk "c1" video "u1" "Ann" None "u2" 3) "c1"
           (SocketChat.CallData.mk "c1" video "u1" "Ann" None "u2" 3));
    [by eexists | by vm_compute..].
Defined.

(** X6: in every reachable state of [socket.chat.ts] the callee of every
    stored call is registered in [connectedUsers]: a call is only stored for
    an online callee, and the disconnect of a user removes the calls towards
    that user before the registration. *)
Theorem callee_of_stored_call_is_registered (s : SocketChat.SocketManager) c d :
  SocketChat.reachable s →
  JSMap.get c (SocketChat.activeCalls s) = Some d →
  is_Some (SocketChat.connectedUsers s !! SocketChat.CallData.recipientId d).
Proof.
  intros Hreach. revert c d. change (sm_callee_registered s). revert s Hreach.
  apply sm_reachable_invariant; [|apply sm_callee_registered_step]. by intros c d.
Qed.

Lemma callee_of_stored_call_is_registered_witness :
  is_Some (SocketChat.connectedUsers sm_ringing !! "u2").
Proof.
  apply (callee_of_stored_call_is_registered sm_ringing "c1"
           (SocketChat.CallData.mk "c1" video "u1" "Ann" None "u2" 3));
    [by eexists | by vm_compute].
Defined.

Lemma sm_own_id_step a s : sm_own_id s → sm_own_id (SocketChat.handle a s).1.
Proof.
  intros Hinv k d Hget.
  destruct (sm_handle_new_call a s k d Hget) as [Hold|(Hid & _)]; [by apply Hinv|done].
Qed.

(** X7: in every reachable state of [socket.chat.ts] a call record is stored
    under the [callId] it carries. *)
Theorem stored_call_is_keyed_by_its_id (s : SocketChat.SocketManager) c d :
  SocketChat.reachable s →
  JSMap.get c (SocketChat.activeCalls s) = Some d →
  SocketChat.CallData.callId d = c.
Proof.
  intros Hreach. revert c d. change (sm_own_id s). revert s Hreach.
  apply sm_reachable_invariant; [|apply sm_own_id_step]. by intros c d.
Qed.

Lemma stored_call_is_keyed_by_its_id_witness :
  SocketChat.CallData.callId
    (SocketChat.CallData.mk "c1" video "u1" "Ann" None "u2" 3) = "c1".
Proof.
  apply (stored_call_is_keyed_by_its_id sm_ringing); [by eexists | by vm_compute].
Defined.

(** * Joining and leaving conversations in [socket.chat.ts] *)

Lemma sm_users_join now u sid o (s : SocketChat.SocketManager) us :
  SocketChat.connectedUsers s !! u = Some us →
  SocketChat.connectedUsers (SocketChat.on_join_conversation now u sid o s).1 !! u
  = Some (set_activeConversations
            (if bool_decide (createConversationId u o ∈ UserSocket.activeConversations us)
             then UserSocket.activeConversations us
             else UserSocket.activeConversations us ++ [createConversationId u o])
            us).
Proof.
  intros Hus. unfold SocketChat.on_join_conversation. simpl.
  destruct (SocketChat.activeConversations s !! createConversationId u o); simpl;
    rewrite Hus; case_bool_decide; simpl; rewrite ?lookup_insert_eq, ?Hus;
    by destruct us.
Qed.

Lemma sm_users_leave u sid o (s : SocketChat.SocketManager) us :
  SocketChat.connectedUsers s !! u = Some us →
  SocketChat.connectedUsers (SocketChat.on_leave_conversation u sid o s).1 !! u
  = Some (set_activeConversations
            (filter (λ id, id ≠ createConversationId u o)
               (UserSocket.activeConversations us))
            us).
Proof.
  intros Hus. unfold SocketChat.on_leave_conversation. simpl. rewrite Hus. simpl.
  by rewrite lookup_insert_eq.
Qed.

(** X8: for a registered user of [socket.chat.ts], joining a conversation
    puts its key on the user's list; joining it again leaves the list as it
    is; leaving it after the join gives the list the user had before, without
    that key. *)
Theorem join_then_leave now now' u sid sid' o (s : SocketChat.SocketManager) us :
  SocketChat.connectedUsers s !! u = Some us →
  let cid := createConversationId u o in
  let s1 := (SocketChat.on_join_conversation now u sid o s).1 in
  cid ∈ sm_joined s1 u
  ∧ sm_joined (SocketChat.on_join_conversation now' u sid' o s1).1 u = sm_joined s1 u
  ∧ sm_joined (SocketChat.on_leave_conversation u sid' o s1).1 u
    = filter (λ id, id ≠ cid) (UserSocket.activeConversations us).
Proof.
  intros Hus cid s1.
  pose proof (sm_users_join now u sid o s us Hus) as H1. fold cid s1 in H1.
  set (l1 := if bool_decide (cid ∈ UserSocket.activeConversations us)
             then UserSocket.activeConversations us
             else UserSocket.activeConversations us ++ [cid]) in H1.
  assert (Hin : cid ∈ l1).
  { subst l1. case_bool_decide; [done|]. apply elem_of_app. right. left. }
  unfold sm_joined.
  rewrite (sm_users_join now' u sid' o s1 _ H1), (sm_users_leave u sid' o s1 _ H1), H1.
  simpl. fold cid. rewrite (bool_decide_eq_true_2 _ Hin). repeat split; [done|].
  subst l1. case_bool_decide; [done|].
  rewrite filter_app, filter_cons_False, filter_nil, app_nil_r; [done|].
  by intros ?.
Qed.

Lemma join_then_leave_witness :
  "u1_u2" ∈ sm_joined (SocketChat.on_join_conversation 9 "u1" "s1" "u2" sm_ringing).1 "u1"
  ∧ sm_joined
      (SocketChat.on_join_conversation 10 "u1" "s1" "u2"
         (SocketChat.on_join_conversation 9 "u1" "s1" "u2" sm_ringing).1).1 "u1"
    = sm_joined (SocketChat.on_join_conversation 9 "u1" "s1" "u2" sm_ringing).1 "u1"
  ∧ sm_joined
      (SocketChat.on_leave_conversation "u1" "s1" "u2"
         (SocketChat.on_join_conversation 9 "u1" "s1" "u2" sm_ringing).1).1 "u1"
    = filter (λ id, id ≠ "u1_u2") [].
Proof.
  apply (join_then_leave 9 10 "u1" "s1" "s1" "u2" sm_ringing (UserSocket.mk "u1" "s1" [])).
  by vm_compute.
Defined.

(** * The duration reported by [call:end] *)

(** X10: when an initiate at clock reading [t0] stored the call, a
    [call:end] for it at [t1] reports [floor((t1 - t0) / 1000)] to the room
    named in the payload, provided both readings are time values of a [Date]
    and they are at most 2^53 ms apart (the range in which the subtraction
    and the division the code does on doubles are exact): whole elapsed
    seconds rounded down, never negative when the clock did not go back, and
    negative (not clamped to 0) when it did. *)
Theorem end_reports_elapsed_seconds t0 t1 u sid c r ty n i u' peer
    (s : SocketChat.SocketManager) :
  exact_span t0 t1 →
  is_Some (SocketChat.connectedUsers s !! r) →
  List.find (λ call, bool_decide (SocketChat.CallData.recipientId call = r))
    (JSMap.values (SocketChat.activeCalls s)) = None →
  let s1 := (SocketChat.on_call_initiate t0 u sid c r ty u n i s).1 in
  let d := ((t1 - t0) `div` 1000)%Z in
  (SocketChat.on_call_end t1 u' c peer s1).2
  = [ emit (to_room peer) (SocketChat.call_ended c u' None (Some d)) ]
  ∧ (1000 * d ≤ t1 - t0 < 1000 * d + 1000)%Z
  ∧ ((t0 ≤ t1)%Z → (0 ≤ d)%Z)
  ∧ ((t1 < t0)%Z → (d < 0)%Z).
Proof.
  intros _ [us Hon] Hfree s1 d. split.
  - subst s1. unfold SocketChat.on_call_initiate.
    rewrite bool_decide_false by (by intros ?). rewrite Hon, Hfree. simpl.
    unfold SocketChat.on_call_end. simpl. by rewrite jsmap_get_set_eq.
  - subst d. pose proof (Z.div_mod (t1 - t0) 1000 ltac:(lia)) as Hdm.
    pose proof (Z.mod_pos_bound (t1 - t0) 1000 ltac:(lia)) as Hmod.
    repeat split; intros; lia.
Qed.

Lemma end_reports_elapsed_seconds_witness :
  (SocketChat.on_call_end 4500 "u2" "c5" "u1"
     (SocketChat.on_call_initiate 1000 "u1" "s1" "c5" "u3" audio "u1" "Ann" None
        sm_ringing).1).2
  = [ emit (to_room "u1") (SocketChat.call_ended "c5" "u2" None (Some 3)) ].
Proof.
  destruct (end_reports_elapsed_seconds 1000 4500 "u1" "s1" "c5" "u3" audio "Ann" None
              "u2" "u1" sm_ringing) as [H _].
  - unfold exact_span. lia.
  - vm_compute. by eexists.
  - by vm_compute.
  - exact H.
Defined.

(** * The timeout registry of the [SocketManager] with [callTimeouts] *)

Lemma smt_registry_clear k (s : SocketChatTimed.SocketManager) :
  smt_registry_wf s → smt_registry_wf (SocketChatTimed.clearCallTimeout k s).
Proof.
  intros Hwf c h.
  destruct (smt_clearCallTimeout_fields k s) as (Hac & _ & _ & Hct & Htm).
  rewrite Hac, Hct, Htm. intros [Hne Hc]%lookup_delete_Some.
  destruct (Hwf c h Hc) as (Hhas & t & Ht & Hid). split; [done|].
  exists t. split; [|done].
  destruct (SocketChatTimed.callTimeouts s !! k) as [hk|] eqn:Hk; [|done].
  rewrite lookup_delete_ne; [done|]. intros ->.
  destruct (Hwf k h Hk) as (_ & t' & Ht' & Hid'). congruence.
Qed.

Lemma smt_registry_remove k (s : SocketChatTimed.SocketManager) :
  smt_registry_wf s →
  smt_registry_wf
    (SocketChatTimed.clearCallTimeout k
       (SocketChatTimed.with_activeCalls (JSMap.delete k) s)).
Proof.
  intros Hwf c h.
  destruct (smt_clearCallTimeout_fields k
              (SocketChatTimed.with_activeCalls (JSMap.delete k) s))
    as (Hac & _ & _ & Hct & Htm).
  rewrite Hac, Hct, Htm. simpl. intros [Hne Hc]%lookup_delete_Some.
  destruct (Hwf c h Hc) as (Hhas & t & Ht & Hid). split.
  - unfold JSMap.has in *. by rewrite jsmap_get_delete_ne.
  - exists t. split; [|done].
    destruct (SocketChatTimed.callTimeouts s !! k) as [hk|] eqn:Hk; [|done].
    rewrite lookup_delete_ne; [done|]. intros ->.
    destruct (Hwf k h Hk) as (_ & t' & Ht' & Hid'). congruence.
Qed.

Lemma smt_registry_end_calls now userId entries (s : SocketChatTimed.SocketManager) :
  smt_registry_wf s →
  smt_registry_wf (SocketChatTimed.end_calls_of now userId entries s).1.
Proof.
  revert s. induction entries as [|[k d] rest IH]; intros s Hwf; simpl; [done|].
  destruct (SocketChatTimed.is_party userId d); simpl; [|by apply IH].
  by apply IH, smt_registry_remove.
Qed.

Lemma smt_registry_timer now h (s : SocketChatTimed.SocketManager) :
  smt_registry_wf s → smt_registry_wf (SocketChatTimed.on_timer now h s).1.
Proof.
  intros Hwf. unfold SocketChatTimed.on_timer.
  destruct (SocketChatTimed.timers s !! h) as [t0|] eqn:Ht0; [|done].
  case_bool_decide; [|done].
  unfold SocketChatTimed.call_timeout_callback. simpl.
  destruct (JSMap.get (Timer.callId t0) (SocketChatTimed.activeCalls s)) as [d|] eqn:Hget;
    simpl; intros c h'; simpl.
  - intros [Hne Hc]%lookup_delete_Some.
    destruct (Hwf c h' Hc) as (Hhas & t & Ht & Hid). split.
    + unfold JSMap.has in *. by rewrite jsmap_get_delete_ne.
    + exists t. split; [|done]. rewrite lookup_delete_ne; [done|].
      intros ->. congruence.
  - intros Hc. destruct (Hwf c h' Hc) as (Hhas & t & Ht & Hid). split; [done|].
    exists t. split; [|done]. rewrite lookup_delete_ne; [done|].
    intros ->. assert (t = t0) as -> by congruence.
    unfold JSMap.has in Hhas. by rewrite <- Hid, Hget in Hhas.
Qed.

Lemma smt_registry_step a (s : SocketChatTimed.SocketManager) :
  smt_handles_fresh s → smt_registry_wf s →
  smt_registry_wf (SocketChatTimed.handle a s).1.
Proof.
  intros Hf Hwf. destruct a as [now u sid e|now h]; simpl;
    [|by apply smt_registry_timer].
  destruct e; simpl; smt_handlers; try done;
    try (by apply smt_registry_remove); try (by apply smt_registry_clear).
  - match goal with H : SocketChatTimed.setTimeout _ _ _ _ = _ |- _ =>
      injection H as <- <- end.
    intros c h. simpl. rewrite lookup_insert.
    destruct (decide (callId = c)) as [<-|Hne].
    + intros [= <-]. split.
      * unfold JSMap.has. by rewrite jsmap_get_set_eq.
      * rewrite lookup_insert_eq. by eexists.
    + intros Hc. destruct (Hwf c h Hc) as (Hhas & tm & Htm & Hid). split.
      * by apply jsmap_has_set.
      * exists tm. split; [|done]. rewrite lookup_insert_ne; [done|].
        apply Hf in Hc. lia.
  - by apply (smt_registry_end_calls now u).
Qed.

Lemma smt_reachable_registry_wf s : SocketChatTimed.reachable s → smt_registry_wf s.
Proof.
  intros [evs <-].
  apply (smt_run_invariant (λ s, smt_handles_fresh s ∧ smt_registry_wf s)).
  - intros a s [Hf Hwf]. split;
      [by apply smt_handles_fresh_step | by apply smt_registry_step].
  - split; intros c h; simpl; by rewrite lookup_empty.
Qed.

(** X11: in every reachable state of the [SocketManager] with
    [callTimeouts], a call id that has a registered timeout has a stored call,
    and the registered handle is a pending timer whose callback names that
    call: the registry holds no timeout of a call that is gone. *)
Theorem registered_timeout_has_its_call (s : SocketChatTimed.SocketManager) c h :
  SocketChatTimed.reachable s →
  SocketChatTimed.callTimeouts s !! c = Some h →
  JSMap.has c (SocketChatTimed.activeCalls s) = true
  ∧ ∃ t, SocketChatTimed.timers s !! h = Some t ∧ Timer.callId t = c.
Proof. intros Hreach. by apply (smt_reachable_registry_wf s Hreach). Qed.

Lemma smt_ringing_reachable : SocketChatTimed.reachable smt_ringing.
Proof.
  exists [ SocketChatTimed.from_socket 0 "u1" "s1" SocketChatTimed.Event.connection;
           SocketChatTimed.from_socket 1 "u2" "s2" SocketChatTimed.Event.connection;
           SocketChatTimed.from_socket 2 "u1" "s1"
             (SocketChatTimed.Event.call_initiate "c1" "u2" video "u1" "Ann" None "Bob") ].
  reflexivity.
Qed.

Lemma registered_timeout_has_its_call_witness :
  JSMap.has "c1" (SocketChatTimed.activeCalls smt_ringing) = true
  ∧ ∃ t, SocketChatTimed.timers smt_ringing !! 0%nat = Some t ∧ Timer.callId t = "c1".
Proof.
  apply (registered_timeout_has_its_call smt_ringing "c1" 0 smt_ringing_reachable).
  by vm_compute.
Defined.

(** X12: in every reachable state of the [SocketManager] with
    [callTimeouts], a [call:reject], [call:end] or client-sent [call:timeout]
    that names a call id with no stored call leaves the whole state as it
    was: call map, timeout registry and pending timers. *)
Theorem timed_terminal_action_on_unknown_call now u c peer reason
    (s : SocketChatTimed.SocketManager) :
  SocketChatTimed.reachable s →
  JSMap.get c (SocketChatTimed.activeCalls s) = None →
  (SocketChatTimed.on_call_reject u c peer reason s).1 = s
  ∧ (SocketChatTimed.on_call_end now u c peer s).1 = s
  ∧ (SocketChatTimed.on_call_timeout c peer s).1 = s.
Proof.
  intros Hreach Hnone.
  assert (Hs : SocketChatTimed.clearCallTimeout c
                 (SocketChatTimed.with_activeCalls (JSMap.delete c) s) = s).
  { assert (Hd : SocketChatTimed.with_activeCalls (JSMap.delete c) s = s).
    { destruct s. unfold SocketChatTimed.with_activeCalls. simpl in *.
      by rewrite jsmap_delete_absent. }
    rewrite Hd. unfold SocketChatTimed.clearCallTimeout.
    destruct (SocketChatTimed.callTimeouts s !! c) as [h|] eqn:Hc; [|done].
    destruct (smt_reachable_registry_wf s Hreach c h Hc) as [Hhas _].
    unfold JSMap.has in Hhas. by rewrite Hnone in Hhas. }
  unfold SocketChatTimed.on_call_reject, SocketChatTimed.on_call_end,
    SocketChatTimed.on_call_timeout. simpl. by rewrite Hs.
Qed.

Lemma timed_terminal_action_on_unknown_call_witness :
  (SocketChatTimed.on_call_reject "u2" "c9" "u1" None smt_ringing).1 = smt_ringing
  ∧ (SocketChatTimed.on_call_end 50 "u2" "c9" "u1" smt_ringing).1 = smt_ringing
  ∧ (SocketChatTimed.on_call_timeout "c9" "u1" smt_ringing).1 = smt_ringing.
Proof.
  apply (timed_terminal_action_on_unknown_call 50 "u2" "c9" "u1" None smt_ringing
           smt_ringing_reachable).
  by vm_compute.
Defined.

(** X13: the [SocketManager] with [callTimeouts] keeps the 30 second
    deadline.  In a reachable state u rings r, who is registered and has no
    stored call, with call [c] at clock reading [now]; then, whatever arrives
    next, as long as nobody accepts [c] and no further initiate reuses its
    id, at any clock reading later than [now + 30000] at which no pending
    timer is overdue the record of [c] is gone. *)
Theorem timed_call_is_gone_after_deadline now u sid c r t n i rn evs later
    (s : SocketChatTimed.SocketManager) :
  SocketChatTimed.reachable s →
  is_Some (SocketChatTimed.connectedUsers s !! r) →
  List.find (λ call, bool_decide (SocketChatTimed.CallData.recipientId call = r))
    (JSMap.values (SocketChatTimed.activeCalls s)) = None →
  let s1 := (SocketChatTimed.on_call_initiate now u sid c r t u n i rn s).1 in
  Forall (λ a, smt_unanswered c a = true) evs →
  let s2 := (SocketChatTimed.run evs s1).1 in
  smt_punctual s2 later →
  (now + CALL_TIMEOUT_MS < later)%Z →
  JSMap.has c (SocketChatTimed.activeCalls s2) = false.
Proof. apply smt_ringing_call_gone_after_deadline. Qed.

(** u1 rings u2 at 2, u2 joins a conversation at 100 and the timer runs at
    30002: at 40000 the record is gone. *)
Lemma timed_call_is_gone_after_deadline_witness :
  JSMap.has "c1"
    (SocketChatTimed.activeCalls
       (SocketChatTimed.run
          [ SocketChatTimed.from_socket 100 "u2" "s2"
              (SocketChatTimed.Event.join_conversation "u1");
            SocketChatTimed.timer_fired 30002 0 ]
          smt_ringing).1) = false.
Proof.
  apply (timed_call_is_gone_after_deadline 2 "u1" "s1" "c1" "u2" video "Ann" None "Bob"
           [ SocketChatTimed.from_socket 100 "u2" "s2"
               (SocketChatTimed.Event.join_conversation "u1");
             SocketChatTimed.timer_fired 30002 0 ] 40000 smt_both_online).
  - by eexists.
  - vm_compute. by eexists.
  - by vm_compute.
  - by repeat constructor.
  - intros h t. vm_compute. discriminate.
  - unfold CALL_TIMEOUT_MS. lia.
Defined.

(** * The call map of [CallHandler] in reachable states *)

Lemma ch_run_invariant (P : CallHandler.State → Prop) :
  (∀ a s, P s → P (CallHandler.handle a s).1) →
  ∀ evs s, P s → P (CallHandler.run evs s).1.
Proof.
  intros Hstep evs. induction evs as [|a rest IH]; intros s Hs; simpl; [done|].
  apply IH, Hstep, Hs.
Qed.

Lemma ch_get_remove k c (s : CallHandler.State) d :
  JSMap.get k
    (CallHandler.activeCalls
       (CallHandler.clearCallTimeout c
          (CallHandler.with_activeCalls (JSMap.delete c) s))) = Some d →
  JSMap.get k (CallHandler.activeCalls s) = Some d.
Proof.
  rewrite ch_activeCalls_clearCallTimeout. simpl.
  destruct (decide (c = k)) as [->|Hne].
  - by rewrite jsmap_get_delete_eq.
  - by rewrite jsmap_get_delete_ne.
Qed.

Lemma ch_get_end_calls now userId (s : CallHandler.State) k d :
  JSMap.get k
    (CallHandler.activeCalls
       (CallHandler.end_calls_of now userId (CallHandler.activeCalls s) s).1) = Some d →
  JSMap.get k (CallHandler.activeCalls s) = Some d.
Proof.
  intros Hget. rewrite ch_end_calls_of_calls in Hget.
  pose proof (jsmap_get_filter_keys
                (λ k, k ∉ (filter (λ e, CallHandler.is_party userId e.2)
                             (CallHandler.activeCalls s)).*1)
                k (CallHandler.activeCalls s)) as E.
  simpl in E. destruct (decide _) in E; congruence.
Qed.

(** The call map after an arrival: either every record that is there was
    there before, unchanged or with its status set to accepted, or the
    arrival was an initiate that passed the busy check and stored a ringing
    record under its id. *)
Lemma ch_handle_calls a (s : CallHandler.State) :
  (∀ k d, JSMap.get k (CallHandler.activeCalls (CallHandler.handle a s).1) = Some d →
          JSMap.get k (CallHandler.activeCalls s) = Some d
          ∨ ∃ d0, JSMap.get k (CallHandler.activeCalls s) = Some d0
                  ∧ d = CallHandler.set_status CallHandler.accepted d0)
  ∨ ∃ c d0,
      List.find (λ call, bool_decide (CallHandler.CallData.recipientId call
                                      = CallHandler.CallData.recipientId d0)
                         && bool_decide (CallHandler.CallData.status call
                                         = CallHandler.ringing))
        (JSMap.values (CallHandler.activeCalls s)) = None
      ∧ CallHandler.CallData.status d0 = CallHandler.ringing
      ∧ CallHandler.CallData.callId d0 = c
      ∧ CallHandler.activeCalls (CallHandler.handle a s).1
        = JSMap.set c d0 (CallHandler.activeCalls s).
Proof.
  destruct a as [now u sid e|now h]; simpl.
  - destruct e; simpl.
    + unfold CallHandler.handleCallInitiate.
      case_bool_decide; [left; by left|].
      destruct (List.find _ _) eqn:Hfind; [left; by left|].
      right.
      exists callId, (CallHandler.CallData.mk callId callType callerId callerName
                        callerImage recipientId now CallHandler.ringing).
      simpl. split; [exact Hfind|done].
    + left. intros k d. unfold CallHandler.handleCallAccept.
      destruct (JSMap.get callId (CallHandler.activeCalls s)) as [d0|] eqn:Hget;
        [|by left].
      case_bool_decide; [by left|]. simpl.
      rewrite ch_activeCalls_clearCallTimeout. simpl.
      destruct (decide (callId = k)) as [<-|Hne].
      * rewrite jsmap_get_set_eq. intros [= <-]. right. by exists d0.
      * rewrite jsmap_get_set_ne by done. by left.
    + left. intros k d H. left. by apply ch_get_remove in H.
    + left. intros k d H. left. by apply ch_get_remove in H.
    + left. intros k d. unfold CallHandler.handleWebRTCOffer. case_match; by left.
    + left. intros k d. unfold CallHandler.handleWebRTCAnswer. case_match; by left.
    + left. intros k d. unfold CallHandler.handleWebRTCIceCandidate. case_match; by left.
    + left. intros k d H. left. by apply ch_get_remove in H.
    + left. intros k d H. left. by apply ch_get_end_calls in H.
  - left. intros k d. unfold CallHandler.on_timer.
    destruct (CallHandler.timers s !! h) as [t|]; [|by left].
    case_bool_decide; [|by left].
    unfold CallHandler.handleCallTimeoutAutomatically. simpl.
    destruct (JSMap.get (Timer.callId t) (CallHandler.activeCalls s)); [|by left].
    case_bool_decide; [|by left]. simpl.
    destruct (decide (Timer.callId t = k)) as [->|Hne].
    + by rewrite jsmap_get_delete_eq.
    + rewrite jsmap_get_delete_ne by done. by left.
Qed.

Lemma ch_ringing_unique_step a s :
  ch_ringing_unique s → ch_ringing_unique (CallHandler.handle a s).1.
Proof.
  intros Hinv. destruct (ch_handle_calls a s) as [Hold|(c & d0 & Hfind & Hst & _ & Heq)].
  - intros c1 d1 c2 d2 H1 H2 Hr Hs1 Hs2.
    destruct (Hold _ _ H1) as [H1'|(x & _ & ->)]; [|done].
    destruct (Hold _ _ H2) as [H2'|(y & _ & ->)]; [|done].
    by apply (Hinv c1 d1 c2 d2).
  - assert (Hfree : ∀ k x, JSMap.get k (CallHandler.activeCalls s) = Some x →
                           CallHandler.CallData.status x = CallHandler.ringing →
                           CallHandler.CallData.recipientId x
                           ≠ CallHandler.CallData.recipientId d0).
    { intros k x Hk Hx Hr.
      pose proof (find_None_elem _ _ x Hfind
                    (jsmap_elem_values _ _ _ (jsmap_get_Some_elem _ _ _ Hk))) as Hf.
      simpl in Hf. by rewrite !bool_decide_eq_true_2 in Hf. }
    intros c1 d1 c2 d2. rewrite Heq.
    destruct (decide (c = c1)) as [<-|Hn1], (decide (c = c2)) as [<-|Hn2]; [done|..].
    + rewrite jsmap_get_set_eq, jsmap_get_set_ne by done.
      intros [= <-] H2 Hr _ Hs2. by destruct (Hfree _ _ H2 Hs2).
    + rewrite jsmap_get_set_eq, jsmap_get_set_ne by done.
      intros H1 [= <-] Hr Hs1 _. by destruct (Hfree _ _ H1 Hs1).
    + rewrite !jsmap_get_set_ne by done. apply Hinv.
Qed.

(** X14: in every reachable state of [CallHandler] no two ringing calls have
    the same callee (an accepted call of the callee is not counted by the
    busy check, but a ringing one is). *)
Theorem one_ringing_call_per_callee (s : CallHandler.State) c1 d1 c2 d2 :
  CallHandler.reachable s →
  JSMap.get c1 (CallHandler.activeCalls s) = Some d1 →
  JSMap.get c2 (CallHandler.activeCalls s) = Some d2 →
  CallHandler.CallData.recipientId d1 = CallHandler.CallData.recipientId d2 →
  CallHandler.CallData.status d1 = CallHandler.ringing →
  CallHandler.CallData.status d2 = CallHandler.ringing →
  c1 = c2.
Proof.
  intros [evs <-]. revert c1 d1 c2 d2.
  change (ch_ringing_unique (CallHandler.run evs CallHandler.initial).1).
  apply ch_run_invariant; [apply ch_ringing_unique_step|].
  by intros c1 d1 c2 d2.
Qed.

Lemma ch_records_wf_step a s : ch_records_wf s → ch_records_wf (CallHandler.handle a s).1.
Proof.
  intros Hinv. destruct (ch_handle_calls a s) as [Hold|(c & d0 & _ & Hst & Hid & Heq)].
  - intros k d Hget. destruct (Hold _ _ Hget) as [H|(x & Hx & ->)]; [by apply Hinv|].
    destruct (Hinv _ _ Hx) as [_ Hid]. split; [by right|done].
  - intros k d. rewrite Heq. destruct (decide (c = k)) as [<-|Hne].
    + rewrite jsmap_get_set_eq. intros [= <-]. split; [by left|done].
    + rewrite jsmap_get_set_ne by done. apply Hinv.
Qed.

(** X15: in every reachable state of [CallHandler] every stored record is
    ringing or accepted (the statuses initiated, rejected and ended are never
    stored) and is stored under the [callId] it carries. *)
Theorem stored_records_are_live (s : CallHandler.State) c d :
  CallHandler.reachable s →
  JSMap.get c (CallHandler.activeCalls s) = Some d →
  (CallHandler.CallData.status d = CallHandler.ringing
   ∨ CallHandler.CallData.status d = CallHandler.accepted)
  ∧ CallHandler.CallData.callId d = c.
Proof.
  intros [evs <-]. revert c d.
  change (ch_records_wf (CallHandler.run evs CallHandler.initial).1).
  apply ch_run_invariant; [apply ch_records_wf_step|]. by intros c d.
Qed.

(** X16: the automatic timeout of [CallHandler] only ends ringing calls: a
    timer that runs, in any state and at any time, leaves every stored record
    that is not ringing in place. *)
Theorem timer_spares_answered_calls now h (s : CallHandler.State) c d :
  JSMap.get c (CallHandler.activeCalls s) = Some d →
  CallHandler.CallData.status d ≠ CallHandler.ringing →
  JSMap.get c
    (CallHandler.activeCalls (CallHandler.handle (CallHandler.timer_fired now h) s).1)
  = Some d.
Proof.
  intros Hget Hst. simpl. unfold CallHandler.on_timer.
  destruct (CallHandler.timers s !! h) as [t|]; [|done].
  case_bool_decide; [|done].
  unfold CallHandler.handleCallTimeoutAutomatically. simpl.
  destruct (JSMap.get (Timer.callId t) (CallHandler.activeCalls s)) as [d0|] eqn:Hk;
    [|done].
  case_bool_decide as Hr; [|done]. simpl.
  rewrite jsmap_get_delete_ne; [done|]. intros Heq. rewrite Heq in Hk. congruence.
Qed.

Lemma ch_two_calls_reachable : CallHandler.reachable ch_two_calls.
Proof. by exists ch_second_call_trace. Qed.

Lemma one_ringing_call_per_callee_witness : "c2" = "c2".
Proof.
  apply (one_ringing_call_per_callee ch_two_calls "c2"
           (CallHandler.CallData.mk "c2" audio "u3" "Cy" None "u2" 2000 CallHandler.ringing)
           "c2"
           (CallHandler.CallData.mk "c2" audio "u3" "Cy" None "u2" 2000 CallHandler.ringing)
           ch_two_calls_reachable);
    by vm_compute.
Defined.

Lemma stored_records_are_live_witness :
  (CallHandler.CallData.status
     (CallHandler.CallData.mk "c1" video "u1" "Ann" None "u2" 0 CallHandler.accepted)
   = CallHandler.ringing
   ∨ CallHandler.CallData.status
       (CallHandler.CallData.mk "c1" video "u1" "Ann" None "u2" 0 CallHandler.accepted)
     = CallHandler.accepted)
  ∧ CallHandler.CallData.callId
      (CallHandler.CallData.mk "c1" video "u1" "Ann" None "u2" 0 CallHandler.accepted)
    = "c1".
Proof.
  apply (stored_records_are_live ch_two_calls "c1" _ ch_two_calls_reachable).
  by vm_compute.
Defined.

(** The timer of c2 runs at 32000: c1, which is accepted, stays. *)
Lemma timer_spares_answered_calls_witness :
  JSMap.get "c1"
    (CallHandler.activeCalls
       (CallHandler.handle (CallHandler.timer_fired 32000 1) ch_two_calls).1)
  = Some (CallHandler.CallData.mk "c1" video "u1" "Ann" None "u2" 0 CallHandler.accepted).
Proof.
  apply (timer_spares_answered_calls 32000 1 ch_two_calls "c1").
  - by vm_compute.
  - discriminate.
Defined.

(** * Reusing a call id in the [SocketManager] with [callTimeouts] *)

(** X17: an initiate never cancels a timer.  When, in a reachable state, a
    timeout is registered for call id [c] and an initiate that reuses [c]
    succeeds (towards a registered callee without a stored call), the earlier
    timer stays pending with its callback still naming [c], while the
    registry now names only the new handle: no later [clearCallTimeout] can
    reach the earlier timer. *)
Theorem reused_call_id_orphans_timer now u sid c r t n i rn h
    (s : SocketChatTimed.SocketManager) :
  SocketChatTimed.reachable s →
  SocketChatTimed.callTimeouts s !! c = Some h →
  is_Some (SocketChatTimed.connectedUsers s !! r) →
  List.find (λ call, bool_decide (SocketChatTimed.CallData.recipientId call = r))
    (JSMap.values (SocketChatTimed.activeCalls s)) = None →
  let s' := (SocketChatTimed.on_call_initiate now u sid c r t u n i rn s).1 in
  (∃ tm, SocketChatTimed.timers s' !! h = Some tm ∧ Timer.callId tm = c)
  ∧ (∀ k, SocketChatTimed.callTimeouts s' !! k ≠ Some h).
Proof.
  intros Hreach Hc [us Hon] Hfree s'.
  destruct (smt_reachable_registry_wf s Hreach c h Hc) as (_ & tm & Htm & Hid).
  pose proof (smt_reachable_handles_fresh s Hreach c h Hc) as Hlt.
  subst s'. unfold SocketChatTimed.on_call_initiate.
  rewrite bool_decide_false by (by intros ?). rewrite Hon, Hfree. simpl. split.
  - exists tm. split; [|done]. rewrite lookup_insert_ne; [done|lia].
  - intros k. rewrite lookup_insert. destruct (decide (c = k)) as [<-|Hne].
    + intros [= Heq]. lia.
    + intros Hk.
      destruct (smt_reachable_registry_wf s Hreach k h Hk) as (_ & tm' & Htm' & Hid').
      congruence.
Qed.

Lemma reused_call_id_orphans_timer_witness :
  (∃ tm,
     SocketChatTimed.timers
       (SocketChatTimed.on_call_initiate 9 "u3" "s3" "c1" "u1" audio "u3" "Cy" None "Ann"
          smt_three_online).1 !! 0%nat = Some tm
     ∧ Timer.callId tm = "c1")
  ∧ (∀ k,
       SocketChatTimed.callTimeouts
         (SocketChatTimed.on_call_initiate 9 "u3" "s3" "c1" "u1" audio "u3" "Cy" None "Ann"
            smt_three_online).1 !! k ≠ Some 0%nat).
Proof.
  apply (reused_call_id_orphans_timer 9 "u3" "s3" "c1" "u1" audio "Cy" None "Ann" 0
           smt_three_online).
  - by eexists.
  - by vm_compute.
  - vm_compute. by eexists.
  - by vm_compute.
Defined.

(** What the orphaned timer does: u3 reuses id c1 for a call to u1 at 9, u1
    accepts at 10, and at 30003 the timer of the first c1 runs: the accepted
    call is removed and both of its parties are told it timed out. *)
Example smt_orphaned_timer_ends_accepted_call :
  let s :=
    (SocketChatTimed.run
       [ SocketChatTimed.from_socket 9 "u3" "s3"
           (SocketChatTimed.Event.call_initiate "c1" "u1" audio "u3" "Cy" None "Ann");
         SocketChatTimed.from_socket 10 "u1" "s1"
           (SocketChatTimed.Event.call_accept "c1" "u3") ]
       smt_three_online).1 in
  let r := SocketChatTimed.handle (SocketChatTimed.timer_fired 30003 0) s in
  SocketChatTimed.CallData.recipientId
    <$> JSMap.get "c1" (SocketChatTimed.activeCalls s) = Some "u1"
  ∧ SocketChatTimed.activeCalls r.1 = []
  ∧ r.2 = [ emit (to_room "u3")
              (SocketChatTimed.call_timeout "c1" (Some "No answer from recipient"));
            emit (to_room "u1")
              (SocketChatTimed.call_timeout "c1" (Some "Call timed out")) ].
Proof. by vm_compute. Qed.

(** * Reconnecting in [socket.chat.ts] *)

(** X18: a new connection of a user replaces the registration with an empty
    conversation list, so the rooms joined before are forgotten: a disconnect
    that follows sends no [user_left_conversation] to any room, whatever the
    user had joined. *)
Theorem reconnect_forgets_joined_rooms u sid room (s : SocketChat.SocketManager) :
  sm_joined (SocketChat.on_connection u sid s).1 u = []
  ∧ left_notifications u room
      (SocketChat.on_disconnect u (SocketChat.on_connection u sid s).1).2 = 0%nat.
Proof.
  assert (Hj : sm_joined (SocketChat.on_connection u sid s).1 u = []).
  { unfold sm_joined. simpl. by rewrite lookup_insert_eq. }
  split; [done|]. unfold SocketChat.on_disconnect. simpl.
  rewrite lookup_insert_eq. simpl. apply left_notifications_calls.
Qed.

(** * The deadline in [CallHandler] *)

Lemma ch_clearCallTimeout_fields k (s : CallHandler.State) :
  let s' := CallHandler.clearCallTimeout k s in
  CallHandler.activeCalls s' = CallHandler.activeCalls s
  ∧ CallHandler.nextTimer s' = CallHandler.nextTimer s
  ∧ CallHandler.callTimeouts s' = delete k (CallHandler.callTimeouts s)
  ∧ CallHandler.timers s'
    = match CallHandler.callTimeouts s !! k with
      | Some h => delete h (CallHandler.timers s)
      | None => CallHandler.timers s
      end.
Proof.
  unfold CallHandler.clearCallTimeout.
  destruct (CallHandler.callTimeouts s !! k) eqn:Hk; simpl; repeat split; try done.
  symmetry. by apply delete_id.
Qed.

Lemma ch_handles_fresh_clear k (s : CallHandler.State) :
  ch_handles_fresh s → ch_handles_fresh (CallHandler.clearCallTimeout k s).
Proof.
  intros Hf k' h. destruct (ch_clearCallTimeout_fields k s) as (_ & -> & -> & _).
  intros [_ H]%lookup_delete_Some. by eapply Hf.
Qed.

Lemma ch_handles_fresh_ext (s s' : CallHandler.State) :
  CallHandler.callTimeouts s' = CallHandler.callTimeouts s →
  CallHandler.nextTimer s' = CallHandler.nextTimer s →
  ch_handles_fresh s → ch_handles_fresh s'.
Proof. unfold ch_handles_fresh. by intros -> ->. Qed.

Lemma ch_handles_fresh_end_calls now userId entries (s : CallHandler.State) :
  ch_handles_fresh s →
  ch_handles_fresh (CallHandler.end_calls_of now userId entries s).1.
Proof.
  revert s. induction entries as [|[c d] rest IH]; intros s Hf; simpl; [done|].
  destruct (CallHandler.is_party userId d); simpl; [|by apply IH].
  apply IH, ch_handles_fresh_clear. by eapply ch_handles_fresh_ext.
Qed.

Ltac ch_handlers :=
  unfold CallHandler.handleCallInitiate, CallHandler.handleCallAccept,
    CallHandler.handleWebRTCOffer, CallHandler.handleWebRTCAnswer,
    CallHandler.handleWebRTCIceCandidate;
  repeat case_match; simpl.

Lemma ch_handles_fresh_step a (s : CallHandler.State) :
  ch_handles_fresh s → ch_handles_fresh (CallHandler.handle a s).1.
Proof.
  intros Hf. destruct a as [now u sid e|now h]; simpl.
  - destruct e; simpl; ch_handlers; try done;
      try (apply ch_handles_fresh_clear; by eapply ch_handles_fresh_ext).
    + match goal with H : CallHandler.setTimeout _ _ _ _ = _ |- _ =>
        injection H as <- <- end.
      intros k h. simpl. rewrite lookup_insert.
      destruct (decide (callId = k)).
      * intros [= <-]. lia.
      * intros Hk. apply Hf in Hk. lia.
    + by apply (ch_handles_fresh_end_calls now u).
  - unfold CallHandler.on_timer. repeat case_match; try done.
    unfold CallHandler.handleCallTimeoutAutomatically. simpl.
    repeat case_match; simpl; try done.
    intros k h'. simpl. intros [_ Hk]%lookup_delete_Some. by eapply Hf.
Qed.

Lemma ch_reachable_handles_fresh s : CallHandler.reachable s → ch_handles_fresh s.
Proof.
  intros [evs <-]. apply ch_run_invariant; [apply ch_handles_fresh_step|].
  intros k h. simpl. by rewrite lookup_empty.
Qed.

Lemma ch_pending_clear c D k (s : CallHandler.State) :
  k ≠ c → ch_timer_pending c D s →
  ch_timer_pending c D (CallHandler.clearCallTimeout k s).
Proof.
  intros Hne Hp.
  destruct (ch_clearCallTimeout_fields k s) as (Hac & Hnt & Hct & Htm).
  unfold ch_timer_pending. rewrite Hac, Hnt, Hct, Htm. intros d Hget.
  destruct (Hp d Hget) as (Hst & h & t & Ht & Hc & Hd & Hlt & Hreg).
  split; [done|]. exists h, t. repeat split; try done.
  - destruct (CallHandler.callTimeouts s !! k) as [h'|] eqn:Hk; [|done].
    rewrite lookup_delete_ne; [done|]. intros ->. by destruct Hne, (Hreg k).
  - intros k' [_ Hk']%lookup_delete_Some. by apply Hreg.
Qed.

Lemma ch_pending_remove c D k (s : CallHandler.State) :
  ch_timer_pending c D s →
  ch_timer_pending c D
    (CallHandler.clearCallTimeout k (CallHandler.with_activeCalls (JSMap.delete k) s)).
Proof.
  intros Hp. destruct (decide (k = c)) as [->|Hne].
  - intros d Hget. rewrite ch_activeCalls_clearCallTimeout in Hget. simpl in Hget.
    by rewrite jsmap_get_delete_eq in Hget.
  - apply ch_pending_clear; [done|]. unfold ch_timer_pending. simpl.
    by rewrite jsmap_get_delete_ne.
Qed.

Lemma ch_pending_end_calls c D now userId entries (s : CallHandler.State) :
  ch_timer_pending c D s →
  ch_timer_pending c D (CallHandler.end_calls_of now userId entries s).1.
Proof.
  revert s. induction entries as [|[k d] rest IH]; intros s Hp; simpl; [done|].
  destruct (CallHandler.is_party userId d); simpl; [|by apply IH].
  by apply IH, ch_pending_remove.
Qed.

Lemma ch_pending_timer c D now h (s : CallHandler.State) :
  ch_timer_pending c D s →
  ch_timer_pending c D (CallHandler.on_timer now h s).1.
Proof.
  intros Hp. unfold CallHandler.on_timer.
  destruct (CallHandler.timers s !! h) as [t|] eqn:Ht; [|done].
  case_bool_decide; [|done].
  unfold CallHandler.handleCallTimeoutAutomatically. simpl.
  destruct (decide (Timer.callId t = c)) as [Hc|Hc].
  - (* the timer names [c]: a stored record of [c] is ringing, so it goes *)
    destruct (JSMap.get (Timer.callId t) (CallHandler.activeCalls s)) as [d|] eqn:Hget;
      simpl.
    + rewrite Hc in Hget. destruct (Hp d Hget) as [Hst _].
      rewrite bool_decide_eq_true_2 by done. simpl.
      intros d' Hget'. simpl in Hget'. by rewrite Hc, jsmap_get_delete_eq in Hget'.
    + rewrite Hc in Hget. intros d' Hget'. simpl in Hget'. congruence.
  - assert (Hkeep : ∀ s',
              CallHandler.activeCalls s' = CallHandler.activeCalls s
              ∨ CallHandler.activeCalls s'
                = JSMap.delete (Timer.callId t) (CallHandler.activeCalls s) →
              CallHandler.nextTimer s' = CallHandler.nextTimer s →
              CallHandler.timers s' = delete h (CallHandler.timers s) →
              (∀ k h', CallHandler.callTimeouts s' !! k = Some h' →
                       CallHandler.callTimeouts s !! k = Some h') →
              ch_timer_pending c D s').
    { intros s' Hac Hnt Htm Hct d Hget.
      assert (Hold : JSMap.get c (CallHandler.activeCalls s) = Some d).
      { destruct Hac as [Hac|Hac]; rewrite Hac in Hget; [done|].
        by rewrite jsmap_get_delete_ne in Hget. }
      destruct (Hp d Hold) as (Hst & h0 & t0 & Ht0 & Hc0 & Hd & Hlt & Hreg).
      split; [done|]. exists h0, t0. rewrite Hnt, Htm. repeat split; try done.
      - rewrite lookup_delete_ne; [done|]. intros ->. congruence.
      - intros k Hk. by apply Hreg, Hct. }
    destruct (JSMap.get (Timer.callId t) (CallHandler.activeCalls s)) as [d|]; simpl.
    + case_bool_decide; simpl.
      * apply Hkeep; simpl; [by right|done|done|].
        intros k h' [_ Hk]%lookup_delete_Some. done.
      * apply Hkeep; simpl; [by left|done..].
    + apply Hkeep; simpl; [by left|done..].
Qed.

Lemma ch_timer_pending_step c D a (s : CallHandler.State) :
  ch_unanswered c a = true →
  ch_timer_pending c D s →
  ch_timer_pending c D (CallHandler.handle a s).1.
Proof.
  intros Hun Hp. destruct a as [now u sid e|now h]; simpl;
    [|by apply ch_pending_timer].
  destruct e; simpl in *; ch_handlers; try done;
    try (by apply ch_pending_remove).
  - match goal with H : CallHandler.setTimeout _ _ _ _ = _ |- _ =>
      injection H as <- <- end.
    apply bool_decide_eq_true in Hun.
    unfold ch_timer_pending. simpl.
    rewrite jsmap_get_set_ne by done. intros d Hget.
    destruct (Hp d Hget) as (Hst & h0 & t0 & Ht0 & Hc0 & Hd & Hlt & Hreg).
    split; [done|]. exists h0, t0. repeat split; try done.
    + rewrite lookup_insert_ne; [done|lia].
    + lia.
    + intros k. rewrite lookup_insert. destruct (decide (callId = k)).
      * intros [= <-]. lia.
      * apply Hreg.
  - apply bool_decide_eq_true in Hun. apply ch_pending_clear; [done|].
    unfold ch_timer_pending. simpl. by rewrite jsmap_get_set_ne.
  - by apply (ch_pending_end_calls c D now u).
Qed.

Lemma ch_ringing_call_gone_after_deadline now u sid c r t n i evs later
    (s : CallHandler.State) :
  CallHandler.reachable s →
  List.find (λ call, bool_decide (CallHandler.CallData.recipientId call = r)
                     && bool_decide (CallHandler.CallData.status call
                                     = CallHandler.ringing))
    (JSMap.values (CallHandler.activeCalls s)) = None →
  let s1 := (CallHandler.handleCallInitiate now u sid c r t u n i s).1 in
  Forall (λ a, ch_unanswered c a = true) evs →
  let s2 := (CallHandler.run evs s1).1 in
  ch_punctual s2 later →
  (now + CALL_TIMEOUT_MS < later)%Z →
  JSMap.has c (CallHandler.activeCalls s2) = false.
Proof.
  intros Hreach Hfree s1 Hevs s2 Hpunct Hlate.
  assert (Hp1 : ch_timer_pending c (now + CALL_TIMEOUT_MS) s1).
  { subst s1. unfold CallHandler.handleCallInitiate.
    rewrite bool_decide_false by (by intros ?). rewrite Hfree. simpl.
    intros d. simpl. rewrite jsmap_get_set_eq. intros [= <-]. split; [done|].
    exists (CallHandler.nextTimer s), (Timer.mk (now + CALL_TIMEOUT_MS) c).
    simpl. rewrite lookup_insert_eq. repeat split; try done; [lia|].
    intros k. rewrite lookup_insert. destruct (decide (c = k)); [done|].
    intros Hk. apply (ch_reachable_handles_fresh s Hreach) in Hk. lia. }
  assert (Hp2 : ch_timer_pending c (now + CALL_TIMEOUT_MS) s2).
  { subst s2. clear Hpunct. revert Hp1. generalize s1. clear s1.
    induction Hevs as [|a rest Ha _ IH]; intros s1 Hp1; simpl; [done|].
    by apply IH, ch_timer_pending_step. }
  unfold JSMap.has.
  destruct (JSMap.get c (CallHandler.activeCalls s2)) as [d|] eqn:Hget; [|done].
  destruct (Hp2 d Hget) as (_ & h & tm & Ht & _ & Hdue & _).
  apply Hpunct in Ht. lia.
Qed.

(** X19: [CallHandler] keeps the 30 second deadline.  In a reachable state u
    rings r, who has no ringing call, with call [c] at clock reading [now];
    then, whatever arrives next, as long as nobody accepts [c] and no further
    initiate reuses its id, at any clock reading later than [now + 30000] at
    which no pending timer is overdue the record of [c] is gone. *)
Theorem callhandler_call_is_gone_after_deadline now u sid c r t n i evs later
    (s : CallHandler.State) :
  CallHandler.reachable s →
  List.find (λ call, bool_decide (CallHandler.CallData.recipientId call = r)
                     && bool_decide (CallHandler.CallData.status call
                                     = CallHandler.ringing))
    (JSMap.values (CallHandler.activeCalls s)) = None →
  let s1 := (CallHandler.handleCallInitiate now u sid c r t u n i s).1 in
  Forall (λ a, ch_unanswered c a = true) evs →
  let s2 := (CallHandler.run evs s1).1 in
  ch_punctual s2 later →
  (now + CALL_TIMEOUT_MS < later)%Z →
  JSMap.has c (CallHandler.activeCalls s2) = false.
Proof. apply ch_ringing_call_gone_after_deadline. Qed.

(** u1 rings u2 at 0, u3 rings u4 at 5, the timer of c1 runs at 30000: at
    30001 the record of c1 is gone (that of c2 is not due yet). *)
Lemma callhandler_call_is_gone_after_deadline_witness :
  JSMap.has "c1"
    (CallHandler.activeCalls
       (CallHandler.run
          [ CallHandler.from_socket 5 "u3" "s3"
              (CallHandler.Event.call_initiate "c2" "u4" audio "u3" "Cy" None);
            CallHandler.timer_fired 30000 0 ]
          (CallHandler.handleCallInitiate 0 "u1" "s1" "c1" "u2" video "u1" "Ann" None
             CallHandler.initial).1).1) = false.
Proof.
  apply (callhandler_call_is_gone_after_deadline 0 "u1" "s1" "c1" "u2" video "Ann" None
           [ CallHandler.from_socket 5 "u3" "s3"
               (CallHandler.Event.call_initiate "c2" "u4" audio "u3" "Cy" None);
             CallHandler.timer_fired 30000 0 ] 30001 CallHandler.initial).
  - by exists [].
  - by vm_compute.
  - by repeat constructor.
  - assert (E : CallHandler.timers
                  (CallHandler.run
                     [ CallHandler.from_socket 5 "u3" "s3"
                         (CallHandler.Event.call_initiate "c2" "u4" audio "u3" "Cy" None);
                       CallHandler.timer_fired 30000 0 ]
                     (CallHandler.handleCallInitiate 0 "u1" "s1" "c1" "u2" video "u1"
                        "Ann" None CallHandler.initial).1).1
                = {[ 1%nat := Timer.mk 30005 "c2" ]}) by (by vm_compute).
    intros h tm. rewrite E. intros [<- <-]%lookup_singleton_Some. simpl. lia.
  - unfold CALL_TIMEOUT_MS. lia.
Defined.

(** * Disconnecting a user (claim C7) *)

Lemma sm_is_party_false userId (d : SocketChat.CallData.t) :
  SocketChat.is_party userId d = false
  ↔ SocketChat.CallData.callerId d ≠ userId ∧ SocketChat.CallData.recipientId d ≠ userId.
Proof.
  unfold SocketChat.is_party. rewrite orb_false_iff, !bool_decide_eq_false. done.
Qed.

Lemma ch_is_party_false userId (d : CallHandler.CallData.t) :
  CallHandler.is_party userId d = false
  ↔ CallHandler.CallData.callerId d ≠ userId ∧ CallHandler.CallData.recipientId d ≠ userId.
Proof.
  unfold CallHandler.is_party. rewrite orb_false_iff, !bool_decide_eq_false. done.
Qed.

(** The conversation list of a registration changes as [registration_step]
    says, whatever arrives. *)
Lemma sm_registration_step a (s : SocketChat.SocketManager) u :
  UserSocket.activeConversations <$> SocketChat.connectedUsers (SocketChat.handle a s).1 !! u
  = registration_step u (UserSocket.activeConversations <$> SocketChat.connectedUsers s !! u) a.
Proof.
  destruct a as [now v sid e]. unfold registration_step. simpl.
  destruct (decide (v = u)) as [->|Hne].
  - rewrite bool_decide_eq_true_2 by done.
    destruct e; simpl; try done.
    + by rewrite lookup_insert_eq.
    + unfold SocketChat.on_join_conversation.
      destruct (SocketChat.activeConversations s !! _); simpl;
        destruct (SocketChat.connectedUsers s !! u) as [us|] eqn:Hus; simpl;
        rewrite ?Hus; simpl; try done;
        case_bool_decide; simpl; rewrite ?Hus, ?lookup_insert_eq; done.
    + unfold SocketChat.on_leave_conversation.
      destruct (SocketChat.connectedUsers s !! u) as [us|] eqn:Hus; simpl;
        rewrite ?Hus, ?lookup_insert_eq; done.
    + unfold SocketChat.on_send_message. by repeat case_match.
    + unfold SocketChat.on_call_initiate. by repeat case_match.
    + unfold SocketChat.on_call_accept. by repeat case_match.
    + unfold SocketChat.on_webrtc_offer. by case_match.
    + unfold SocketChat.on_webrtc_answer. by case_match.
    + unfold SocketChat.on_webrtc_ice_candidate. by case_match.
    + by rewrite lookup_delete_eq.
  - rewrite bool_decide_eq_false_2 by done.
    destruct e; simpl; try done.
    + by rewrite lookup_insert_ne.
    + unfold SocketChat.on_join_conversation.
      repeat case_match; simpl; rewrite ?lookup_insert_ne by done; done.
    + unfold SocketChat.on_leave_conversation.
      repeat case_match; simpl; rewrite ?lookup_insert_ne by done; done.
    + unfold SocketChat.on_send_message. by repeat case_match.
    + unfold SocketChat.on_call_initiate. by repeat case_match.
    + unfold SocketChat.on_call_accept. by repeat case_match.
    + unfold SocketChat.on_webrtc_offer. by case_match.
    + unfold SocketChat.on_webrtc_answer. by case_match.
    + unfold SocketChat.on_webrtc_ice_candidate. by case_match.
    + rewrite lookup_delete_ne by done.
      by rewrite (proj2 (sm_end_calls_of_others v (SocketChat.activeCalls s) s)).
Qed.

Lemma sm_registration_run evs (s : SocketChat.SocketManager) u :
  UserSocket.activeConversations <$> SocketChat.connectedUsers (SocketChat.run evs s).1 !! u
  = foldl (registration_step u)
      (UserSocket.activeConversations <$> SocketChat.connectedUsers s !! u) evs.
Proof.
  revert s. induction evs as [|a rest IH]; intros s; simpl; [done|].
  by rewrite IH, sm_registration_step.
Qed.

(** The list the disconnect handler reads is the list of rooms joined since
    the latest connection. *)
Lemma sm_joined_since_connection evs u :
  sm_joined (SocketChat.run evs SocketChat.initial).1 u = rooms_since_connection u evs.
Proof.
  unfold sm_joined, rooms_since_connection.
  pose proof (sm_registration_run evs SocketChat.initial u) as E.
  simpl in E. rewrite lookup_empty in E. simpl in E. rewrite <- E.
  by destruct (SocketChat.connectedUsers _ !! u).
Qed.

Lemma sm_reachable_callee_registered s :
  SocketChat.reachable s → sm_callee_registered s.
Proof.
  apply sm_reachable_invariant; [|apply sm_callee_registered_step]. by intros c d.
Qed.

(** What the disconnect handler of [socket.chat.ts] leaves in the call map:
    the records in which the user is neither caller nor callee. *)
Lemma sm_disconnect_calls (s : SocketChat.SocketManager) userId c d :
  SocketChat.reachable s →
  JSMap.get c (SocketChat.activeCalls (SocketChat.on_disconnect userId s).1) = Some d
  ↔ JSMap.get c (SocketChat.activeCalls s) = Some d
    ∧ SocketChat.CallData.callerId d ≠ userId
    ∧ SocketChat.CallData.recipientId d ≠ userId.
Proof.
  intros Hreach. rewrite <- sm_is_party_false. split.
  - intros Hget. split.
    + by apply (sm_calls_within_disconnect userId s).
    + apply jsmap_get_Some_elem in Hget.
      by apply (sm_end_calls_of_rest userId s (c, d)).
  - intros [Hget Hp]. by apply sm_disconnect_keeps_other_calls.
Qed.

(** Whom it tells: the callee of every call the user placed and the caller
    of every call placed to the user. *)
Lemma sm_disconnect_notifies (s : SocketChat.SocketManager) userId c d :
  JSMap.get c (SocketChat.activeCalls s) = Some d →
  (SocketChat.CallData.callerId d = userId →
   emit (to_room (SocketChat.CallData.recipientId d))
     (SocketChat.call_ended c userId (Some "User disconnected") None)
   ∈ (SocketChat.on_disconnect userId s).2)
  ∧ (SocketChat.CallData.recipientId d = userId →
     emit (to_room (SocketChat.CallData.callerId d))
       (SocketChat.call_ended c userId (Some "User disconnected") None)
     ∈ (SocketChat.on_disconnect userId s).2).
Proof.
  intros Hget%jsmap_get_Some_elem.
  assert (Hin : SocketChat.is_party userId d = true →
                emit (to_room (SocketChat.otherUserId userId d))
                  (SocketChat.call_ended c userId (Some "User disconnected") None)
                ∈ (SocketChat.on_disconnect userId s).2).
  { intros Hp. unfold SocketChat.on_disconnect. simpl. apply elem_of_app. right.
    rewrite sm_end_calls_of_effects. apply list_elem_of_fmap.
    exists (c, d). split; [done|]. apply list_elem_of_filter.
    split; [simpl; by rewrite Hp | done]. }
  unfold SocketChat.is_party, SocketChat.otherUserId in Hin. split; intros Hu.
  - rewrite (bool_decide_eq_true_2 _ Hu) in Hin. by apply Hin.
  - rewrite (bool_decide_eq_true_2 (SocketChat.CallData.recipientId d = userId) Hu),
      orb_true_r in Hin.
    case_bool_decide as Hc; [|by apply Hin].
    replace (SocketChat.CallData.callerId d) with (SocketChat.CallData.recipientId d)
      by congruence.
    by apply Hin.
Qed.

(** The disconnect of a user who is not registered and has placed no call
    that is stored does nothing at all. *)
Lemma sm_disconnect_removed (s : SocketChat.SocketManager) userId :
  SocketChat.reachable s →
  SocketChat.connectedUsers s !! userId = None →
  (∀ c d, JSMap.get c (SocketChat.activeCalls s) = Some d →
          SocketChat.CallData.callerId d ≠ userId) →
  SocketChat.on_disconnect userId s = (s, []).
Proof.
  intros Hreach Hnone Hcaller. unfold SocketChat.on_disconnect. rewrite Hnone.
  rewrite sm_end_calls_of_nop.
  - simpl. f_equal. destruct s as [cv cu ac]. unfold SocketChat.with_connectedUsers.
    simpl in *. by rewrite delete_id.
  - intros [c d] Hin. simpl. apply sm_is_party_false.
    apply (jsmap_get_elem_nodup _ _ _ (sm_reachable_keys_nodup s Hreach)) in Hin.
    split; [by eapply Hcaller|].
    intros Hr. destruct (sm_reachable_callee_registered s Hreach c d Hin) as [us Hus].
    rewrite Hr in Hus. congruence.
Qed.

(** The left-notifications of a disconnect: one for each conversation of
    the registration, none for any other room. *)
Lemma sm_disconnect_rooms (s : SocketChat.SocketManager) userId room :
  SocketChat.reachable s →
  left_notifications userId room (SocketChat.on_disconnect userId s).2
  = if bool_decide (room ∈ sm_joined s userId) then 1%nat else 0%nat.
Proof.
  intros Hreach. unfold SocketChat.on_disconnect. simpl.
  rewrite left_notifications_app, left_notifications_calls, Nat.add_0_r.
  apply left_notifications_rooms. unfold sm_joined.
  destruct (SocketChat.connectedUsers s !! userId) as [us|] eqn:Hus.
  - by eapply (sm_reachable_conversations_nodup s Hreach).
  - apply NoDup_nil_2.
Qed.

(** Run again on the state it produced, the disconnect handler changes
    nothing and sends nothing. *)
Lemma sm_disconnect_again (s : SocketChat.SocketManager) userId :
  let r := SocketChat.on_disconnect userId s in
  SocketChat.connectedUsers r.1 !! userId = None
  ∧ SocketChat.on_disconnect userId r.1 = (r.1, []).
Proof.
  unfold SocketChat.on_disconnect.
  set (r := SocketChat.end_calls_of userId (SocketChat.activeCalls s) s).
  simpl. rewrite lookup_delete_eq. split; [done|]. simpl.
  rewrite sm_end_calls_of_nop by (intros e He; by apply (sm_end_calls_of_rest userId s)).
  simpl. f_equal. destruct r as [[cv cu ac] effs].
  unfold SocketChat.with_connectedUsers. simpl. f_equal. apply delete_delete_eq.
Qed.

(** The call map of [CallHandler] holds one record per id. *)
Lemma ch_keys_nodup_step a (s : CallHandler.State) :
  NoDup (JSMap.keys (CallHandler.activeCalls s)) →
  NoDup (JSMap.keys (CallHandler.activeCalls (CallHandler.handle a s).1)).
Proof.
  intros Hinv. destruct a as [now u sid e|now h]; simpl.
  - destruct e; simpl.
    + unfold CallHandler.handleCallInitiate. repeat case_match; try done.
      match goal with H : CallHandler.setTimeout _ _ _ _ = _ |- _ =>
        injection H as <- <- end.
      simpl. by apply jsmap_keys_set_nodup.
    + unfold CallHandler.handleCallAccept. repeat case_match; try done.
      simpl. rewrite ch_activeCalls_clearCallTimeout. simpl.
      by apply jsmap_keys_set_nodup.
    + rewrite ch_activeCalls_clearCallTimeout. by apply jsmap_keys_filter_nodup.
    + rewrite ch_activeCalls_clearCallTimeout. by apply jsmap_keys_filter_nodup.
    + unfold CallHandler.handleWebRTCOffer. by case_match.
    + unfold CallHandler.handleWebRTCAnswer. by case_match.
    + unfold CallHandler.handleWebRTCIceCandidate. by case_match.
    + rewrite ch_activeCalls_clearCallTimeout. by apply jsmap_keys_filter_nodup.
    + unfold CallHandler.handleUserDisconnect. rewrite ch_end_calls_of_calls.
      by apply jsmap_keys_filter_nodup.
  - unfold CallHandler.on_timer. repeat case_match; try done.
    unfold CallHandler.handleCallTimeoutAutomatically.
    repeat case_match; simpl; try done.
    by apply jsmap_keys_filter_nodup.
Qed.

Lemma ch_reachable_keys_nodup s :
  CallHandler.reachable s → NoDup (JSMap.keys (CallHandler.activeCalls s)).
Proof.
  intros [evs <-].
  apply (ch_run_invariant (λ s, NoDup (JSMap.keys (CallHandler.activeCalls s))));
    [apply ch_keys_nodup_step | apply NoDup_nil_2].
Qed.

(** What [handleUserDisconnect] leaves in the call map: the records in
    which the user is neither caller nor callee. *)
Lemma ch_disconnect_calls now (s : CallHandler.State) userId c d :
  CallHandler.reachable s →
  JSMap.get c (CallHandler.activeCalls (CallHandler.handleUserDisconnect now userId s).1)
  = Some d
  ↔ JSMap.get c (CallHandler.activeCalls s) = Some d
    ∧ CallHandler.CallData.callerId d ≠ userId
    ∧ CallHandler.CallData.recipientId d ≠ userId.
Proof.
  intros Hreach. rewrite <- ch_is_party_false. unfold CallHandler.handleUserDisconnect.
  split.
  - intros Hget. split.
    + by apply ch_get_end_calls in Hget.
    + apply jsmap_get_Some_elem in Hget.
      by apply (ch_end_calls_of_rest now userId s (c, d)).
  - intros [Hget Hp]. rewrite ch_end_calls_of_calls.
    pose proof (jsmap_get_filter_keys
                  (λ k, k ∉ (filter (λ e, CallHandler.is_party userId e.2)
                               (CallHandler.activeCalls s)).*1)
                  c (CallHandler.activeCalls s)) as E.
    simpl in E. rewrite E. rewrite decide_True; [done|].
    intros Hin.
    apply list_elem_of_fmap in Hin as [[c' d'] [Hc [Hp' Hin]%list_elem_of_filter]].
    simpl in *. subst c'.
    apply (jsmap_get_elem_nodup _ _ _ (ch_reachable_keys_nodup s Hreach)) in Hin.
    assert (d' = d) as -> by congruence. by rewrite Hp in Hp'.
Qed.

(** Whom it tells. *)
Lemma ch_disconnect_notifies now (s : CallHandler.State) userId c d :
  JSMap.get c (CallHandler.activeCalls s) = Some d →
  (CallHandler.CallData.callerId d = userId →
   ∃ duration,
     emit (to_room (CallHandler.CallData.recipientId d))
       (CallHandler.call_ended c userId (Some "User disconnected") duration)
     ∈ (CallHandler.handleUserDisconnect now userId s).2)
  ∧ (CallHandler.CallData.recipientId d = userId →
     ∃ duration,
       emit (to_room (CallHandler.CallData.callerId d))
         (CallHandler.call_ended c userId (Some "User disconnected") duration)
       ∈ (CallHandler.handleUserDisconnect now userId s).2).
Proof.
  intros Hget%jsmap_get_Some_elem.
  assert (Hin : CallHandler.is_party userId d = true →
                emit (to_room (CallHandler.otherUserId userId d))
                  (CallHandler.call_ended c userId (Some "User disconnected")
                     (getCallDuration now (CallHandler.CallData.timestamp d)))
                ∈ (CallHandler.handleUserDisconnect now userId s).2).
  { intros Hp. unfold CallHandler.handleUserDisconnect.
    rewrite ch_end_calls_of_effects. apply list_elem_of_fmap.
    exists (c, d). split; [done|]. apply list_elem_of_filter.
    split; [simpl; by rewrite Hp | done]. }
  unfold CallHandler.is_party, CallHandler.otherUserId in Hin.
  split; intros Hu; eexists.
  - rewrite (bool_decide_eq_true_2 _ Hu) in Hin. by apply Hin.
  - rewrite (bool_decide_eq_true_2 (CallHandler.CallData.recipientId d = userId) Hu),
      orb_true_r in Hin.
    case_bool_decide as Hc; [|by apply Hin].
    replace (CallHandler.CallData.callerId d) with (CallHandler.CallData.recipientId d)
      by congruence.
    by apply Hin.
Qed.

Lemma ch_disconnect_again now now' (s : CallHandler.State) userId :
  let r := CallHandler.handleUserDisconnect now userId s in
  CallHandler.handleUserDisconnect now' userId r.1 = (r.1, []).
Proof.
  unfold CallHandler.handleUserDisconnect. apply ch_end_calls_of_nop. intros e He.
  by apply (ch_end_calls_of_rest now userId s).
Qed.

(** After a reconnect the room joined before gets no left-notification, and
    a call placed by a removed user from a connection that is still open is
    removed by the next disconnect of that user. *)
Lemma disconnect_misses_rooms_joined_before_reconnect :
  ¬ left_once_per_joined_room ∧ ¬ removed_user_disconnect_is_noop.
Proof.
  split; intros H.
  - specialize (H rejoin_trace "u1" "u1_u2").
    assert (Hin : "u1_u2" ∈ rooms_joined "u1" rejoin_trace) by (vm_compute; by left).
    apply H in Hin. vm_compute in Hin. discriminate Hin.
  - destruct (H stale_call_trace "u1") as [Hs _].
    + eexists (SocketChat.mkArrival 3 "u1" "s1" SocketChat.Event.disconnect).
      split; [|done]. vm_compute. do 3 right. by left.
    + by vm_compute.
    + vm_compute in Hs. discriminate Hs.
Qed.

(** C7: the disconnect handler of [socket.chat.ts], run for user [userId]
    after any arrivals [evs],
    - leaves in the call map exactly the calls in which the user is neither
      caller nor callee, unchanged,
    - sends a [call:ended] naming the user to the callee of every call the
      user placed and to the caller of every call placed to the user,
    - sends exactly one [user_left_conversation] to every room the user
      joined since the latest connection of that user and has not left
      since, and none to any other room,
    - leaves the user unregistered and, run a second time on the state it
      produced, changes nothing and sends nothing,
    - and, when the user was not registered to begin with, sends no
      [user_left_conversation], and changes and sends nothing at all unless
      a call placed by the user is stored.
    [CallHandler.handleUserDisconnect], which keeps no rooms and no
    registrations, does the same for the calls. *)
Theorem disconnect_ends_calls_and_leaves_rooms :
  (∀ (evs : list SocketChat.arrival) (userId : string),
     let s := (SocketChat.run evs SocketChat.initial).1 in
     let r := SocketChat.on_disconnect userId s in
     (∀ c d, JSMap.get c (SocketChat.activeCalls r.1) = Some d
             ↔ JSMap.get c (SocketChat.activeCalls s) = Some d
               ∧ SocketChat.CallData.callerId d ≠ userId
               ∧ SocketChat.CallData.recipientId d ≠ userId)
     ∧ (∀ c d, JSMap.get c (SocketChat.activeCalls s) = Some d →
               (SocketChat.CallData.callerId d = userId →
                emit (to_room (SocketChat.CallData.recipientId d))
                  (SocketChat.call_ended c userId (Some "User disconnected") None) ∈ r.2)
               ∧ (SocketChat.CallData.recipientId d = userId →
                  emit (to_room (SocketChat.CallData.callerId d))
                    (SocketChat.call_ended c userId (Some "User disconnected") None)
                  ∈ r.2))
     ∧ (∀ room, left_notifications userId room r.2
                = if bool_decide (room ∈ rooms_since_connection userId evs)
                  then 1%nat else 0%nat)
     ∧ SocketChat.connectedUsers r.1 !! userId = None
     ∧ SocketChat.on_disconnect userId r.1 = (r.1, [])
     ∧ (SocketChat.connectedUsers s !! userId = None →
        (∀ room, left_notifications userId room r.2 = 0%nat)
        ∧ ((∀ c d, JSMap.get c (SocketChat.activeCalls s) = Some d →
                   SocketChat.CallData.callerId d ≠ userId) →
           r = (s, []))))
  ∧
  (∀ (now now' : Z) (evs : list CallHandler.arrival) (userId : string),
     let s := (CallHandler.run evs CallHandler.initial).1 in
     let r := CallHandler.handleUserDisconnect now userId s in
     (∀ c d, JSMap.get c (CallHandler.activeCalls r.1) = Some d
             ↔ JSMap.get c (CallHandler.activeCalls s) = Some d
               ∧ CallHandler.CallData.callerId d ≠ userId
               ∧ CallHandler.CallData.recipientId d ≠ userId)
     ∧ (∀ c d, JSMap.get c (CallHandler.activeCalls s) = Some d →
               (CallHandler.CallData.callerId d = userId →
                ∃ duration,
                  emit (to_room (CallHandler.CallData.recipientId d))
                    (CallHandler.call_ended c userId (Some "User disconnected") duration)
                  ∈ r.2)
               ∧ (CallHandler.CallData.recipientId d = userId →
                  ∃ duration,
                    emit (to_room (CallHandler.CallData.callerId d))
                      (CallHandler.call_ended c userId (Some "User disconnected") duration)
                    ∈ r.2))
     ∧ CallHandler.handleUserDisconnect now' userId r.1 = (r.1, [])).
Proof.
  split.
  - intros evs userId s r.
    assert (Hreach : SocketChat.reachable s) by (by exists evs).
    assert (Hrooms : ∀ room, left_notifications userId room r.2
                             = if bool_decide (room ∈ rooms_since_connection userId evs)
                               then 1%nat else 0%nat).
    { intros room. subst r. rewrite (sm_disconnect_rooms s userId room Hreach).
      subst s. by rewrite sm_joined_since_connection. }
    split; [intros c d; by apply sm_disconnect_calls|].
    split; [intros c d; by apply sm_disconnect_notifies|].
    split; [exact Hrooms|].
    split; [apply sm_disconnect_again|].
    split; [apply sm_disconnect_again|].
    intros Hnone. split.
    + intros room. subst r. rewrite (sm_disconnect_rooms s userId room Hreach).
      unfold sm_joined. by rewrite Hnone.
    + intros Hcaller. by apply sm_disconnect_removed.
  - intros now now' evs userId s r.
    assert (Hreach : CallHandler.reachable s) by (by exists evs).
    split; [intros c d; by apply ch_disconnect_calls|].
    split; [intros c d; by apply ch_disconnect_notifies|].
    apply ch_disconnect_again.
Qed.

Lemma disconnect_ends_calls_and_leaves_rooms_witness :
  left_notifications "u2" "u1_u2" (SocketChat.on_disconnect "u2" sm_in_rooms).2 = 1%nat
  ∧ left_notifications "u2" "u1_u3" (SocketChat.on_disconnect "u2" sm_in_rooms).2 = 0%nat
  ∧ emit (to_room "u1") (SocketChat.call_ended "c1" "u2" (Some "User disconnected") None)
    ∈ (SocketChat.on_disconnect "u2" sm_in_rooms).2
  ∧ SocketChat.on_disconnect "u2" (SocketChat.on_disconnect "u2" sm_in_rooms).1
    = ((SocketChat.on_disconnect "u2" sm_in_rooms).1, []).
Proof.
  destruct (proj1 disconnect_ends_calls_and_leaves_rooms
              [ SocketChat.mkArrival 0 "u1" "s1" SocketChat.Event.connection;
                SocketChat.mkArrival 1 "u2" "s2" SocketChat.Event.connection;
                SocketChat.mkArrival 2 "u2" "s2" (SocketChat.Event.join_conversation "u1");
                SocketChat.mkArrival 3 "u2" "s2" (SocketChat.Event.join_conversation "u3");
                SocketChat.mkArrival 4 "u2" "s2" (SocketChat.Event.join_conversation "u1");
                SocketChat.mkArrival 5 "u1" "s1"
                  (SocketChat.Event.call_initiate "c1" "u2" video "u1" "Ann" None) ]
              "u2")
    as (_ & Htold & Hrooms & _ & Hagain & _).
  split; [|split; [|split]].
  - etrans; [exact (Hrooms "u1_u2") | by vm_compute].
  - etrans; [exact (Hrooms "u1_u3") | by vm_compute].
  - apply (Htold "c1" (SocketChat.CallData.mk "c1" video "u1" "Ann" None "u2" 5));
      by vm_compute.
  - exact Hagain.
Defined.
